(** * ADead-BIB universal runtime: memory manager and runtime context

    A shallow embedding of [runtime/core/types.h], [runtime/core/memory.h],
    [runtime/core/memory.c] and [runtime/core/runtime.c], followed by the
    properties of the allocators, of the tensor descriptor and of the
    runtime life cycle.

    Conventions of the embedding.
    - [usize], [u64] and [u32] values are integers in [Z]; every C operation
      that can wrap is written with its reduction ([usize], [u32], [i32]).
      The target is LP64: [usize] is 64 bits wide.
    - A data pointer is its address in [Z]; [NULL] is 0.  A pointer to one of
      the runtime's own structures is an [option]: [None] is the null
      pointer, [Some s] points to a structure whose current value is [s], and
      a function that writes through the pointer returns the new value.
    - The C heap is the [World]: its bytes, the blocks [malloc] handed out
      and did not get back, the answers [malloc] is going to give, and the
      log of the calls made through a backend table. *)

From Stdlib Require Import ZArith String.
From stdpp Require Import base option list gmap.

Local Open Scope Z_scope.

(** ** Machine integers and pointers (types.h) *)

Definition usize (z : Z) : Z := z mod 2 ^ 64.
Definition u64 (z : Z) : Z := z mod 2 ^ 64.
Definition u32 (z : Z) : Z := z mod 2 ^ 32.
(** Conversion to [i32], as in the casts [(i32)a->shape[0]]. *)
Definition i32 (z : Z) : Z := (z + 2 ^ 31) mod 2 ^ 32 - 2 ^ 31.

Definition NULL : Z := 0.

Definition ADEAD_ALIGNMENT : Z := 16.
Definition ADEAD_MAX_DIMS : Z := 8.

Definition ADEAD_BACKEND_CPU : Z := 0.
Definition ADEAD_BACKEND_CUDA : Z := 1.
Definition ADEAD_BACKEND_VULKAN : Z := 2.
Definition ADEAD_BACKEND_AUTO : Z := 255.

Inductive ADeadError : Set :=
  | ADEAD_OK
  | ADEAD_ERROR_INIT
  | ADEAD_ERROR_MEMORY
  | ADEAD_ERROR_INVALID_OP
  | ADEAD_ERROR_BACKEND
  | ADEAD_ERROR_VULKAN
  | ADEAD_ERROR_CUDA
  | ADEAD_ERROR_SHADER
  | ADEAD_ERROR_OUT_OF_MEMORY
  | ADEAD_ERROR_INVALID_PARAM.

Definition error_code (e : ADeadError) : Z :=
  match e with
  | ADEAD_OK => 0
  | ADEAD_ERROR_INIT => -1
  | ADEAD_ERROR_MEMORY => -2
  | ADEAD_ERROR_INVALID_OP => -3
  | ADEAD_ERROR_BACKEND => -4
  | ADEAD_ERROR_VULKAN => -5
  | ADEAD_ERROR_CUDA => -6
  | ADEAD_ERROR_SHADER => -7
  | ADEAD_ERROR_OUT_OF_MEMORY => -8
  | ADEAD_ERROR_INVALID_PARAM => -9
  end.

Definition is_ok (e : ADeadError) : bool :=
  match e with ADEAD_OK => true | _ => false end.

(** ** The C heap *)

(** One entry per call made through a field of a backend table, with the
    arguments of the call. *)
Inductive BackendCall : Set :=
  | CallInit
  | CallShutdown (ctx : Z)
  | CallAlloc (ctx size : Z)
  | CallFree (ctx ptr : Z)
  | CallCopyH2D (ctx dst src size : Z)
  | CallCopyD2H (ctx dst src size : Z)
  | CallMatmul (ctx a b c m n k : Z)
  | CallAdd (ctx a b c size : Z)
  | CallRelu (ctx inp out size : Z)
  | CallSoftmax (ctx inp out rows cols : Z)
  | CallSync (ctx : Z).

Record World : Type := mkWorld {
  mem : gmap Z Z;            (* the byte stored at each address *)
  live : list Z;             (* blocks obtained from malloc and not freed *)
  oracle : list Z;           (* what the next calls of malloc answer *)
  trace : list BackendCall   (* calls through a backend table, latest first *)
}.

Definition set_mem (m : gmap Z Z) (w : World) : World :=
  mkWorld m (live w) (oracle w) (trace w).
Definition log_call (c : BackendCall) (w : World) : World :=
  mkWorld (mem w) (live w) (oracle w) (c :: trace w).

(** [malloc] answers what the environment decides: [NULL], or the address
    of a block of [size] bytes that lies inside the address space. *)
Definition malloc (size : Z) (w : World) : Z * World :=
  match oracle w with
  | [] => (NULL, w)
  | p :: rest =>
      if (0 <? p) && (p + size <=? 2 ^ 64)
      then (p, mkWorld (mem w) (p :: live w) rest (trace w))
      else (NULL, mkWorld (mem w) (live w) rest (trace w))
  end.

Fixpoint remove_first (p : Z) (l : list Z) : list Z :=
  match l with
  | [] => []
  | x :: l' => if x =? p then l' else x :: remove_first p l'
  end.

Definition free (p : Z) (w : World) : World :=
  if p =? NULL then w
  else mkWorld (mem w) (remove_first p (live w)) (oracle w) (trace w).

Definition load_byte (m : gmap Z Z) (a : Z) : Z := default 0 (m !! a).

(** Little-endian access to [n] bytes at address [a]. *)
Fixpoint store_bytes (n : nat) (a v : Z) (m : gmap Z Z) : gmap Z Z :=
  match n with
  | O => m
  | S k => store_bytes k (a + 1) (v / 256) (<[a := v mod 256]> m)
  end.

Fixpoint load_bytes (n : nat) (a : Z) (m : gmap Z Z) : Z :=
  match n with
  | O => 0
  | S k => load_byte m a + 256 * load_bytes k (a + 1) m
  end.

Definition store64 (a v : Z) (w : World) : World :=
  set_mem (store_bytes 8 a v (mem w)) w.
Definition load64 (a : Z) (w : World) : Z := load_bytes 8 a (mem w).

(** The copy [memcpy] makes: the [n] bytes at [src] are read, then
    written at [dst]. *)
Fixpoint read_list (n : nat) (a : Z) (m : gmap Z Z) : list Z :=
  match n with
  | O => []
  | S k => load_byte m a :: read_list k (a + 1) m
  end.

Fixpoint write_list (a : Z) (l : list Z) (m : gmap Z Z) : gmap Z Z :=
  match l with
  | [] => m
  | x :: l' => write_list (a + 1) l' (<[a := x]> m)
  end.

Definition copy_bytes (dst src n : Z) (w : World) : World :=
  set_mem (write_list dst (read_list (Z.to_nat n) src (mem w)) (mem w)) w.

(** The ranges of [n] bytes at [a] and at [b] have a byte in common. *)
Definition ranges_overlap (a b n : Z) : bool :=
  (0 <? n) && (a <? b + n) && (b <? a + n).

(** [for (i = start; i < start + count; i++) body] *)
Fixpoint for_loop {S : Type} (count : nat) (start : Z) (body : Z -> S -> S) (s : S) : S :=
  match count with
  | O => s
  | Datatypes.S k => for_loop k (start + 1) body (body start s)
  end.

(** ** memory.h: alignment *)

Definition adead_align_up (size alignment : Z) : Z :=
  Z.land (usize (size + alignment - 1)) (usize (Z.lnot (usize (alignment - 1)))).

(** ** memory.c: arena allocator *)

Record ADeadArena : Set := mkArena {
  arena_base : Z;
  arena_offset : Z;
  arena_capacity : Z;
  arena_peak : Z
}.

Definition adead_arena_init (arena : option ADeadArena) (capacity : Z) (w : World)
  : ADeadError * option ADeadArena * World :=
  match arena with
  | None => (ADEAD_ERROR_INVALID_PARAM, None, w)
  | Some a =>
      if capacity =? 0 then (ADEAD_ERROR_INVALID_PARAM, Some a, w)
      else
        let '(p, w1) := malloc capacity w in
        if p =? NULL
        then (ADEAD_ERROR_OUT_OF_MEMORY,
              Some (mkArena p (arena_offset a) (arena_capacity a) (arena_peak a)), w1)
        else (ADEAD_OK, Some (mkArena p 0 capacity 0), w1)
  end.

Definition adead_arena_destroy (arena : option ADeadArena) (w : World)
  : option ADeadArena * World :=
  match arena with
  | None => (None, w)
  | Some a =>
      if arena_base a =? NULL then (Some a, w)
      else (Some (mkArena NULL 0 0 0), free (arena_base a) w)
  end.

Definition adead_arena_alloc (arena : option ADeadArena) (size alignment : Z)
  : Z * option ADeadArena :=
  match arena with
  | None => (NULL, None)
  | Some a =>
      if (arena_base a =? NULL) || (size =? 0) then (NULL, Some a)
      else
        let aligned_offset := adead_align_up (arena_offset a) alignment in
        if usize (aligned_offset + size) >? arena_capacity a then (NULL, Some a)
        else
          let ptr := arena_base a + aligned_offset in
          let offset' := usize (aligned_offset + size) in
          let peak' := if offset' >? arena_peak a then offset' else arena_peak a in
          (ptr, Some (mkArena (arena_base a) offset' (arena_capacity a) peak'))
  end.

Definition adead_arena_reset (arena : option ADeadArena) : option ADeadArena :=
  match arena with
  | None => None
  | Some a => Some (mkArena (arena_base a) 0 (arena_capacity a) (arena_peak a))
  end.

Definition adead_arena_used (arena : option ADeadArena) : Z :=
  match arena with
  | None => 0
  | Some a => arena_offset a
  end.

Definition adead_arena_available (arena : option ADeadArena) : Z :=
  match arena with
  | None => 0
  | Some a => usize (arena_capacity a - arena_offset a)
  end.

(** ** memory.c: pool allocator *)

(** [sizeof(ADeadPoolBlock)]: one pointer. *)
Definition sizeof_ADeadPoolBlock : Z := 8.

Record ADeadPool : Set := mkPool {
  pool_base : Z;
  pool_free_list : Z;
  pool_block_size : Z;
  pool_capacity : Z;
  pool_used : Z
}.

(** One turn of the loop that threads the free list: the block of index [i]
    gets the current head as its [next] and becomes the head. *)
Definition pool_link_block (base block_size : Z) (i : Z) (st : Z * World) : Z * World :=
  let block := base + usize (i * block_size) in
  (block, store64 block (fst st) (snd st)).

Definition adead_pool_init (pool : option ADeadPool) (block_size num_blocks : Z) (w : World)
  : ADeadError * option ADeadPool * World :=
  match pool with
  | None => (ADEAD_ERROR_INVALID_PARAM, None, w)
  | Some p =>
      if (block_size =? 0) || (num_blocks =? 0) then (ADEAD_ERROR_INVALID_PARAM, Some p, w)
      else
        let block_size :=
          if block_size <? sizeof_ADeadPoolBlock then sizeof_ADeadPoolBlock else block_size in
        let block_size := adead_align_up block_size ADEAD_ALIGNMENT in
        let total_size := usize (block_size * num_blocks) in
        let '(base, w1) := malloc total_size w in
        if base =? NULL
        then (ADEAD_ERROR_OUT_OF_MEMORY,
              Some (mkPool base (pool_free_list p) (pool_block_size p)
                           (pool_capacity p) (pool_used p)), w1)
        else
          let '(head, w2) :=
            for_loop (Z.to_nat num_blocks) 0 (pool_link_block base block_size) (NULL, w1) in
          (ADEAD_OK, Some (mkPool base head block_size num_blocks 0), w2)
  end.

Definition adead_pool_destroy (pool : option ADeadPool) (w : World)
  : option ADeadPool * World :=
  match pool with
  | None => (None, w)
  | Some p =>
      if pool_base p =? NULL then (Some p, w)
      else (Some (mkPool NULL NULL 0 0 0), free (pool_base p) w)
  end.

Definition adead_pool_alloc (pool : option ADeadPool) (w : World) : Z * option ADeadPool :=
  match pool with
  | None => (NULL, None)
  | Some p =>
      if pool_free_list p =? NULL then (NULL, Some p)
      else
        let block := pool_free_list p in
        (block, Some (mkPool (pool_base p) (load64 block w) (pool_block_size p)
                             (pool_capacity p) (usize (pool_used p + 1))))
  end.

Definition adead_pool_free (pool : option ADeadPool) (ptr : Z) (w : World)
  : option ADeadPool * World :=
  match pool with
  | None => (None, w)
  | Some p =>
      if ptr =? NULL then (Some p, w)
      else if (ptr <? pool_base p)
              || (ptr >=? pool_base p + usize (pool_block_size p * pool_capacity p))
      then (Some p, w)
      else
        (Some (mkPool (pool_base p) ptr (pool_block_size p) (pool_capacity p)
                      (usize (pool_used p - 1))),
         store64 ptr (pool_free_list p) w)
  end.

Definition adead_pool_reset (pool : option ADeadPool) (w : World)
  : option ADeadPool * World :=
  match pool with
  | None => (None, w)
  | Some p =>
      if pool_base p =? NULL then (Some p, w)
      else
        let '(head, w1) :=
          for_loop (Z.to_nat (pool_capacity p)) 0
                   (pool_link_block (pool_base p) (pool_block_size p)) (NULL, w) in
        (Some (mkPool (pool_base p) head (pool_block_size p) (pool_capacity p) 0), w1)
  end.

(** ** memory.c: memory manager *)

Record ADeadMemoryManager : Set := mkMemoryManager {
  mm_scratch : ADeadArena;
  mm_tensor_pool : ADeadPool;
  mm_total_alloc : Z;
  mm_total_freed : Z;
  mm_alloc_count : Z;
  mm_free_count : Z
}.

(** The structure after [memset(mm, 0, sizeof(ADeadMemoryManager))]. *)
Definition zero_arena : ADeadArena := mkArena 0 0 0 0.
Definition zero_pool : ADeadPool := mkPool 0 0 0 0 0.
Definition zero_memory_manager : ADeadMemoryManager :=
  mkMemoryManager zero_arena zero_pool 0 0 0 0.

(** The value of a member after a call that received its address: the
    address of a member is never null, so the callee always hands a value
    back. *)
Definition member {A : Type} (old : A) (new : option A) : A := default old new.

Definition adead_memory_init (mm : option ADeadMemoryManager) (scratch_size pool_size : Z)
  (w : World) : ADeadError * option ADeadMemoryManager * World :=
  match mm with
  | None => (ADEAD_ERROR_INVALID_PARAM, None, w)
  | Some _ =>
      let m := zero_memory_manager in
      let '(err, scratch, w1) := adead_arena_init (Some (mm_scratch m)) scratch_size w in
      let m := mkMemoryManager (member (mm_scratch m) scratch) (mm_tensor_pool m)
                 (mm_total_alloc m) (mm_total_freed m) (mm_alloc_count m) (mm_free_count m) in
      if negb (is_ok err) then (err, Some m, w1)
      else
        let '(err, pool, w2) :=
          adead_pool_init (Some (mm_tensor_pool m)) 256 (pool_size / 256) w1 in
        let m := mkMemoryManager (mm_scratch m) (member (mm_tensor_pool m) pool)
                   (mm_total_alloc m) (mm_total_freed m) (mm_alloc_count m) (mm_free_count m) in
        if negb (is_ok err) then
          let '(scratch, w3) := adead_arena_destroy (Some (mm_scratch m)) w2 in
          (err,
           Some (mkMemoryManager (member (mm_scratch m) scratch) (mm_tensor_pool m)
                   (mm_total_alloc m) (mm_total_freed m) (mm_alloc_count m) (mm_free_count m)),
           w3)
        else (ADEAD_OK, Some m, w2)
  end.

Definition adead_memory_destroy (mm : option ADeadMemoryManager) (w : World)
  : option ADeadMemoryManager * World :=
  match mm with
  | None => (None, w)
  | Some m =>
      let '(_, w1) := adead_arena_destroy (Some (mm_scratch m)) w in
      let '(_, w2) := adead_pool_destroy (Some (mm_tensor_pool m)) w1 in
      (Some zero_memory_manager, w2)
  end.

Definition adead_memory_scratch (mm : option ADeadMemoryManager) (size : Z)
  : Z * option ADeadMemoryManager :=
  match mm with
  | None => (NULL, None)
  | Some m =>
      let '(ptr, scratch) := adead_arena_alloc (Some (mm_scratch m)) size ADEAD_ALIGNMENT in
      let m := mkMemoryManager (member (mm_scratch m) scratch) (mm_tensor_pool m)
                 (mm_total_alloc m) (mm_total_freed m) (mm_alloc_count m) (mm_free_count m) in
      if ptr =? NULL then (ptr, Some m)
      else
        (ptr,
         Some (mkMemoryManager (mm_scratch m) (mm_tensor_pool m)
                 (usize (mm_total_alloc m + size)) (mm_total_freed m)
                 (u32 (mm_alloc_count m + 1)) (mm_free_count m)))
  end.

Definition adead_memory_scratch_reset (mm : option ADeadMemoryManager)
  : option ADeadMemoryManager :=
  match mm with
  | None => None
  | Some m =>
      let total_freed := usize (mm_total_freed m + arena_offset (mm_scratch m)) in
      let free_count := u32 (mm_free_count m + 1) in
      let scratch := adead_arena_reset (Some (mm_scratch m)) in
      Some (mkMemoryManager (member (mm_scratch m) scratch) (mm_tensor_pool m)
              (mm_total_alloc m) total_freed (mm_alloc_count m) free_count)
  end.

(** The four counters, as [adead_memory_stats] writes them to its
    out-parameters (all four given). *)
Definition adead_memory_stats (mm : option ADeadMemoryManager) : option (Z * Z * Z * Z) :=
  match mm with
  | None => None
  | Some m => Some (mm_total_alloc m, mm_total_freed m, mm_alloc_count m, mm_free_count m)
  end.

(** ** types.h: tensor descriptor *)

Record ADeadTensor : Set := mkTensor {
  t_data : Z;
  t_shape : list Z;      (* u64 shape[ADEAD_MAX_DIMS] *)
  t_strides : list Z;    (* u64 strides[ADEAD_MAX_DIMS] *)
  t_ndim : Z;
  t_dtype : Z;
  t_device : Z;
  t_size_bytes : Z
}.

(** The descriptor after [memset(tensor, 0, sizeof(ADeadTensor))]. *)
Definition zero_tensor : ADeadTensor :=
  mkTensor 0 (replicate 8 0) (replicate 8 0) 0 0 0 0.

(** [arr[i]] and [arr[i] = v] on an array of [u64]. *)
Definition array_get (arr : list Z) (i : Z) : Z := default 0 (arr !! Z.to_nat i).
Definition array_set (arr : list Z) (i v : Z) : list Z := <[Z.to_nat i := v]> arr.

Definition adead_dtype_size (dtype : Z) : Z :=
  if dtype =? 0 then 4          (* ADEAD_DTYPE_F32 *)
  else if dtype =? 1 then 8     (* ADEAD_DTYPE_F64 *)
  else if dtype =? 2 then 4     (* ADEAD_DTYPE_I32 *)
  else if dtype =? 3 then 8     (* ADEAD_DTYPE_I64 *)
  else if dtype =? 4 then 1     (* ADEAD_DTYPE_U8 *)
  else if dtype =? 5 then 1     (* ADEAD_DTYPE_I8 *)
  else if dtype =? 6 then 2     (* ADEAD_DTYPE_F16 *)
  else if dtype =? 7 then 2     (* ADEAD_DTYPE_BF16 *)
  else 0.

Definition adead_tensor_numel (t : ADeadTensor) : Z :=
  for_loop (Z.to_nat (t_ndim t)) 0 (fun i n => u64 (n * array_get (t_shape t) i)) 1.

(** ** runtime.h: backend table and runtime context *)

(** The result of a function that dereferences a pointer it did not test:
    [Fault] is the dereference of a null pointer (or a read past the end of
    the caller's array, or a library call that C leaves undefined), in the
    function itself or in the backend function it calls. *)
Inductive exec (A : Type) : Type :=
  | Ret (a : A)
  | Fault.
Arguments Ret {A} a.
Arguments Fault {A}.

(** [backend_call(...); return ADEAD_OK;] *)
Definition ok_after (call : exec World) : exec (ADeadError * World) :=
  match call with
  | Ret w => Ret (ADEAD_OK, w)
  | Fault => Fault
  end.

(** [struct ADeadBackendVTable].  [vt_init] gives what it stores in [*ctx],
    if it stores anything.  The copies and the numeric operations work on
    the buffers they are handed and fault on a buffer that is not there. *)
Record ADeadBackendVTable : Type := mkVTable {
  vt_name : string;
  vt_init : World -> ADeadError * option Z * World;
  vt_shutdown : Z -> World -> World;
  vt_alloc : Z -> Z -> World -> Z * World;
  vt_free : Z -> Z -> World -> World;
  vt_copy_h2d : Z -> Z -> Z -> Z -> World -> exec World;
  vt_copy_d2h : Z -> Z -> Z -> Z -> World -> exec World;
  vt_matmul : Z -> Z -> Z -> Z -> Z -> Z -> Z -> World -> exec World;
  vt_add : Z -> Z -> Z -> Z -> Z -> World -> exec World;
  vt_relu : Z -> Z -> Z -> Z -> World -> exec World;
  vt_softmax : Z -> Z -> Z -> Z -> Z -> World -> exec World;
  vt_attention : Z -> Z -> Z -> Z -> Z -> Z -> Z -> Z -> Z -> World -> exec World;
  vt_layernorm : Z -> Z -> Z -> Z -> Z -> World -> exec World;
  vt_sync : Z -> World -> World;
  vt_memory_available : Z -> World -> Z;
  vt_memory_used : Z -> World -> Z
}.

Record ADeadRuntime : Type := mkRuntime {
  rt_memory : ADeadMemoryManager;
  rt_active_backend : Z;
  rt_backend_vtable : option ADeadBackendVTable;
  rt_backend_ctx : Z;
  rt_flags : Z;
  rt_initialized : Z
}.

(** The context after [memset(rt, 0, sizeof(ADeadRuntime))]. *)
Definition zero_runtime : ADeadRuntime :=
  mkRuntime zero_memory_manager 0 None NULL 0 0.

(** ** runtime.c: the CPU backend *)

(** The numeric kernels of the CPU backend compute on [f32] values; their
    arithmetic is outside this development, so the effect of each kernel on
    the heap, or its fault on a buffer that is not there, is a parameter. *)
Record CPUKernels : Type := mkKernels {
  k_matmul : Z -> Z -> Z -> Z -> Z -> Z -> World -> exec World;
  k_add : Z -> Z -> Z -> Z -> World -> exec World;
  k_relu : Z -> Z -> Z -> World -> exec World;
  k_softmax : Z -> Z -> Z -> Z -> World -> exec World;
  k_attention : Z -> Z -> Z -> Z -> Z -> Z -> Z -> Z -> World -> exec World;
  k_layernorm : Z -> Z -> Z -> Z -> World -> exec World
}.

(** [sizeof(CPUBackendCtx)]: [allocated] at offset 0, [peak] at offset 8. *)
Definition sizeof_CPUBackendCtx : Z := 16.

Definition cpu_init (w : World) : ADeadError * option Z * World :=
  let '(c, w1) := malloc sizeof_CPUBackendCtx w in
  if c =? NULL then (ADEAD_ERROR_OUT_OF_MEMORY, None, w1)
  else (ADEAD_OK, Some c, store64 (c + 8) 0 (store64 c 0 w1)).

Definition cpu_shutdown (ctx : Z) (w : World) : World := free ctx w.

(** [ctx] is taken to be the context [cpu_init] made: the update of its
    counters after a successful [malloc] is not trapped when [ctx] is null. *)
Definition cpu_alloc (ctx size : Z) (w : World) : Z * World :=
  let '(ptr, w1) := malloc size w in
  if ptr =? NULL then (ptr, w1)
  else
    let allocated := usize (load64 ctx w1 + size) in
    let w2 := store64 ctx allocated w1 in
    let w3 := if allocated >? load64 (ctx + 8) w2 then store64 (ctx + 8) allocated w2 else w2 in
    (ptr, w3).

Definition cpu_free (ctx ptr : Z) (w : World) : World := free ptr w.

(** [memcpy(dst, src, n)].  C leaves the call undefined when a pointer is
    null or the two ranges overlap: there it faults. *)
Definition memcpy (dst src n : Z) (w : World) : exec World :=
  if (dst =? NULL) || (src =? NULL) || ranges_overlap dst src n then Fault
  else Ret (copy_bytes dst src n w).

Definition cpu_copy_h2d (ctx dst src size : Z) (w : World) : exec World :=
  memcpy dst src size w.
Definition cpu_copy_d2h (ctx dst src size : Z) (w : World) : exec World :=
  memcpy dst src size w.

Definition cpu_sync (ctx : Z) (w : World) : World := w.

Definition cpu_memory_available (ctx : Z) (w : World) : Z := 16 * 1024 * 1024 * 1024.

Definition cpu_memory_used (ctx : Z) (w : World) : Z :=
  if ctx =? NULL then 0 else load64 ctx w.

Section Runtime.

Variable kernels : CPUKernels.

Definition cpu_vtable : ADeadBackendVTable :=
  mkVTable "CPU" cpu_init cpu_shutdown cpu_alloc cpu_free cpu_copy_h2d cpu_copy_d2h
    (fun _ => k_matmul kernels) (fun _ => k_add kernels) (fun _ => k_relu kernels)
    (fun _ => k_softmax kernels) (fun _ => k_attention kernels)
    (fun _ => k_layernorm kernels)
    cpu_sync cpu_memory_available cpu_memory_used.

(** ** runtime.c: life cycle *)

Definition set_rt_memory (m : ADeadMemoryManager) (r : ADeadRuntime) : ADeadRuntime :=
  mkRuntime m (rt_active_backend r) (rt_backend_vtable r) (rt_backend_ctx r)
    (rt_flags r) (rt_initialized r).

(** The [switch (backend)] of [adead_init]: the table and the tag it
    installs, or [None] in the [default] case. *)
Definition select_backend (backend : Z) : option (ADeadBackendVTable * Z) :=
  if (backend =? ADEAD_BACKEND_CPU) || (backend =? ADEAD_BACKEND_AUTO)
  then Some (cpu_vtable, ADEAD_BACKEND_CPU)
  else if backend =? ADEAD_BACKEND_CUDA
  then Some (cpu_vtable, ADEAD_BACKEND_CPU)     (* fallback to CPU *)
  else if backend =? ADEAD_BACKEND_VULKAN
  then Some (cpu_vtable, ADEAD_BACKEND_CPU)     (* fallback to CPU *)
  else None.

Definition adead_init (rt : option ADeadRuntime) (backend : Z) (w : World)
  : ADeadError * option ADeadRuntime * World :=
  match rt with
  | None => (ADEAD_ERROR_INVALID_PARAM, None, w)
  | Some _ =>
      let r := zero_runtime in
      let '(err, memory, w1) :=
        adead_memory_init (Some (rt_memory r)) (64 * 1024 * 1024) (16 * 1024 * 1024) w in
      let r := set_rt_memory (member (rt_memory r) memory) r in
      if negb (is_ok err) then (err, Some r, w1)
      else
        match select_backend backend with
        | None =>
            let '(memory, w2) := adead_memory_destroy (Some (rt_memory r)) w1 in
            (ADEAD_ERROR_INVALID_PARAM, Some (set_rt_memory (member (rt_memory r) memory) r), w2)
        | Some (vt, active) =>
            let '(err, ctx, w2) := vt_init vt (log_call CallInit w1) in
            let r := mkRuntime (rt_memory r) active (Some vt)
                       (default (rt_backend_ctx r) ctx) (rt_flags r) (rt_initialized r) in
            if negb (is_ok err) then
              let '(memory, w3) := adead_memory_destroy (Some (rt_memory r)) w2 in
              (err, Some (set_rt_memory (member (rt_memory r) memory) r), w3)
            else
              (ADEAD_OK,
               Some (mkRuntime (rt_memory r) (rt_active_backend r) (rt_backend_vtable r)
                       (rt_backend_ctx r) (rt_flags r) 1),
               w2)
        end
  end.

Definition adead_init_auto (rt : option ADeadRuntime) (w : World)
  : ADeadError * option ADeadRuntime * World :=
  adead_init rt ADEAD_BACKEND_AUTO w.

End Runtime.

Definition adead_shutdown (rt : option ADeadRuntime) (w : World)
  : option ADeadRuntime * World :=
  match rt with
  | None => (None, w)
  | Some r =>
      if rt_initialized r =? 0 then (Some r, w)
      else
        let w1 :=
          match rt_backend_vtable r with
          | Some vt =>
              if rt_backend_ctx r =? NULL then w
              else vt_shutdown vt (rt_backend_ctx r)
                     (log_call (CallShutdown (rt_backend_ctx r)) w)
          | None => w
          end in
        let '(_, w2) := adead_memory_destroy (Some (rt_memory r)) w1 in
        (Some zero_runtime, w2)
  end.

Definition adead_get_backend (rt : option ADeadRuntime) : Z :=
  match rt with
  | Some r => rt_active_backend r
  | None => ADEAD_BACKEND_CPU
  end.

Definition adead_get_backend_name (rt : option ADeadRuntime) : string :=
  match rt with
  | Some r =>
      match rt_backend_vtable r with
      | Some vt => vt_name vt
      | None => "Unknown"
      end
  | None => "Unknown"
  end.

(** ** runtime.c: tensors *)

(** [for (i = start; i >= 0; i--) body], with [count] turns to run. *)
Fixpoint for_down {S : Type} (count : nat) (start : Z) (body : Z -> S -> S) (s : S) : S :=
  match count with
  | O => s
  | Datatypes.S k => for_down k (start - 1) body (body start s)
  end.

(** The first loop of [adead_tensor_create]: copy the shape and multiply
    the element count. *)
Definition copy_shape (shape : list Z) (i : Z) (st : list Z * Z) : list Z * Z :=
  (array_set (fst st) i (array_get shape i), u64 (snd st * array_get shape i)).

(** The second loop: the stride of dimension [i] from that of [i + 1]. *)
Definition stride_step (shape : list Z) (i : Z) (strides : list Z) : list Z :=
  array_set strides i (u64 (array_get strides (i + 1) * array_get shape (i + 1))).

Definition adead_tensor_create (rt : option ADeadRuntime) (tensor : option ADeadTensor)
  (shape : option (list Z)) (ndim dtype : Z) (w : World)
  : exec (ADeadError * option ADeadTensor * World) :=
  match rt, tensor, shape with
  | Some r, Some _, Some sh =>
      if (ndim =? 0) || (ndim >? ADEAD_MAX_DIMS) then Ret (ADEAD_ERROR_INVALID_PARAM, tensor, w)
      else if Z.of_nat (length sh) <? ndim then Fault
      else
        let t := zero_tensor in
        let '(shape', numel) := for_loop (Z.to_nat ndim) 0 (copy_shape sh) (t_shape t, 1) in
        let elem_size := adead_dtype_size dtype in
        let strides := array_set (t_strides t) (ndim - 1) elem_size in
        let first := i32 (u32 (ndim - 2)) in
        let strides := for_down (Z.to_nat (first + 1)) first (stride_step sh) strides in
        let size_bytes := u64 (numel * elem_size) in
        match rt_backend_vtable r with
        | None => Fault
        | Some vt =>
            let '(data, w1) :=
              vt_alloc vt (rt_backend_ctx r) size_bytes
                (log_call (CallAlloc (rt_backend_ctx r) size_bytes) w) in
            let t := mkTensor data shape' strides ndim dtype (rt_active_backend r) size_bytes in
            if data =? NULL then Ret (ADEAD_ERROR_OUT_OF_MEMORY, Some t, w1)
            else Ret (ADEAD_OK, Some t, w1)
        end
  | _, _, _ => Ret (ADEAD_ERROR_INVALID_PARAM, tensor, w)
  end.

Definition adead_tensor_destroy (rt : option ADeadRuntime) (tensor : option ADeadTensor)
  (w : World) : exec (option ADeadTensor * World) :=
  match rt, tensor with
  | Some r, Some t =>
      if t_data t =? NULL then Ret (tensor, w)
      else
        match rt_backend_vtable r with
        | None => Fault
        | Some vt =>
            Ret (Some zero_tensor,
                 vt_free vt (rt_backend_ctx r) (t_data t)
                   (log_call (CallFree (rt_backend_ctx r) (t_data t)) w))
        end
  | _, _ => Ret (tensor, w)
  end.

Definition adead_tensor_copy_from (rt : option ADeadRuntime) (tensor : option ADeadTensor)
  (data size : Z) (w : World) : exec (ADeadError * World) :=
  match rt, tensor with
  | Some r, Some t =>
      if data =? NULL then Ret (ADEAD_ERROR_INVALID_PARAM, w)
      else
        let size := if size >? t_size_bytes t then t_size_bytes t else size in
        match rt_backend_vtable r with
        | None => Fault
        | Some vt =>
            ok_after
                (vt_copy_h2d vt (rt_backend_ctx r) (t_data t) data size
                   (log_call (CallCopyH2D (rt_backend_ctx r) (t_data t) data size) w))
        end
  | _, _ => Ret (ADEAD_ERROR_INVALID_PARAM, w)
  end.

Definition adead_tensor_copy_to (rt : option ADeadRuntime) (tensor : option ADeadTensor)
  (data size : Z) (w : World) : exec (ADeadError * World) :=
  match rt, tensor with
  | Some r, Some t =>
      if data =? NULL then Ret (ADEAD_ERROR_INVALID_PARAM, w)
      else
        let size := if size >? t_size_bytes t then t_size_bytes t else size in
        match rt_backend_vtable r with
        | None => Fault
        | Some vt =>
            ok_after
                (vt_copy_d2h vt (rt_backend_ctx r) data (t_data t) size
                   (log_call (CallCopyD2H (rt_backend_ctx r) data (t_data t) size) w))
        end
  | _, _ => Ret (ADEAD_ERROR_INVALID_PARAM, w)
  end.

(** ** runtime.c: operations *)

Definition adead_matmul (rt : option ADeadRuntime) (a b c : option ADeadTensor) (w : World)
  : exec (ADeadError * World) :=
  match rt, a, b, c with
  | Some r, Some ta, Some tb, Some tc =>
      let m := i32 (array_get (t_shape ta) 0) in
      let k := i32 (array_get (t_shape ta) 1) in
      let n := i32 (array_get (t_shape tb) 1) in
      match rt_backend_vtable r with
      | None => Fault
      | Some vt =>
          ok_after
              (vt_matmul vt (rt_backend_ctx r) (t_data ta) (t_data tb) (t_data tc) m n k
                 (log_call
                    (CallMatmul (rt_backend_ctx r) (t_data ta) (t_data tb) (t_data tc) m n k) w))
      end
  | _, _, _, _ => Ret (ADEAD_ERROR_INVALID_PARAM, w)
  end.

Definition adead_add (rt : option ADeadRuntime) (a b c : option ADeadTensor) (w : World)
  : exec (ADeadError * World) :=
  match rt, a, b, c with
  | Some r, Some ta, Some tb, Some tc =>
      let size := i32 (adead_tensor_numel ta) in
      match rt_backend_vtable r with
      | None => Fault
      | Some vt =>
          ok_after
              (vt_add vt (rt_backend_ctx r) (t_data ta) (t_data tb) (t_data tc) size
                 (log_call
                    (CallAdd (rt_backend_ctx r) (t_data ta) (t_data tb) (t_data tc) size) w))
      end
  | _, _, _, _ => Ret (ADEAD_ERROR_INVALID_PARAM, w)
  end.

Definition adead_relu (rt : option ADeadRuntime) (inp out : option ADeadTensor) (w : World)
  : exec (ADeadError * World) :=
  match rt, inp, out with
  | Some r, Some ti, Some to =>
      let size := i32 (adead_tensor_numel ti) in
      match rt_backend_vtable r with
      | None => Fault
      | Some vt =>
          ok_after
              (vt_relu vt (rt_backend_ctx r) (t_data ti) (t_data to) size
                 (log_call (CallRelu (rt_backend_ctx r) (t_data ti) (t_data to) size) w))
      end
  | _, _, _ => Ret (ADEAD_ERROR_INVALID_PARAM, w)
  end.

Definition adead_softmax (rt : option ADeadRuntime) (inp out : option ADeadTensor) (w : World)
  : exec (ADeadError * World) :=
  match rt, inp, out with
  | Some r, Some ti, Some to =>
      let rows := i32 (array_get (t_shape ti) 0) in
      let cols := i32 (array_get (t_shape ti) 1) in
      match rt_backend_vtable r with
      | None => Fault
      | Some vt =>
          ok_after
              (vt_softmax vt (rt_backend_ctx r) (t_data ti) (t_data to) rows cols
                 (log_call
                    (CallSoftmax (rt_backend_ctx r) (t_data ti) (t_data to) rows cols) w))
      end
  | _, _, _ => Ret (ADEAD_ERROR_INVALID_PARAM, w)
  end.

Definition adead_sync (rt : option ADeadRuntime) (w : World) : World :=
  match rt with
  | Some r =>
      match rt_backend_vtable r with
      | Some vt => vt_sync vt (rt_backend_ctx r) (log_call (CallSync (rt_backend_ctx r)) w)
      | None => w
      end
  | None => w
  end.

Definition adead_memory_available (rt : option ADeadRuntime) (w : World) : Z :=
  match rt with
  | Some r =>
      match rt_backend_vtable r with
      | Some vt => vt_memory_available vt (rt_backend_ctx r) w
      | None => 0
      end
  | None => 0
  end.

Definition adead_memory_used (rt : option ADeadRuntime) (w : World) : Z :=
  match rt with
  | Some r =>
      match rt_backend_vtable r with
      | Some vt => vt_memory_used vt (rt_backend_ctx r) w
      | None => 0
      end
  | None => 0
  end.

(** ** Specification vocabulary *)

(** The addresses met when following [next] from [p], at most [fuel] of
    them, up to the first null link. *)
Fixpoint free_list_walk (fuel : nat) (w : World) (p : Z) : list Z :=
  match fuel with
  | O => []
  | S k => if p =? NULL then [] else p :: free_list_walk k w (load64 p w)
  end.

(** What the specification says of [alloc(size, alignment)] on an arena
    [a]: failure without any change when the aligned request ends beyond the
    capacity, and otherwise the address, the new cursor and the new
    high-water mark.  The end of the request is the sum of two numbers, not
    a machine sum. *)
Definition arena_alloc_as_specified (a : ADeadArena) (size alignment : Z) : Prop :=
  let aligned_offset := adead_align_up (arena_offset a) alignment in
  if aligned_offset + size >? arena_capacity a
  then adead_arena_alloc (Some a) size alignment = (NULL, Some a)
  else adead_arena_alloc (Some a) size alignment =
         (arena_base a + aligned_offset,
          Some (mkArena (arena_base a) (aligned_offset + size) (arena_capacity a)
                  (Z.max (arena_peak a) (aligned_offset + size)))).

(** The layout [adead_tensor_create] computes before it asks the backend
    for memory: the two loops and the byte size, on the caller's shape. *)
Definition computed_shape (shape : list Z) (ndim : Z) : list Z :=
  fst (for_loop (Z.to_nat ndim) 0 (copy_shape shape) (replicate 8 0, 1)).
Definition computed_numel (shape : list Z) (ndim : Z) : Z :=
  snd (for_loop (Z.to_nat ndim) 0 (copy_shape shape) (replicate 8 0, 1)).
Definition computed_strides (shape : list Z) (ndim dtype : Z) : list Z :=
  for_down (Z.to_nat (i32 (u32 (ndim - 2)) + 1)) (i32 (u32 (ndim - 2))) (stride_step shape)
    (array_set (replicate 8 0) (ndim - 1) (adead_dtype_size dtype)).
Definition computed_size_bytes (shape : list Z) (ndim dtype : Z) : Z :=
  u64 (computed_numel shape ndim * adead_dtype_size dtype).

(** What the specification says of the public operations on a context [r]
    that is not initialized or has no backend table: each one returns
    [ADEAD_ERROR_INVALID_PARAM] and the heap, log of backend calls
    included, is as before. *)
Definition operations_check_context_as_specified (r : ADeadRuntime) : Prop :=
  rt_initialized r = 0 \/ rt_backend_vtable r = None ->
  forall (a b c : ADeadTensor) (shape : list Z) (ndim dtype data size : Z) (w : World),
    adead_matmul (Some r) (Some a) (Some b) (Some c) w = Ret (ADEAD_ERROR_INVALID_PARAM, w) /\
    adead_add (Some r) (Some a) (Some b) (Some c) w = Ret (ADEAD_ERROR_INVALID_PARAM, w) /\
    adead_relu (Some r) (Some a) (Some b) w = Ret (ADEAD_ERROR_INVALID_PARAM, w) /\
    adead_softmax (Some r) (Some a) (Some b) w = Ret (ADEAD_ERROR_INVALID_PARAM, w) /\
    adead_tensor_create (Some r) (Some a) (Some shape) ndim dtype w =
      Ret (ADEAD_ERROR_INVALID_PARAM, Some a, w) /\
    adead_tensor_copy_from (Some r) (Some a) data size w = Ret (ADEAD_ERROR_INVALID_PARAM, w) /\
    adead_tensor_copy_to (Some r) (Some a) data size w = Ret (ADEAD_ERROR_INVALID_PARAM, w).

(** What the specification says of [adead_tensor_create] when the backend
    of [r] has no memory for the request: out-of-memory, and a descriptor
    with every field zero. *)
Definition create_failure_as_specified (r : ADeadRuntime) (vt : ADeadBackendVTable)
  (t0 : ADeadTensor) (shape : list Z) (ndim dtype : Z) (w : World) : Prop :=
  rt_backend_vtable r = Some vt ->
  1 <= ndim <= ADEAD_MAX_DIMS -> ndim <= Z.of_nat (length shape) ->
  fst (vt_alloc vt (rt_backend_ctx r) (computed_size_bytes shape ndim dtype)
         (log_call (CallAlloc (rt_backend_ctx r) (computed_size_bytes shape ndim dtype)) w))
    = NULL ->
  exists w', adead_tensor_create (Some r) (Some t0) (Some shape) ndim dtype w =
               Ret (ADEAD_ERROR_OUT_OF_MEMORY, Some zero_tensor, w').

(** What the specification says of the layout of a tensor [t]: the last
    stride is the element size and every other stride is the product of the
    next stride and the next extent, a product of numbers. *)
Definition row_major_as_specified (t : ADeadTensor) : Prop :=
  array_get (t_strides t) (t_ndim t - 1) = adead_dtype_size (t_dtype t) /\
  forall i, 0 <= i < t_ndim t - 1 ->
    array_get (t_strides t) i = array_get (t_strides t) (i + 1) * array_get (t_shape t) (i + 1).

(** ** Inputs of the examples *)

(** Kernels that leave the heap as it is. *)
Definition idle_kernels : CPUKernels :=
  mkKernels (fun _ _ _ _ _ _ w => Ret w) (fun _ _ _ _ w => Ret w) (fun _ _ _ w => Ret w)
    (fun _ _ _ _ w => Ret w) (fun _ _ _ _ _ _ _ _ w => Ret w) (fun _ _ _ _ w => Ret w).

(** An empty heap in which [malloc] answers the given addresses. *)
Definition world_with (answers : list Z) : World := mkWorld ∅ [] answers [].

(** A context that carries the CPU table and is not marked initialized;
    [adead_init] leaves such a context when the backend's [init] fails. *)
Definition uninitialized_cpu_runtime : ADeadRuntime :=
  mkRuntime zero_memory_manager ADEAD_BACKEND_CPU (Some (cpu_vtable idle_kernels)) NULL 0 0.

(** An initialized context on the CPU table, its backend context at
    address 4096. *)
Definition cpu_runtime : ADeadRuntime :=
  mkRuntime zero_memory_manager ADEAD_BACKEND_CPU (Some (cpu_vtable idle_kernels)) 4096 0 1.

(** A 2 x 2 [f32] tensor with its data at address [data]. *)
Definition tensor_2x2 (data : Z) : ADeadTensor :=
  mkTensor data [2; 2; 0; 0; 0; 0; 0; 0] [8; 4; 0; 0; 0; 0; 0; 0] 2 0 ADEAD_BACKEND_CPU 16.

(** A heap with the bytes 1 to 16 in a host buffer at address 8192. *)
Definition host_world : World :=
  mkWorld (write_list 8192 [1; 2; 3; 4; 5; 6; 7; 8; 9; 10; 11; 12; 13; 14; 15; 16] ∅) [] [] [].

(** ** memory.h: alignment test *)

(** [adead_is_aligned(ptr, alignment)], on the address of [ptr]. *)
Definition adead_is_aligned (ptr alignment : Z) : bool :=
  Z.land (usize ptr) (usize (alignment - 1)) =? 0.

(** ** Invariants *)

(** The cursor of an arena is inside the buffer and below the high-water
    mark. *)
Definition arena_wf (a : ADeadArena) : Prop :=
  0 < arena_base a /\
  0 <= arena_offset a <= arena_peak a /\
  arena_peak a <= arena_capacity a /\
  arena_capacity a < 2 ^ 64.

(** The buffer of a pool is a run of [capacity] blocks of at least one
    link each, inside the address space. *)
Definition pool_wf (p : ADeadPool) : Prop :=
  0 < pool_base p /\
  8 <= pool_block_size p /\
  0 <= pool_capacity p /\
  pool_base p + pool_block_size p * pool_capacity p <= 2 ^ 64.

(** The free list that starts at [p] in the heap [w] is the list of
    blocks [l]: each block is non-null and its first word is the address of
    the next one, null after the last. *)
Fixpoint free_list_is (w : World) (p : Z) (l : list Z) : Prop :=
  match l with
  | [] => p = NULL
  | x :: l' => p = x /\ x ≠ NULL /\ free_list_is w (load64 x w) l'
  end.

(** The blocks of index [n - 1] down to 0. *)
Fixpoint pool_blocks_desc (base block_size : Z) (n : nat) : list Z :=
  match n with
  | O => []
  | S c => (base + Z.of_nat c * block_size) :: pool_blocks_desc base block_size c
  end.

(** [k] calls of [adead_pool_alloc] in a row: the pointers returned, in
    order, and the pool after the last call. *)
Fixpoint pool_alloc_n (k : nat) (pool : option ADeadPool) (w : World)
  : list Z * option ADeadPool :=
  match k with
  | O => ([], pool)
  | S k' =>
      let '(p, pool1) := adead_pool_alloc pool w in
      let '(ps, pool2) := pool_alloc_n k' pool1 w in
      (p :: ps, pool2)
  end.

(** The product of the first [ndim] extents of a shape. *)
Definition extent_product (shape : list Z) (ndim : Z) : Z :=
  foldr Z.mul 1 (take (Z.to_nat ndim) shape).

(** One turn of the loop of [adead_tensor_numel]. *)
Definition numel_step (shape : list Z) (i n : Z) : Z := u64 (n * array_get shape i).

(** The operations that change an arena, and a run of them. *)
Inductive ArenaOp : Set :=
  | ArenaAlloc (size alignment : Z)
  | ArenaReset.

Definition arena_step (a : option ADeadArena) (op : ArenaOp) : option ADeadArena :=
  match op with
  | ArenaAlloc size alignment => snd (adead_arena_alloc a size alignment)
  | ArenaReset => adead_arena_reset a
  end.

Definition arena_run (a : option ADeadArena) (ops : list ArenaOp) : option ADeadArena :=
  fold_left arena_step ops a.

(** * Properties *)

(** ** Bytes and words in the heap *)

Lemma load_byte_insert_eq (m : gmap Z Z) (a v : Z) :
  load_byte (<[a := v]> m) a = v.
Proof. unfold load_byte. by rewrite lookup_insert_eq. Qed.

Lemma load_byte_insert_ne (m : gmap Z Z) (a x v : Z) :
  a ≠ x -> load_byte (<[a := v]> m) x = load_byte m x.
Proof. intros H. unfold load_byte. by rewrite lookup_insert_ne. Qed.

Lemma load_byte_store_bytes_out (n : nat) (a v x : Z) (m : gmap Z Z) :
  x < a \/ a + Z.of_nat n <= x ->
  load_byte (store_bytes n a v m) x = load_byte m x.
Proof.
  revert a v m. induction n as [|n IH]; intros a v m H; simpl; [done|].
  rewrite IH by lia. apply load_byte_insert_ne. lia.
Qed.

Lemma load_store_bytes_same (n : nat) (a v : Z) (m : gmap Z Z) :
  load_bytes n a (store_bytes n a v m) = v mod 256 ^ Z.of_nat n.
Proof.
  revert a v m. induction n as [|n IH]; intros a v m.
  - simpl. by rewrite Z.mod_1_r.
  - cbn [load_bytes store_bytes]. rewrite IH.
    rewrite load_byte_store_bytes_out by lia.
    rewrite load_byte_insert_eq.
    rewrite Nat2Z.inj_succ, Z.pow_succ_r by lia.
    rewrite Z.rem_mul_r by lia. done.
Qed.

Lemma load_store_bytes_other (n n' : nat) (a a' v : Z) (m : gmap Z Z) :
  a' + Z.of_nat n' <= a \/ a + Z.of_nat n <= a' ->
  load_bytes n' a' (store_bytes n a v m) = load_bytes n' a' m.
Proof.
  revert a'. induction n' as [|n' IH]; intros a' H; [done|].
  cbn [load_bytes]. rewrite IH by lia.
  by rewrite load_byte_store_bytes_out by lia.
Qed.

Lemma load64_store64_same (a v : Z) (w : World) :
  0 <= v < 2 ^ 64 -> load64 a (store64 a v w) = v.
Proof.
  intros H. unfold load64, store64, set_mem. cbn [mem].
  rewrite load_store_bytes_same. apply Z.mod_small. simpl. lia.
Qed.

Lemma load64_store64_other (a a' v : Z) (w : World) :
  a' + 8 <= a \/ a + 8 <= a' -> load64 a' (store64 a v w) = load64 a' w.
Proof.
  intros H. unfold load64, store64, set_mem. cbn [mem].
  apply load_store_bytes_other. simpl. lia.
Qed.

Lemma remove_first_head (p : Z) (l : list Z) : remove_first p (p :: l) = l.
Proof. simpl. by rewrite Z.eqb_refl. Qed.

(** ** Arena *)

Lemma arena_alloc_zero_size (a : ADeadArena) (alignment : Z) :
  adead_arena_alloc (Some a) 0 alignment = (NULL, Some a).
Proof. unfold adead_arena_alloc. simpl. by rewrite orb_true_r. Qed.

Lemma align_up_nonneg (size alignment : Z) : 0 <= adead_align_up size alignment.
Proof.
  unfold adead_align_up. apply Z.land_nonneg. left. unfold usize.
  apply Z.mod_pos_bound. lia.
Qed.

(** C3, as amended.  On an initialized arena a call [alloc(size, alignment)]
    with [size > 0] whose end [align_up(offset, alignment) + size] is below
    [2 ^ 64] behaves as specified: when the request ends beyond [capacity]
    the call returns no pointer and the arena is unchanged (so the first
    allocation that would exceed the capacity fails with the cursor where it
    was), and otherwise the call returns [base + aligned_offset], moves the
    cursor to the end of the request and raises [peak] to it.  A call with
    [size = 0] returns no pointer and changes nothing. *)
Theorem arena_alloc_correct (a : ADeadArena) (size alignment : Z) :
  arena_base a ≠ NULL ->
  (0 < size -> adead_align_up (arena_offset a) alignment + size < 2 ^ 64 ->
   arena_alloc_as_specified a size alignment) /\
  (size = 0 -> adead_arena_alloc (Some a) size alignment = (NULL, Some a)).
Proof.
  intros Hbase. split.
  - intros Hsize Hfit. unfold arena_alloc_as_specified, adead_arena_alloc.
    destruct (Z.eqb_spec (arena_base a) NULL) as [|_]; [done|].
    destruct (Z.eqb_spec size 0) as [|_]; [lia|]. simpl orb. cbv iota.
    pose proof (align_up_nonneg (arena_offset a) alignment) as Hal.
    set (aligned := adead_align_up (arena_offset a) alignment) in *.
    assert (E : usize (aligned + size) = aligned + size)
      by (unfold usize; apply Z.mod_small; lia).
    cbv zeta. rewrite E.
    destruct (aligned + size >? arena_capacity a); [done|].
    f_equal. f_equal. f_equal.
    destruct (Z.gtb_spec (aligned + size) (arena_peak a)); lia.
  - intros ->. apply arena_alloc_zero_size.
Qed.

Lemma arena_alloc_correct_witness :
  arena_base (mkArena 4096 100 1024 100) ≠ NULL /\
  adead_align_up (arena_offset (mkArena 4096 100 1024 100)) 16 + 200 < 2 ^ 64 /\
  adead_arena_alloc (Some (mkArena 4096 100 1024 100)) 200 16 =
    (4096 + 112, Some (mkArena 4096 312 1024 312)) /\
  adead_arena_alloc (Some (mkArena 4096 100 1024 100)) 1000 16 =
    (NULL, Some (mkArena 4096 100 1024 100)).
Proof.
  assert (H : arena_base (mkArena 4096 100 1024 100) ≠ NULL) by (vm_compute; discriminate).
  assert (Hfit : adead_align_up (arena_offset (mkArena 4096 100 1024 100)) 16 + 200 < 2 ^ 64)
    by (vm_compute; reflexivity).
  assert (Hfit' : adead_align_up (arena_offset (mkArena 4096 100 1024 100)) 16 + 1000 < 2 ^ 64)
    by (vm_compute; reflexivity).
  split; [exact H|]. split; [exact Hfit|]. split.
  - exact (proj1 (arena_alloc_correct (mkArena 4096 100 1024 100) 200 16 H) eq_refl Hfit).
  - exact (proj1 (arena_alloc_correct (mkArena 4096 100 1024 100) 1000 16 H) eq_refl Hfit').
Defined.

(** C3, the claim as it stands, fails for an empty request: the code returns
    no pointer and leaves the cursor at 1, where the specification has the
    address [base + 16] and the cursor at 16. *)
Lemma arena_alloc_zero_size_counterexample :
  ~ arena_alloc_as_specified (mkArena 4096 1 100 1) 0 16.
Proof. unfold arena_alloc_as_specified. vm_compute. discriminate. Qed.

(** ** Pool *)

Lemma malloc_result (size : Z) (w : World) (p : Z) (w1 : World) :
  malloc size w = (p, w1) -> p ≠ NULL ->
  0 < p /\ p + size <= 2 ^ 64 /\
  oracle w = p :: oracle w1 /\ live w1 = p :: live w /\
  mem w1 = mem w /\ trace w1 = trace w.
Proof.
  unfold malloc. destruct (oracle w) as [|q rest]; [intros [= <- <-]; done|].
  destruct (Z.ltb_spec 0 q); destruct (Z.leb_spec (q + size) (2 ^ 64));
    simpl; intros [= <- <-] Hp; try done.
Qed.

(** A pool of 4 blocks of 256 bytes right after [adead_pool_init]. *)
Lemma pool_init_256_4 (p0 pool : ADeadPool) (w0 w : World) :
  adead_pool_init (Some p0) 256 4 w0 = (ADEAD_OK, Some pool, w) ->
  exists (b : Z) (w1 : World),
    0 < b /\ b + 1024 <= 2 ^ 64 /\
    pool = mkPool b (b + 768) 256 4 0 /\
    w = store64 (b + 768) (b + 512) (store64 (b + 512) (b + 256)
          (store64 (b + 256) b (store64 b NULL w1))).
Proof.
  unfold adead_pool_init.
  change ((256 =? 0) || (4 =? 0)) with false. cbv iota.
  change (256 <? sizeof_ADeadPoolBlock) with false. cbv iota.
  change (adead_align_up 256 ADEAD_ALIGNMENT) with 256.
  change (usize (256 * 4)) with 1024.
  destruct (malloc 1024 w0) as [b w1] eqn:Hm.
  destruct (Z.eqb_spec b NULL) as [|Hb]; [discriminate|].
  destruct (malloc_result _ _ _ _ Hm Hb) as (Hpos & Hfit & _).
  change (Z.to_nat 4) with 4%nat. cbn [for_loop].
  unfold pool_link_block. cbn [fst snd]. 
  change (usize (0 * 256)) with 0. change (usize ((0 + 1) * 256)) with 256.
  change (usize ((0 + 1 + 1) * 256)) with 512.
  change (usize ((0 + 1 + 1 + 1) * 256)) with 768.
  rewrite Z.add_0_r.
  intros [= <- <-]. exists b, w1. done.
Qed.

(** A block given back to the pool is the next one handed out. *)
Lemma pool_free_alloc_lifo (q : ADeadPool) (w : World) (ptr : Z) :
  ptr ≠ NULL ->
  pool_base q <= ptr < pool_base q + usize (pool_block_size q * pool_capacity q) ->
  fst (adead_pool_alloc (fst (adead_pool_free (Some q) ptr w))
         (snd (adead_pool_free (Some q) ptr w))) = ptr.
Proof.
  intros Hnull Hrange. unfold adead_pool_free.
  destruct (Z.eqb_spec ptr NULL) as [|_]; [done|].
  destruct (Z.ltb_spec ptr (pool_base q)) as [|_]; [lia|].
  destruct (Z.geb_spec ptr (pool_base q + usize (pool_block_size q * pool_capacity q)))
    as [|_]; [lia|].
  cbn. destruct (Z.eqb_spec ptr NULL); done.
Qed.

(** C4.  A pool initialized with [block_size = 256] and [num_blocks = 4]:
    the free list holds the four blocks in reverse index order; four
    consecutive allocations succeed, from the block of highest index down to
    the block at the base, and the fifth returns no block; and in every later
    state of the pool, a block of the pool that is freed is the block the
    next allocation returns. *)
Theorem pool_256_4_behaviour (p0 pool : ADeadPool) (w0 w : World) :
  adead_pool_init (Some p0) 256 4 w0 = (ADEAD_OK, Some pool, w) ->
  let b := pool_base pool in
  0 < b /\
  free_list_walk 5 w (pool_free_list pool) = [b + 768; b + 512; b + 256; b] /\
  (exists q1 q2 q3 q4 : ADeadPool,
     adead_pool_alloc (Some pool) w = (b + 768, Some q1) /\
     adead_pool_alloc (Some q1) w = (b + 512, Some q2) /\
     adead_pool_alloc (Some q2) w = (b + 256, Some q3) /\
     adead_pool_alloc (Some q3) w = (b, Some q4) /\
     adead_pool_alloc (Some q4) w = (NULL, Some q4) /\
     pool_used q4 = 4) /\
  (forall (q : ADeadPool) (w' : World) (ptr : Z),
     pool_base q = b -> pool_block_size q = 256 -> pool_capacity q = 4 ->
     b <= ptr < b + 1024 ->
     fst (adead_pool_alloc (fst (adead_pool_free (Some q) ptr w'))
            (snd (adead_pool_free (Some q) ptr w'))) = ptr).
Proof.
  intros Hinit. destruct (pool_init_256_4 _ _ _ _ Hinit) as (b & w1 & Hpos & Hfit & -> & ->).
  cbn [pool_base pool_free_list]. cbv zeta.
  set (wa := store64 b NULL w1).
  set (wb := store64 (b + 256) b wa).
  set (wc := store64 (b + 512) (b + 256) wb).
  set (wd := store64 (b + 768) (b + 512) wc).
  assert (L3 : load64 (b + 768) wd = b + 512).
  { subst wd. apply load64_store64_same. lia. }
  assert (L2 : load64 (b + 512) wd = b + 256).
  { subst wd wc. rewrite load64_store64_other by lia. apply load64_store64_same. lia. }
  assert (L1 : load64 (b + 256) wd = b).
  { subst wd wc wb. rewrite !load64_store64_other by lia. apply load64_store64_same. lia. }
  assert (L0 : load64 b wd = NULL).
  { subst wd wc wb wa. rewrite !load64_store64_other by lia.
    apply load64_store64_same. unfold NULL. lia. }
  assert (N : forall k, 0 <= k -> (b + k =? NULL) = false).
  { intros k Hk. apply Z.eqb_neq. unfold NULL. lia. }
  assert (N0 : (b =? NULL) = false) by (apply Z.eqb_neq; unfold NULL; lia).
  split; [done|]. split; [|split].
  - cbn [free_list_walk]. rewrite (N 768), L3, (N 512), L2, (N 256), L1, N0, L0 by lia. done.
  - unfold adead_pool_alloc. cbn [pool_free_list pool_base pool_block_size pool_capacity pool_used].
    eexists _, _, _, _.
    rewrite (N 768) by lia. split; [reflexivity|].
    cbn [pool_free_list pool_base pool_block_size pool_capacity pool_used].
    rewrite L3, (N 512) by lia. split; [reflexivity|].
    cbn [pool_free_list pool_base pool_block_size pool_capacity pool_used].
    rewrite L2, (N 256) by lia. split; [reflexivity|].
    cbn [pool_free_list pool_base pool_block_size pool_capacity pool_used].
    rewrite L1, N0. split; [reflexivity|].
    cbn [pool_free_list pool_base pool_block_size pool_capacity pool_used].
    rewrite L0. split; reflexivity.
  - intros q w' ptr Hb Hbs Hcap Hptr. apply pool_free_alloc_lifo.
    + unfold NULL. lia.
    + rewrite Hb, Hbs, Hcap. change (usize (256 * 4)) with 1024. lia.
Qed.

(** ** What allocation and initialization do to the heap *)

Lemma malloc_null (size : Z) (w : World) (p : Z) (w1 : World) :
  malloc size w = (p, w1) -> p = NULL ->
  live w1 = live w /\ mem w1 = mem w /\ trace w1 = trace w.
Proof.
  unfold malloc. destruct (oracle w) as [|q rest]; [intros [= <- <-]; done|].
  destruct (Z.ltb_spec 0 q); destruct (Z.leb_spec (q + size) (2 ^ 64));
    simpl; intros [= <- <-] Hp; try done.
  unfold NULL in Hp. lia.
Qed.

Lemma malloc_ok (size : Z) (w : World) (p : Z) (rest : list Z) :
  oracle w = p :: rest -> 0 < p -> p + size <= 2 ^ 64 ->
  malloc size w = (p, mkWorld (mem w) (p :: live w) rest (trace w)).
Proof.
  intros Ho Hp Hfit. unfold malloc. rewrite Ho.
  destruct (Z.ltb_spec 0 p); destruct (Z.leb_spec (p + size) (2 ^ 64)); simpl; done || lia.
Qed.

(** Threading the free list writes links and nothing else. *)
Lemma pool_link_loop_frame (n : nat) (i base block_size head : Z) (w : World) :
  live (snd (for_loop n i (pool_link_block base block_size) (head, w))) = live w /\
  oracle (snd (for_loop n i (pool_link_block base block_size) (head, w))) = oracle w /\
  trace (snd (for_loop n i (pool_link_block base block_size) (head, w))) = trace w.
Proof.
  revert i head w. induction n as [|n IH]; intros i head w; [done|].
  cbn [for_loop]. unfold pool_link_block at 2 4 6. cbn [fst snd].
  destruct (IH (i + 1) (base + usize (i * block_size))
              (store64 (base + usize (i * block_size)) head w)) as (-> & -> & ->).
  done.
Qed.

Lemma arena_init_spec (a : ADeadArena) (capacity : Z) (w : World)
  (err : ADeadError) (a' : option ADeadArena) (w' : World) :
  adead_arena_init (Some a) capacity w = (err, a', w') ->
  trace w' = trace w /\
  ((err = ADEAD_OK /\ exists b, a' = Some (mkArena b 0 capacity 0) /\ b ≠ NULL /\
      live w' = b :: live w /\ oracle w = b :: oracle w') \/
   (err ≠ ADEAD_OK /\ live w' = live w /\
      ((a' = Some a /\ w' = w) \/
       a' = Some (mkArena NULL (arena_offset a) (arena_capacity a) (arena_peak a))))).
Proof.
  unfold adead_arena_init. destruct (capacity =? 0).
  { intros [= <- <- <-]. split; [done|]. right. repeat split; try done. by left. }
  destruct (malloc capacity w) as [p w1] eqn:Hm.
  destruct (Z.eqb_spec p NULL) as [Hp|Hp]; intros [= <- <- <-].
  - destruct (malloc_null _ _ _ _ Hm Hp) as (Hl & _ & Ht). split; [done|].
    right. repeat split; try done. right. by rewrite Hp.
  - destruct (malloc_result _ _ _ _ Hm Hp) as (_ & _ & Ho & Hl & _ & Ht). split; [done|].
    left. split; [done|]. exists p. done.
Qed.

Lemma pool_init_spec (q : ADeadPool) (block_size num_blocks : Z) (w : World)
  (err : ADeadError) (q' : option ADeadPool) (w' : World) :
  adead_pool_init (Some q) block_size num_blocks w = (err, q', w') ->
  trace w' = trace w /\
  ((err = ADEAD_OK /\ exists b fl bs, q' = Some (mkPool b fl bs num_blocks 0) /\ b ≠ NULL /\
      live w' = b :: live w /\ oracle w = b :: oracle w') \/
   (err ≠ ADEAD_OK /\ live w' = live w /\
      ((q' = Some q /\ w' = w) \/
       q' = Some (mkPool NULL (pool_free_list q) (pool_block_size q)
                    (pool_capacity q) (pool_used q))))).
Proof.
  unfold adead_pool_init. destruct ((block_size =? 0) || (num_blocks =? 0))%bool.
  { intros [= <- <- <-]. split; [done|]. right. repeat split; try done. by left. }
  set (bs := adead_align_up _ _).
  destruct (malloc (usize (bs * num_blocks)) w) as [p w1] eqn:Hm.
  destruct (Z.eqb_spec p NULL) as [Hp|Hp].
  - intros [= <- <- <-].
    destruct (malloc_null _ _ _ _ Hm Hp) as (Hl & _ & Ht). split; [done|].
    right. repeat split; try done. right. by rewrite Hp.
  - destruct (malloc_result _ _ _ _ Hm Hp) as (_ & _ & Ho & Hl & _ & Ht).
    destruct (pool_link_loop_frame (Z.to_nat num_blocks) 0 p bs NULL w1) as (Fl & Fo & Ft).
    destruct (for_loop _ _ _ _) as [head w2]. cbn [snd] in Fl, Fo, Ft.
    intros [= <- <- <-]. split; [congruence|].
    left. split; [done|]. exists p, head, bs. repeat split; congruence.
Qed.

Lemma memory_init_spec (mm0 : ADeadMemoryManager) (scratch_size pool_size : Z) (w : World)
  (err : ADeadError) (mm' : option ADeadMemoryManager) (w' : World) :
  adead_memory_init (Some mm0) scratch_size pool_size w = (err, mm', w') ->
  trace w' = trace w /\
  ((err = ADEAD_OK /\ exists b pb fl bs,
      mm' = Some (mkMemoryManager (mkArena b 0 scratch_size 0)
                    (mkPool pb fl bs (pool_size / 256) 0) 0 0 0 0) /\
      b ≠ NULL /\ pb ≠ NULL /\
      live w' = pb :: b :: live w /\ oracle w = b :: pb :: oracle w') \/
   (err ≠ ADEAD_OK /\ live w' = live w /\ exists m,
      mm' = Some m /\ arena_base (mm_scratch m) = NULL /\
      pool_base (mm_tensor_pool m) = NULL)).
Proof.
  unfold adead_memory_init. cbn [mm_scratch mm_tensor_pool zero_memory_manager
    mm_total_alloc mm_total_freed mm_alloc_count mm_free_count].
  destruct (adead_arena_init (Some zero_arena) scratch_size w) as [[e1 a1] w1] eqn:Ha.
  destruct (arena_init_spec _ _ _ _ _ _ Ha) as (Ht1 & [(-> & b & -> & Hb & Hl1 & Ho1)|(He1 & Hl1 & Hcase)]).
  - cbn [is_ok negb member default from_option id mm_scratch mm_tensor_pool
         mm_total_alloc mm_total_freed mm_alloc_count mm_free_count].
    destruct (adead_pool_init (Some zero_pool) 256 (pool_size / 256) w1) as [[e2 q2] w2] eqn:Hq.
    destruct (pool_init_spec _ _ _ _ _ _ _ Hq)
      as (Ht2 & [(-> & pb & fl & bs & -> & Hpb & Hl2 & Ho2)|(He2 & Hl2 & Hcase)]).
    + cbn [is_ok negb member default from_option id]. intros [= <- <- <-].
      split; [congruence|]. left. split; [done|]. exists b, pb, fl, bs.
      repeat split; try done; congruence.
    + assert (Hneg : negb (is_ok e2) = true) by (destruct e2; done).
      rewrite Hneg. unfold adead_arena_destroy.
      cbn [mm_scratch arena_base].
      destruct (Z.eqb_spec b NULL) as [|_]; [done|].
      intros [= <- <- <-]. split.
      { unfold free. destruct (b =? NULL); cbn [trace]; congruence. }
      right. split; [done|]. split.
      { unfold free. destruct (Z.eqb_spec b NULL) as [|_]; [done|]. cbn [live].
        rewrite Hl2, Hl1. apply remove_first_head. }
      eexists. split; [reflexivity|].
      cbn [member default from_option id mm_scratch mm_tensor_pool arena_base].
      split; [done|]. destruct Hcase as [[-> _]| ->]; done.
  - assert (Hneg : negb (is_ok e1) = true) by (destruct e1; done).
    rewrite Hneg. intros [= <- <- <-]. split; [done|]. right.
    split; [done|]. split; [done|]. eexists. split; [reflexivity|].
    cbn [mm_scratch mm_tensor_pool]. split; [|done].
    destruct Hcase as [[-> _]| ->]; done.
Qed.

Lemma memory_destroy_spec (m : ADeadMemoryManager) (w : World) (l : list Z) :
  arena_base (mm_scratch m) ≠ NULL -> pool_base (mm_tensor_pool m) ≠ NULL ->
  live w = pool_base (mm_tensor_pool m) :: arena_base (mm_scratch m) :: l ->
  fst (adead_memory_destroy (Some m) w) = Some zero_memory_manager /\
  live (snd (adead_memory_destroy (Some m) w)) = l /\
  trace (snd (adead_memory_destroy (Some m) w)) = trace w.
Proof.
  intros Ha Hp Hl. unfold adead_memory_destroy, adead_arena_destroy, adead_pool_destroy.
  destruct (Z.eqb_spec (arena_base (mm_scratch m)) NULL) as [|_]; [done|].
  destruct (Z.eqb_spec (pool_base (mm_tensor_pool m)) NULL) as [|_]; [done|].
  cbn [fst snd]. unfold free.
  destruct (Z.eqb_spec (arena_base (mm_scratch m)) NULL) as [|_]; [done|].
  destruct (Z.eqb_spec (pool_base (mm_tensor_pool m)) NULL) as [|_]; [done|].
  cbn [live trace mem oracle]. rewrite Hl. repeat split.
  cbn [remove_first].
  destruct (Z.eqb_spec (pool_base (mm_tensor_pool m)) (arena_base (mm_scratch m))) as [E|_].
  - rewrite <- E. apply remove_first_head.
  - rewrite Z.eqb_refl. apply remove_first_head.
Qed.

(** ** Memory manager *)

(** The state a successful [adead_memory_init] leaves: the scratch arena
    is empty, owns a block of [scratch_size] bytes, and the four counters
    are zero. *)
Lemma memory_init_ok (mm0 mm : ADeadMemoryManager) (scratch_size pool_size : Z) (w0 w : World) :
  adead_memory_init (Some mm0) scratch_size pool_size w0 = (ADEAD_OK, Some mm, w) ->
  exists (b : Z) (pool : ADeadPool),
    b ≠ NULL /\ mm = mkMemoryManager (mkArena b 0 scratch_size 0) pool 0 0 0 0.
Proof.
  unfold adead_memory_init, adead_arena_init. cbn [mm_scratch zero_memory_manager].
  destruct (scratch_size =? 0); [discriminate|].
  destruct (malloc scratch_size w0) as [b w1].
  destruct (Z.eqb_spec b NULL) as [|Hb]; [discriminate|].
  cbn [is_ok negb member default mm_scratch mm_tensor_pool mm_total_alloc mm_total_freed
       mm_alloc_count mm_free_count from_option id].
  destruct (adead_pool_init _ _ _ _) as [[err pool] w2].
  destruct err; cbn [is_ok negb]; try (destruct (adead_arena_destroy _ _); discriminate).
  intros [= <- <-]. eauto.
Qed.

Lemma memory_scratch_reset_counters (m : ADeadMemoryManager) :
  adead_memory_scratch_reset (Some m) =
    Some (mkMemoryManager
            (mkArena (arena_base (mm_scratch m)) 0 (arena_capacity (mm_scratch m))
               (arena_peak (mm_scratch m)))
            (mm_tensor_pool m) (mm_total_alloc m)
            (usize (mm_total_freed m + arena_offset (mm_scratch m)))
            (mm_alloc_count m) (u32 (mm_free_count m + 1))).
Proof. reflexivity. Qed.

(** C5.  On a freshly initialized memory manager, [scratch_alloc(100)] then
    [scratch_alloc(200)], both successful, leave [total_alloc = 300] and
    [alloc_count = 2] although the arena cursor stands at 312 (the second
    request was placed at offset 112); the following [scratch_reset] adds
    the cursor, 312, to [total_freed], adds 1 to [free_count] and empties
    the arena, leaving the allocation counters as they were. *)
Theorem memory_scratch_counters (mm0 mm mm1 mm2 : ADeadMemoryManager)
  (scratch_size pool_size p1 p2 : Z) (w0 w : World) :
  adead_memory_init (Some mm0) scratch_size pool_size w0 = (ADEAD_OK, Some mm, w) ->
  adead_memory_scratch (Some mm) 100 = (p1, Some mm1) -> p1 ≠ NULL ->
  adead_memory_scratch (Some mm1) 200 = (p2, Some mm2) -> p2 ≠ NULL ->
  mm_total_alloc mm2 = 300 /\ mm_alloc_count mm2 = 2 /\
  arena_offset (mm_scratch mm2) = 312 /\
  exists mm3 : ADeadMemoryManager,
    adead_memory_scratch_reset (Some mm2) = Some mm3 /\
    mm_total_freed mm3 = mm_total_freed mm2 + arena_offset (mm_scratch mm2) /\
    mm_total_freed mm3 = 312 /\
    mm_free_count mm3 = mm_free_count mm2 + 1 /\
    mm_free_count mm3 = 1 /\
    arena_offset (mm_scratch mm3) = 0 /\
    mm_total_alloc mm3 = 300 /\ mm_alloc_count mm3 = 2.
Proof.
  intros Hinit H1 Hp1 H2 Hp2.
  destruct (memory_init_ok _ _ _ _ _ _ Hinit) as (b & pool & Hb & ->).
  revert H1. unfold adead_memory_scratch, adead_arena_alloc.
  cbn [mm_scratch arena_base arena_offset arena_capacity arena_peak mm_tensor_pool
       mm_total_alloc mm_total_freed mm_alloc_count mm_free_count].
  destruct (Z.eqb_spec b NULL) as [|_]; [done|].
  change ((false || (100 =? 0))%bool) with false. cbv iota.
  change (adead_align_up 0 ADEAD_ALIGNMENT) with 0.
  change (usize (0 + 100)) with 100.
  destruct (100 >? scratch_size).
  { cbn. change (NULL =? NULL) with true. cbv iota. intros [= <- _]. done. }
  cbn [member default from_option id mm_scratch arena_base arena_offset arena_capacity
       arena_peak mm_tensor_pool mm_total_alloc mm_total_freed mm_alloc_count mm_free_count].
  change (100 >? 0) with true. cbv iota.
  destruct (Z.eqb_spec (b + 0) NULL) as [E|_]; [intros [= <- _]; done|].
  intros [= <- <-].
  revert H2. unfold adead_memory_scratch, adead_arena_alloc.
  cbn [mm_scratch arena_base arena_offset arena_capacity arena_peak mm_tensor_pool
       mm_total_alloc mm_total_freed mm_alloc_count mm_free_count].
  destruct (Z.eqb_spec b NULL) as [|_]; [done|].
  change ((false || (200 =? 0))%bool) with false. cbv iota.
  change (adead_align_up 100 ADEAD_ALIGNMENT) with 112.
  change (usize (112 + 200)) with 312.
  destruct (312 >? scratch_size).
  { cbn. change (NULL =? NULL) with true. cbv iota. intros [= <- _]. done. }
  cbn [member default from_option id mm_scratch arena_base arena_offset arena_capacity
       arena_peak mm_tensor_pool mm_total_alloc mm_total_freed mm_alloc_count mm_free_count].
  change (312 >? 100) with true. cbv iota.
  destruct (Z.eqb_spec (b + 112) NULL) as [E|_]; [intros [= <- _]; done|].
  intros [= <- <-].
  cbn [mm_scratch arena_base arena_offset arena_capacity arena_peak mm_tensor_pool
       mm_total_alloc mm_total_freed mm_alloc_count mm_free_count].
  repeat split; try reflexivity.
  eexists. rewrite memory_scratch_reset_counters. split; [reflexivity|].
  cbn. repeat split; reflexivity.
Qed.

(** ** Runtime initialization *)

Lemma select_backend_cpu (K : CPUKernels) (backend : Z) (vt : ADeadBackendVTable) (active : Z) :
  select_backend K backend = Some (vt, active) ->
  vt = cpu_vtable K /\ active = ADEAD_BACKEND_CPU.
Proof.
  unfold select_backend.
  destruct ((backend =? ADEAD_BACKEND_CPU) || (backend =? ADEAD_BACKEND_AUTO))%bool;
    [intros [= <- <-]; done|].
  destruct (backend =? ADEAD_BACKEND_CUDA); [intros [= <- <-]; done|].
  destruct (backend =? ADEAD_BACKEND_VULKAN); [intros [= <- <-]; done|].
  discriminate.
Qed.

Lemma cpu_init_spec (w : World) (err : ADeadError) (ctx : option Z) (w' : World) :
  cpu_init w = (err, ctx, w') ->
  (err = ADEAD_OK /\ exists c, ctx = Some c /\ c ≠ NULL /\ live w' = c :: live w) \/
  (err = ADEAD_ERROR_OUT_OF_MEMORY /\ ctx = None /\ live w' = live w /\ trace w' = trace w).
Proof.
  unfold cpu_init. destruct (malloc sizeof_CPUBackendCtx w) as [c w1] eqn:Hm.
  destruct (Z.eqb_spec c NULL) as [Hc|Hc]; intros [= <- <- <-].
  - destruct (malloc_null _ _ _ _ Hm Hc) as (Hl & _ & Ht). right. done.
  - destruct (malloc_result _ _ _ _ Hm Hc) as (_ & _ & _ & Hl & _). left.
    split; [done|]. exists c. done.
Qed.

(** C6.  An initialization that returns an error holds nothing.  When
    [adead_memory_init] fails, the blocks held are those held before the
    call (the scratch arena, if it had been created, has been destroyed)
    and neither allocator of the manager owns a buffer.  When [adead_init]
    fails, whether in the memory manager, on an unknown backend identity or
    in the backend's [init], the blocks held are those held before the call,
    neither allocator owns a buffer and the context is not marked
    initialized. *)
Theorem init_failure_releases_everything (K : CPUKernels)
  (mm : option ADeadMemoryManager) (scratch_size pool_size : Z)
  (rt : option ADeadRuntime) (backend : Z) (w : World) :
  (fst (fst (adead_memory_init mm scratch_size pool_size w)) ≠ ADEAD_OK ->
   live (snd (adead_memory_init mm scratch_size pool_size w)) = live w /\
   forall m, snd (fst (adead_memory_init mm scratch_size pool_size w)) = Some m ->
     arena_base (mm_scratch m) = NULL /\ pool_base (mm_tensor_pool m) = NULL) /\
  (fst (fst (adead_init K rt backend w)) ≠ ADEAD_OK ->
   live (snd (adead_init K rt backend w)) = live w /\
   forall r, snd (fst (adead_init K rt backend w)) = Some r ->
     arena_base (mm_scratch (rt_memory r)) = NULL /\
     pool_base (mm_tensor_pool (rt_memory r)) = NULL /\
     rt_initialized r = 0).
Proof.
  split.
  - destruct mm as [mm0|]; [|done].
    destruct (adead_memory_init (Some mm0) scratch_size pool_size w) as [[err mm'] w'] eqn:Hi.
    cbn [fst snd]. intros Herr.
    destruct (memory_init_spec _ _ _ _ _ _ _ Hi) as (_ & [(-> & _)|(_ & Hl & m & -> & Ha & Hp)]);
      [done|].
    split; [done|]. intros ? [= <-]. done.
  - destruct rt as [r0|]; [|done]. unfold adead_init. cbn [rt_memory zero_runtime].
    destruct (adead_memory_init (Some zero_memory_manager) _ _ w) as [[e1 m1] w1] eqn:Hi.
    destruct (memory_init_spec _ _ _ _ _ _ _ Hi)
      as (Ht1 & [(-> & b & pb & fl & bs & -> & Hb & Hpb & Hl1 & _)|(He1 & Hl1 & m & -> & Ha & Hp)]).
    + cbn [is_ok negb member default from_option id set_rt_memory rt_memory rt_active_backend
           rt_backend_vtable rt_backend_ctx rt_flags rt_initialized].
      set (m := mkMemoryManager _ _ _ _ _ _).
      destruct (select_backend K backend) as [[vt active]|] eqn:Hsel.
      * destruct (select_backend_cpu _ _ _ _ Hsel) as [-> ->]. cbn [vt_init cpu_vtable].
        destruct (cpu_init (log_call CallInit w1)) as [[e2 ctx] w2] eqn:Hc.
        destruct (cpu_init_spec _ _ _ _ Hc) as [(-> & _)|(-> & -> & Hl2 & _)];
          cbn [is_ok negb fst snd rt_memory]; [done|].
        destruct (memory_destroy_spec m w2 (live w) Hb Hpb) as (Hd1 & Hd2 & _).
        { rewrite Hl2. cbn [log_call live]. exact Hl1. }
        destruct (adead_memory_destroy (Some m) w2) as [m' w3]. cbn [fst snd] in *.
        subst m'. intros _. split; [done|]. intros ? [= <-]. done.
      * destruct (memory_destroy_spec m w1 (live w) Hb Hpb Hl1) as (Hd1 & Hd2 & _).
        destruct (adead_memory_destroy (Some m) w1) as [m' w3]. cbn [fst snd] in *.
        subst m'. intros _. split; [done|]. intros ? [= <-]. done.
    + assert (Hneg : negb (is_ok e1) = true) by (destruct e1; done).
      rewrite Hneg. cbn [fst snd]. intros _. split; [done|]. intros ? [= <-]. done.
Qed.

(** C7.  A request for the CUDA or the Vulkan backend is served exactly as
    a request for the CPU backend: [adead_init] gives the same result, error
    code included; when it succeeds the context carries the CPU table, is
    marked initialized, [adead_get_backend] returns [ADEAD_BACKEND_CPU] and
    [adead_get_backend_name] returns ["CPU"]; and it does succeed as soon as
    the three allocations it makes (scratch arena, tensor pool, backend
    context) succeed. *)
Theorem gpu_request_runs_on_cpu (K : CPUKernels) (rt : option ADeadRuntime)
  (backend : Z) (w : World) :
  backend = ADEAD_BACKEND_CUDA \/ backend = ADEAD_BACKEND_VULKAN ->
  adead_init K rt backend w = adead_init K rt ADEAD_BACKEND_CPU w /\
  (fst (fst (adead_init K rt backend w)) = ADEAD_OK ->
   exists r, snd (fst (adead_init K rt backend w)) = Some r /\
     rt_backend_vtable r = Some (cpu_vtable K) /\
     rt_initialized r = 1 /\
     adead_get_backend (Some r) = ADEAD_BACKEND_CPU /\
     adead_get_backend_name (Some r) = "CPU"%string) /\
  (forall (r0 : ADeadRuntime) (p1 p2 p3 : Z) (rest : list Z),
     rt = Some r0 -> oracle w = p1 :: p2 :: p3 :: rest ->
     0 < p1 /\ p1 + 64 * 1024 * 1024 <= 2 ^ 64 ->
     0 < p2 /\ p2 + 16 * 1024 * 1024 <= 2 ^ 64 ->
     0 < p3 /\ p3 + 16 <= 2 ^ 64 ->
     fst (fst (adead_init K rt backend w)) = ADEAD_OK).
Proof.
  intros Hb.
  assert (Hsel : select_backend K backend = Some (cpu_vtable K, ADEAD_BACKEND_CPU)).
  { destruct Hb as [-> | ->]; reflexivity. }
  split; [|split].
  - unfold adead_init. rewrite Hsel. reflexivity.
  - destruct rt as [r0|]; [|discriminate]. unfold adead_init. rewrite Hsel.
    destruct (adead_memory_init _ _ _ w) as [[e1 m1] w1].
    destruct e1; cbn [is_ok negb fst snd]; try discriminate.
    cbn [vt_init cpu_vtable].
    destruct (cpu_init _) as [[e2 ctx] w2].
    destruct e2; cbn [is_ok negb];
      try (destruct (adead_memory_destroy _ _); cbn [fst snd]; discriminate).
    cbn [fst snd]. intros _. eexists. split; [reflexivity|]. done.
  - intros r0 p1 p2 p3 rest -> Ho [H1 H1'] [H2 H2'] [H3 H3'].
    unfold adead_init. rewrite Hsel.
    unfold adead_memory_init, adead_arena_init, adead_pool_init.
    cbn [rt_memory zero_runtime mm_scratch mm_tensor_pool zero_memory_manager].
    change (64 * 1024 * 1024 =? 0) with false. cbv iota.
    rewrite (malloc_ok _ _ _ _ Ho H1 H1').
    destruct (Z.eqb_spec p1 NULL) as [E|_]; [unfold NULL in E; lia|].
    cbn [is_ok negb member default from_option id mm_scratch mm_tensor_pool
         mm_total_alloc mm_total_freed mm_alloc_count mm_free_count].
    change ((256 =? 0) || (16 * 1024 * 1024 / 256 =? 0))%bool with false. cbv iota.
    change (256 <? sizeof_ADeadPoolBlock) with false. cbv iota.
    change (adead_align_up 256 ADEAD_ALIGNMENT) with 256.
    change (usize (256 * (16 * 1024 * 1024 / 256))) with (16 * 1024 * 1024).
    rewrite (malloc_ok _ _ p2 (p3 :: rest)) by (cbn [oracle]; reflexivity || lia).
    destruct (Z.eqb_spec p2 NULL) as [E|_]; [unfold NULL in E; lia|].
    match goal with |- context [for_loop ?n 0 ?f (?h, ?w1)] =>
      destruct (pool_link_loop_frame n 0 p2 256 h w1) as (_ & Fo & _);
      destruct (for_loop n 0 f (h, w1)) as [head w2] end.
    cbn [snd oracle] in Fo.
    cbn [is_ok negb member default from_option id set_rt_memory rt_memory
         vt_init cpu_vtable]. unfold cpu_init.
    assert (Ho3 : oracle (log_call CallInit w2) = p3 :: rest) by exact Fo.
    assert (Hf3 : p3 + sizeof_CPUBackendCtx <= 2 ^ 64) by (unfold sizeof_CPUBackendCtx; lia).
    rewrite (malloc_ok sizeof_CPUBackendCtx _ p3 rest Ho3 H3 Hf3).
    destruct (Z.eqb_spec p3 NULL) as [E|_]; [unfold NULL in E; lia|].
    reflexivity.
Qed.

(** ** memcpy *)

Lemma read_list_lookup (n : nat) (a : Z) (m : gmap Z Z) (i : nat) :
  (i < n)%nat -> read_list n a m !! i = Some (load_byte m (a + Z.of_nat i)).
Proof.
  revert a i. induction n as [|n IH]; intros a i Hi; [lia|].
  destruct i as [|i]; cbn [read_list].
  - simpl. by rewrite Z.add_0_r.
  - simpl lookup. rewrite IH by lia. f_equal. f_equal. lia.
Qed.

Lemma read_list_length (n : nat) (a : Z) (m : gmap Z Z) : length (read_list n a m) = n.
Proof. revert a. induction n as [|n IH]; intros a; simpl; [done|]. by rewrite IH. Qed.

Lemma write_list_out (a : Z) (l : list Z) (m : gmap Z Z) (x : Z) :
  x < a \/ a + Z.of_nat (length l) <= x ->
  load_byte (write_list a l m) x = load_byte m x.
Proof.
  revert a m. induction l as [|v l IH]; intros a m H; [done|].
  cbn [write_list]. cbn [length] in H. rewrite IH by lia.
  apply load_byte_insert_ne. lia.
Qed.

Lemma write_list_in (a : Z) (l : list Z) (m : gmap Z Z) (i : nat) (v : Z) :
  l !! i = Some v -> load_byte (write_list a l m) (a + Z.of_nat i) = v.
Proof.
  revert a m i. induction l as [|u l IH]; intros a m i H; [done|].
  cbn [write_list]. destruct i as [|i].
  - injection H as ->. rewrite write_list_out by lia.
    rewrite Z.add_0_r. apply load_byte_insert_eq.
  - replace (a + Z.of_nat (S i)) with (a + 1 + Z.of_nat i) by lia. by apply IH.
Qed.

(** [copy_bytes dst src n] makes the [n] bytes at [dst] equal to what
    the [n] bytes at [src] were, and changes no other byte, no block and no
    log entry. *)
Lemma copy_bytes_spec (dst src n : Z) (w : World) :
  (forall i, 0 <= i < n ->
     load_byte (mem (copy_bytes dst src n w)) (dst + i) = load_byte (mem w) (src + i)) /\
  (forall x, x < dst \/ dst + Z.max 0 n <= x ->
     load_byte (mem (copy_bytes dst src n w)) x = load_byte (mem w) x) /\
  live (copy_bytes dst src n w) = live w /\
  oracle (copy_bytes dst src n w) = oracle w /\
  trace (copy_bytes dst src n w) = trace w.
Proof.
  unfold copy_bytes, set_mem. cbn [mem live oracle trace]. repeat split.
  - intros i Hi. replace i with (Z.of_nat (Z.to_nat i)) by lia.
    erewrite write_list_in; [reflexivity|]. apply read_list_lookup. lia.
  - intros x Hx. apply write_list_out. rewrite read_list_length. lia.
Qed.

(** A [memcpy] between two non-null pointers whose ranges are apart is
    that copy; any other [memcpy] faults. *)
Lemma memcpy_ok (dst src n : Z) (w : World) :
  dst ≠ NULL -> src ≠ NULL -> (dst + n <= src \/ src + n <= dst) ->
  memcpy dst src n w = Ret (copy_bytes dst src n w).
Proof.
  intros Hd Hs Hapart. unfold memcpy, ranges_overlap.
  destruct (Z.eqb_spec dst NULL) as [|_]; [done|].
  destruct (Z.eqb_spec src NULL) as [|_]; [done|].
  destruct (Z.ltb_spec 0 n); [|done].
  destruct (Z.ltb_spec dst (src + n)); [|done].
  destruct (Z.ltb_spec src (dst + n)); [|done]. lia.
Qed.

Lemma memcpy_ret (dst src n : Z) (w w' : World) :
  memcpy dst src n w = Ret w' -> w' = copy_bytes dst src n w.
Proof. unfold memcpy. destruct (_ || _)%bool; [done|]. by intros [= <-]. Qed.

(** ** Tensors *)

Lemma tensor_create_eq (r : ADeadRuntime) (vt : ADeadBackendVTable) (t0 : ADeadTensor)
  (shape : list Z) (ndim dtype : Z) (w : World) :
  rt_backend_vtable r = Some vt ->
  1 <= ndim <= ADEAD_MAX_DIMS -> ndim <= Z.of_nat (length shape) ->
  adead_tensor_create (Some r) (Some t0) (Some shape) ndim dtype w =
    let size_bytes := computed_size_bytes shape ndim dtype in
    let aw := vt_alloc vt (rt_backend_ctx r) size_bytes
                (log_call (CallAlloc (rt_backend_ctx r) size_bytes) w) in
    Ret (if fst aw =? NULL then ADEAD_ERROR_OUT_OF_MEMORY else ADEAD_OK,
         Some (mkTensor (fst aw) (computed_shape shape ndim)
                 (computed_strides shape ndim dtype) ndim dtype
                 (rt_active_backend r) size_bytes),
         snd aw).
Proof.
  intros Hvt Hn Hlen. unfold adead_tensor_create, ADEAD_MAX_DIMS in *.
  destruct (Z.eqb_spec ndim 0) as [|_]; [lia|].
  destruct (Z.gtb_spec ndim 8) as [|_]; [lia|].
  destruct (Z.ltb_spec (Z.of_nat (length shape)) ndim) as [|_]; [lia|].
  cbn [orb]. rewrite Hvt.
  unfold computed_size_bytes, computed_numel, computed_shape, computed_strides.
  cbn [t_shape t_strides zero_tensor].
  destruct (for_loop _ _ _ _) as [shape' numel]. cbn [fst snd]. cbv zeta.
  destruct (vt_alloc _ _ _ _) as [data w1]. cbn [fst snd].
  destruct (data =? NULL); reflexivity.
Qed.

Lemma array_get_set_eq (arr : list Z) (i v : Z) :
  0 <= i < Z.of_nat (length arr) -> array_get (array_set arr i v) i = v.
Proof.
  intros H. unfold array_get, array_set.
  rewrite list_lookup_insert_eq by lia. done.
Qed.

Lemma array_get_set_ne (arr : list Z) (i j v : Z) :
  0 <= i -> 0 <= j -> i ≠ j -> array_get (array_set arr i v) j = array_get arr j.
Proof.
  intros Hi Hj H. unfold array_get, array_set.
  rewrite list_lookup_insert_ne by lia. done.
Qed.

Lemma array_set_length (arr : list Z) (i v : Z) :
  length (array_set arr i v) = length arr.
Proof. unfold array_set. apply length_insert. Qed.

Lemma i32_u32_small (z : Z) : - 2 ^ 31 <= z < 2 ^ 31 -> i32 (u32 z) = z.
Proof.
  intros H. unfold i32, u32.
  rewrite Zplus_mod_idemp_l. rewrite Z.mod_small by lia. lia.
Qed.

(** The stride loop, run from index [n - 1] down to 0 on an array [s]:
    every index it visits ends up holding the [u64] product of its right
    neighbour and the neighbour's extent; the other entries are those of
    [s]. *)
Lemma stride_loop_spec (shape : list Z) (n : nat) (s : list Z) :
  Z.of_nat n < Z.of_nat (length s) ->
  let r := for_down n (Z.of_nat n - 1) (stride_step shape) s in
  length r = length s /\
  (forall i, 0 <= i < Z.of_nat n ->
     array_get r i = u64 (array_get r (i + 1) * array_get shape (i + 1))) /\
  (forall i, Z.of_nat n <= i -> array_get r i = array_get s i).
Proof.
  revert s. induction n as [|n IH]; intros s Hlen; cbv zeta.
  - cbn [for_down]. split; [done|]. split; [intros; lia|done].
  - cbn [for_down].
    replace (Z.of_nat (S n) - 1) with (Z.of_nat n) by lia.
    set (s' := stride_step shape (Z.of_nat n) s).
    assert (Hs' : length s' = length s) by apply array_set_length.
    destruct (IH s') as (Hl & Hin & Hout); [lia|].
    split; [congruence|]. split.
    + intros i Hi. destruct (Z.eq_dec i (Z.of_nat n)) as [->|Hne].
      * rewrite !Hout by lia. subst s'. unfold stride_step.
        rewrite array_get_set_eq by lia.
        rewrite array_get_set_ne by lia. done.
      * apply Hin. lia.
    + intros i Hi. rewrite Hout by lia. subst s'. unfold stride_step.
      apply array_get_set_ne; lia.
Qed.

(** The strides [adead_tensor_create] computes: the element size in the
    last dimension, and in each other dimension the [u64] product of the
    next stride and the next extent. *)
Lemma computed_strides_row_major (shape : list Z) (ndim dtype : Z) :
  1 <= ndim <= 8 ->
  array_get (computed_strides shape ndim dtype) (ndim - 1) = adead_dtype_size dtype /\
  forall i, 0 <= i < ndim - 1 ->
    array_get (computed_strides shape ndim dtype) i =
      u64 (array_get (computed_strides shape ndim dtype) (i + 1) * array_get shape (i + 1)).
Proof.
  intros Hn. unfold computed_strides.
  rewrite i32_u32_small by lia.
  set (s0 := array_set (replicate 8 0) (ndim - 1) (adead_dtype_size dtype)).
  assert (Hlen : length s0 = 8%nat) by (subst s0; rewrite array_set_length; done).
  pose proof (stride_loop_spec shape (Z.to_nat (ndim - 2 + 1)) s0) as H.
  replace (Z.of_nat (Z.to_nat (ndim - 2 + 1)) - 1) with (ndim - 2) in H by lia.
  destruct H as (_ & Hin & Hout); [lia|].
  split.
  - rewrite Hout by lia. subst s0. apply array_get_set_eq.
    rewrite length_replicate. lia.
  - intros i Hi. apply Hin. lia.
Qed.

(** The shape loop, run on indices [start .. start + n - 1]: it copies
    these extents, leaves the other entries, and multiplies the running
    count by each extent in turn. *)
Lemma shape_loop_spec (shape : list Z) (n : nat) (start : Z) (l : list Z) (acc : Z) :
  0 <= start -> start + Z.of_nat n <= Z.of_nat (length l) ->
  let r := for_loop n start (copy_shape shape) (l, acc) in
  length (fst r) = length l /\
  (forall i, start <= i < start + Z.of_nat n -> array_get (fst r) i = array_get shape i) /\
  (forall i, 0 <= i < start \/ start + Z.of_nat n <= i -> array_get (fst r) i = array_get l i).
Proof.
  revert start l acc. induction n as [|n IH]; intros start l acc Hs Hlen; cbv zeta.
  - cbn [for_loop fst]. split; [done|]. split; [intros; lia|done].
  - cbn [for_loop]. unfold copy_shape at 2 4 6. cbn [fst snd].
    set (l' := array_set l start (array_get shape start)).
    assert (Hl' : length l' = length l) by apply array_set_length.
    destruct (IH (start + 1) l' (u64 (acc * array_get shape start))) as (Hl & Hin & Hout);
      [lia..|].
    split; [congruence|]. split.
    + intros i Hi. destruct (Z.eq_dec i start) as [->|Hne].
      * rewrite Hout by lia. subst l'. apply array_get_set_eq. lia.
      * apply Hin. lia.
    + intros i Hi. rewrite Hout by lia. subst l'. apply array_get_set_ne; lia.
Qed.

Lemma computed_shape_prefix (shape : list Z) (ndim : Z) :
  1 <= ndim <= 8 ->
  forall i, 0 <= i < ndim -> array_get (computed_shape shape ndim) i = array_get shape i.
Proof.
  intros Hn i Hi. unfold computed_shape.
  destruct (shape_loop_spec shape (Z.to_nat ndim) 0 (replicate 8 0) 1) as (_ & Hin & _);
    [lia|rewrite length_replicate; lia|].
  apply Hin. lia.
Qed.

Lemma tensor_create_ok_inv (rt : option ADeadRuntime) (tensor : option ADeadTensor)
  (shape : option (list Z)) (ndim dtype : Z) (w w' : World) (t : ADeadTensor) :
  0 <= ndim ->
  adead_tensor_create rt tensor shape ndim dtype w = Ret (ADEAD_OK, Some t, w') ->
  exists sh data,
    shape = Some sh /\ 1 <= ndim <= 8 /\ ndim <= Z.of_nat (length sh) /\ data ≠ NULL /\
    t = mkTensor data (computed_shape sh ndim) (computed_strides sh ndim dtype) ndim dtype
          (adead_get_backend rt) (computed_size_bytes sh ndim dtype).
Proof.
  intros Hpos.
  destruct rt as [r|], tensor as [t0|], shape as [sh|]; try discriminate.
  intros H.
  assert (Hg : 1 <= ndim <= 8 /\ ndim <= Z.of_nat (length sh) /\
               exists vt, rt_backend_vtable r = Some vt).
  { revert H. unfold adead_tensor_create, ADEAD_MAX_DIMS.
    destruct (Z.eqb_spec ndim 0); [discriminate|].
    destruct (Z.gtb_spec ndim 8); [discriminate|]. cbn [orb].
    destruct (Z.ltb_spec (Z.of_nat (length sh)) ndim); [discriminate|].
    destruct (rt_backend_vtable r) as [vt|]; [|destruct (for_loop _ _ _ _); discriminate].
    intros _. split; [lia|]. split; [lia|]. by exists vt. }
  destruct Hg as (Hn & Hlen & vt & Hvt).
  rewrite (tensor_create_eq r vt t0 sh ndim dtype w Hvt) in H by (unfold ADEAD_MAX_DIMS; lia).
  cbv zeta in H. destruct (vt_alloc _ _ _ _) as [data w1]. cbn [fst snd] in H.
  destruct (Z.eqb_spec data NULL) as [|Hd]; [discriminate|].
  injection H as <- <-. exists sh, data. repeat split; try done; lia.
Qed.

(** C9, the claim as it stands, fails: the products are taken in 64 bits.
    For the shape [[1, 2^62+1, 8]] and a 4-byte dtype the creation succeeds
    (8 elements after the wrap, 32 bytes) with the strides 32, 32 and 4, and
    32 is not [32 * (2^62+1)]. *)
Lemma tensor_create_row_major_counterexample :
  exists t w',
    adead_tensor_create (Some cpu_runtime) (Some zero_tensor) (Some [1; 2 ^ 62 + 1; 8]) 3 0
      (world_with [8192]) = Ret (ADEAD_OK, Some t, w') /\
    t_strides t = [32; 32; 4; 0; 0; 0; 0; 0] /\
    ~ row_major_as_specified t.
Proof.
  eexists _, _. split; [vm_compute; reflexivity|]. split; [reflexivity|].
  intros [_ H]. assert (H0 : 0 <= 0 < 3 - 1) by lia.
  specialize (H 0 H0). vm_compute in H. discriminate H.
Qed.

(** C9, as amended.  The descriptor of a successfully created tensor has
    between 1 and 8 dimensions, the stride of the last dimension is the
    element size of the dtype, and the stride of every other dimension [i]
    is the product of the next stride and the next extent whenever that
    product is below [2 ^ 64]; when every such product is, the layout is
    the contiguous row-major one of the specification.  Shape [[2,3,4]]
    gives 24 elements, and shape [[2,3]] with a 4-byte dtype gives strides
    12 and 4. *)
Theorem tensor_create_row_major (rt : option ADeadRuntime) (tensor : option ADeadTensor)
  (shape : option (list Z)) (ndim dtype : Z) (w w' : World) (t : ADeadTensor) :
  0 <= ndim ->
  adead_tensor_create rt tensor shape ndim dtype w = Ret (ADEAD_OK, Some t, w') ->
  1 <= t_ndim t <= 8 /\
  array_get (t_strides t) (t_ndim t - 1) = adead_dtype_size (t_dtype t) /\
  (forall i, 0 <= i < t_ndim t - 1 ->
     0 <= array_get (t_strides t) (i + 1) * array_get (t_shape t) (i + 1) < 2 ^ 64 ->
     array_get (t_strides t) i =
       array_get (t_strides t) (i + 1) * array_get (t_shape t) (i + 1)) /\
  ((forall i, 0 <= i < t_ndim t - 1 ->
      0 <= array_get (t_strides t) (i + 1) * array_get (t_shape t) (i + 1) < 2 ^ 64) ->
   row_major_as_specified t) /\
  (shape = Some [2; 3; 4] -> ndim = 3 -> adead_tensor_numel t = 24) /\
  (shape = Some [2; 3] -> ndim = 2 -> adead_dtype_size dtype = 4 ->
   t_strides t = [12; 4; 0; 0; 0; 0; 0; 0]).
Proof.
  intros Hpos H.
  destruct (tensor_create_ok_inv _ _ _ _ _ _ _ _ Hpos H)
    as (sh & data & -> & Hn & Hlen & Hd & ->).
  cbn [t_ndim t_strides t_shape t_dtype].
  destruct (computed_strides_row_major sh ndim dtype Hn) as (Hlast & Hstep).
  assert (Hexact : forall i, 0 <= i < ndim - 1 ->
            0 <= array_get (computed_strides sh ndim dtype) (i + 1) *
                 array_get (computed_shape sh ndim) (i + 1) < 2 ^ 64 ->
            array_get (computed_strides sh ndim dtype) i =
              array_get (computed_strides sh ndim dtype) (i + 1) *
              array_get (computed_shape sh ndim) (i + 1)).
  { intros i Hi Hfit.
    assert (E : array_get (computed_strides sh ndim dtype) i =
                u64 (array_get (computed_strides sh ndim dtype) (i + 1) *
                     array_get (computed_shape sh ndim) (i + 1))).
    { rewrite computed_shape_prefix by lia. apply Hstep. lia. }
    rewrite E. unfold u64. apply Z.mod_small. done. }
  split; [done|]. split; [done|]. split; [exact Hexact|]. split; [|split].
  - intros Hall. unfold row_major_as_specified. cbn [t_ndim t_strides t_shape t_dtype].
    split; [done|]. intros i Hi. apply Hexact; [done|]. by apply Hall.
  - intros [= ->] ->. reflexivity.
  - intros [= ->] -> He. unfold computed_strides. rewrite He. reflexivity.
Qed.

(** ** Operations and copies *)

(** C2, the claim as it stands, fails: with the CPU backend and a
    [malloc] that has nothing to give, creating a 2 x 3 [f32] tensor returns
    out-of-memory with [ndim = 2] (and the shape, the strides and the size)
    in the descriptor. *)
Lemma create_failure_counterexample :
  ~ create_failure_as_specified cpu_runtime (cpu_vtable idle_kernels) zero_tensor
      [2; 3] 2 0 (world_with []).
Proof.
  unfold create_failure_as_specified. intros H.
  destruct H as [w' H]; [reflexivity|unfold ADEAD_MAX_DIMS; lia|simpl; lia|reflexivity|].
  vm_compute in H. discriminate H.
Qed.

(** C2, as amended.  When the backend of the context returns no memory
    for the [numel * elem_size] bytes of a valid request,
    [adead_tensor_create] returns [ADEAD_ERROR_OUT_OF_MEMORY] and the
    descriptor has a null data handle; its other fields are not zeroed:
    they hold the shape, the strides, [ndim], the dtype, the device and the
    byte size computed for the request. *)
Theorem tensor_create_out_of_memory (r : ADeadRuntime) (vt : ADeadBackendVTable)
  (t0 : ADeadTensor) (shape : list Z) (ndim dtype : Z) (w : World) :
  rt_backend_vtable r = Some vt ->
  1 <= ndim <= ADEAD_MAX_DIMS -> ndim <= Z.of_nat (length shape) ->
  fst (vt_alloc vt (rt_backend_ctx r) (computed_size_bytes shape ndim dtype)
         (log_call (CallAlloc (rt_backend_ctx r) (computed_size_bytes shape ndim dtype)) w))
    = NULL ->
  exists t w',
    adead_tensor_create (Some r) (Some t0) (Some shape) ndim dtype w =
      Ret (ADEAD_ERROR_OUT_OF_MEMORY, Some t, w') /\
    t_data t = NULL /\
    t_ndim t = ndim /\ t_dtype t = dtype /\ t_device t = rt_active_backend r /\
    t_size_bytes t = computed_size_bytes shape ndim dtype /\
    t_shape t = computed_shape shape ndim /\
    t_strides t = computed_strides shape ndim dtype /\
    (forall i, 0 <= i < ndim -> array_get (t_shape t) i = array_get shape i) /\
    array_get (t_strides t) (ndim - 1) = adead_dtype_size dtype /\
    t ≠ zero_tensor.
Proof.
  intros Hvt Hn Hlen Hfail.
  rewrite (tensor_create_eq r vt t0 shape ndim dtype w Hvt Hn Hlen). cbv zeta.
  rewrite Hfail. change (NULL =? NULL) with true. cbv iota.
  eexists _, _. split; [reflexivity|]. cbn [t_data t_ndim t_dtype t_device t_size_bytes
    t_shape t_strides]. unfold ADEAD_MAX_DIMS in Hn.
  repeat split.
  - intros i Hi. by apply computed_shape_prefix.
  - by apply computed_strides_row_major.
  - intros E. apply (f_equal t_ndim) in E. cbn in E. lia.
Qed.

(** C1, the claim as it stands, fails: on a context that carries the CPU
    table and is not marked initialized, [adead_matmul] calls the backend
    and returns [ADEAD_OK]. *)
Lemma operations_check_context_counterexample :
  ~ operations_check_context_as_specified uninitialized_cpu_runtime.
Proof.
  intros H.
  destruct (H (or_introl eq_refl) (tensor_2x2 4096) (tensor_2x2 8192) (tensor_2x2 12288)
              [2; 2] 2 0 4096 16 (world_with [])) as (Hm & _).
  discriminate Hm.
Qed.

(** C1, as amended.  Each public operation tests its pointer arguments
    (and [adead_tensor_create] the dimension count): when the context, a
    tensor, the shape or the host buffer is null, or [ndim] is 0 or above 8,
    it returns [ADEAD_ERROR_INVALID_PARAM] and the heap, log of backend calls
    included, is unchanged.  It does not test [initialized]: on a context
    that holds a backend table, whatever the flag, each of the four numeric
    operations and of the two copies makes exactly its call to the backend,
    with the arguments read from the descriptors (the copies with the byte
    count clamped to [size_bytes]), and returns [ADEAD_OK] when that call
    returns. *)
Theorem operations_validate_pointers (rt : option ADeadRuntime)
  (a b c : option ADeadTensor) (shape : option (list Z))
  (ndim dtype data size : Z) (w : World) :
  (rt = None \/ a = None \/ b = None \/ c = None ->
   adead_matmul rt a b c w = Ret (ADEAD_ERROR_INVALID_PARAM, w) /\
   adead_add rt a b c w = Ret (ADEAD_ERROR_INVALID_PARAM, w)) /\
  (rt = None \/ a = None \/ b = None ->
   adead_relu rt a b w = Ret (ADEAD_ERROR_INVALID_PARAM, w) /\
   adead_softmax rt a b w = Ret (ADEAD_ERROR_INVALID_PARAM, w)) /\
  (rt = None \/ a = None \/ data = NULL ->
   adead_tensor_copy_from rt a data size w = Ret (ADEAD_ERROR_INVALID_PARAM, w) /\
   adead_tensor_copy_to rt a data size w = Ret (ADEAD_ERROR_INVALID_PARAM, w)) /\
  (rt = None \/ a = None \/ shape = None \/ ndim = 0 \/ ndim > ADEAD_MAX_DIMS ->
   adead_tensor_create rt a shape ndim dtype w = Ret (ADEAD_ERROR_INVALID_PARAM, a, w)) /\
  (forall r vt ta tb tc,
     rt = Some r -> rt_backend_vtable r = Some vt ->
     a = Some ta -> b = Some tb -> c = Some tc ->
     let ctx := rt_backend_ctx r in
     (let m := i32 (array_get (t_shape ta) 0) in
      let k := i32 (array_get (t_shape ta) 1) in
      let n := i32 (array_get (t_shape tb) 1) in
      adead_matmul rt a b c w =
        ok_after
          (vt_matmul vt ctx (t_data ta) (t_data tb) (t_data tc) m n k
             (log_call (CallMatmul ctx (t_data ta) (t_data tb) (t_data tc) m n k) w))) /\
     (let n := i32 (adead_tensor_numel ta) in
      adead_add rt a b c w =
        ok_after
          (vt_add vt ctx (t_data ta) (t_data tb) (t_data tc) n
             (log_call (CallAdd ctx (t_data ta) (t_data tb) (t_data tc) n) w)) /\
      adead_relu rt a b w =
        ok_after
          (vt_relu vt ctx (t_data ta) (t_data tb) n
             (log_call (CallRelu ctx (t_data ta) (t_data tb) n) w))) /\
     (let rows := i32 (array_get (t_shape ta) 0) in
      let cols := i32 (array_get (t_shape ta) 1) in
      adead_softmax rt a b w =
        ok_after
          (vt_softmax vt ctx (t_data ta) (t_data tb) rows cols
             (log_call (CallSoftmax ctx (t_data ta) (t_data tb) rows cols) w))) /\
     (data ≠ NULL ->
      let n := if size >? t_size_bytes ta then t_size_bytes ta else size in
      adead_tensor_copy_from rt a data size w =
        ok_after
          (vt_copy_h2d vt ctx (t_data ta) data n
             (log_call (CallCopyH2D ctx (t_data ta) data n) w)) /\
      adead_tensor_copy_to rt a data size w =
        ok_after
          (vt_copy_d2h vt ctx data (t_data ta) n
             (log_call (CallCopyD2H ctx data (t_data ta) n) w)))) /\
  (forall (call : exec World) (w' : World),
     call = Ret w' -> ok_after call = Ret (ADEAD_OK, w')).
Proof.
  split; [|split; [|split; [|split; [|split]]]].
  - intros H. destruct rt, a, b, c; try done; destruct H as [?|[?|[?|?]]]; done.
  - intros H. destruct rt, a, b; try done; destruct H as [?|[?|?]]; done.
  - intros H. unfold adead_tensor_copy_from, adead_tensor_copy_to.
    destruct rt, a; try done. destruct H as [?|[?| ->]]; done.
  - intros H. unfold adead_tensor_create.
    destruct rt, a, shape; try done.
    destruct H as [?|[?|[?|[-> |H]]]]; try done.
    destruct (Z.gtb_spec ndim ADEAD_MAX_DIMS); [|lia]. by rewrite orb_true_r.
  - intros r vt ta tb tc -> Hvt -> -> ->. cbv zeta.
    unfold adead_matmul, adead_add, adead_relu, adead_softmax,
      adead_tensor_copy_from, adead_tensor_copy_to. rewrite Hvt.
    split; [reflexivity|]. split; [split; reflexivity|]. split; [reflexivity|].
    intros Hd. destruct (Z.eqb_spec data NULL) as [|_]; [done|]. split; reflexivity.
  - intros call w' ->. reflexivity.
Qed.

(** C8.  On a context that holds a backend table, a copy into or out of
    a tensor with a non-null host buffer asks the backend for
    [min(size, size_bytes)] bytes: [size_bytes] when the caller's count is
    larger, the caller's count otherwise.  With the CPU backend, a created
    tensor (one that holds data) and a host buffer apart from the tensor's
    data, as [memcpy] wants, both copies return [ADEAD_OK] after that one
    call and exactly that many bytes move: the bytes of the destination
    become those of the source, and every byte outside the destination range
    keeps its value. *)
Theorem tensor_copy_clamps (r : ADeadRuntime) (vt : ADeadBackendVTable) (t : ADeadTensor)
  (data size : Z) (w : World) :
  rt_backend_vtable r = Some vt -> data ≠ NULL -> t_data t ≠ NULL ->
  let n := if size >? t_size_bytes t then t_size_bytes t else size in
  let ctx := rt_backend_ctx r in
  (size > t_size_bytes t -> n = t_size_bytes t) /\
  (size <= t_size_bytes t -> n = size) /\
  adead_tensor_copy_from (Some r) (Some t) data size w =
    ok_after
      (vt_copy_h2d vt ctx (t_data t) data n (log_call (CallCopyH2D ctx (t_data t) data n) w)) /\
  adead_tensor_copy_to (Some r) (Some t) data size w =
    ok_after
      (vt_copy_d2h vt ctx data (t_data t) n (log_call (CallCopyD2H ctx data (t_data t) n) w)) /\
  (forall K, vt = cpu_vtable K ->
     data + n <= t_data t \/ t_data t + n <= data ->
     exists w1 w2,
       adead_tensor_copy_from (Some r) (Some t) data size w = Ret (ADEAD_OK, w1) /\
       adead_tensor_copy_to (Some r) (Some t) data size w = Ret (ADEAD_OK, w2) /\
       trace w1 = CallCopyH2D ctx (t_data t) data n :: trace w /\
       trace w2 = CallCopyD2H ctx data (t_data t) n :: trace w /\
       (forall i, 0 <= i < n ->
          load_byte (mem w1) (t_data t + i) = load_byte (mem w) (data + i) /\
          load_byte (mem w2) (data + i) = load_byte (mem w) (t_data t + i)) /\
       (forall x, x < t_data t \/ t_data t + Z.max 0 n <= x ->
          load_byte (mem w1) x = load_byte (mem w) x) /\
       (forall x, x < data \/ data + Z.max 0 n <= x ->
          load_byte (mem w2) x = load_byte (mem w) x)).
Proof.
  intros Hvt Hd Ht. cbv zeta.
  unfold adead_tensor_copy_from, adead_tensor_copy_to. rewrite Hvt.
  destruct (Z.eqb_spec data NULL) as [|_]; [done|].
  set (n := if size >? t_size_bytes t then t_size_bytes t else size).
  split; [|split; [|split; [|split]]]; try reflexivity.
  - subst n. destruct (Z.gtb_spec size (t_size_bytes t)); lia.
  - subst n. destruct (Z.gtb_spec size (t_size_bytes t)); lia.
  - intros K -> Hapart. cbn [vt_copy_h2d vt_copy_d2h cpu_vtable].
    unfold cpu_copy_h2d, cpu_copy_d2h.
    rewrite (memcpy_ok (t_data t) data n) by (done || lia).
    rewrite (memcpy_ok data (t_data t) n) by (done || lia).
    cbn [ok_after].
    eexists _, _. split; [reflexivity|]. split; [reflexivity|].
    destruct (copy_bytes_spec (t_data t) data n
                (log_call (CallCopyH2D (rt_backend_ctx r) (t_data t) data n) w))
      as (Hin1 & Hout1 & _ & _ & Ht1).
    destruct (copy_bytes_spec data (t_data t) n
                (log_call (CallCopyD2H (rt_backend_ctx r) data (t_data t) n) w))
      as (Hin2 & Hout2 & _ & _ & Ht2).
    cbn [log_call mem trace] in *. repeat split; auto.
Qed.

(** C10.  [adead_shutdown] on a context whose [initialized] flag is zero
    returns at once: the context and the heap are unchanged, so neither the
    backend's [shutdown] nor [free] was called.  On any other context it
    leaves the all-zero structure.  Hence a shutdown that follows a shutdown
    changes nothing. *)
Theorem shutdown_idempotent (rt : option ADeadRuntime) (w : World) :
  (forall r, rt = Some r -> rt_initialized r = 0 -> adead_shutdown rt w = (rt, w)) /\
  (forall r, rt = Some r -> rt_initialized r ≠ 0 ->
     fst (adead_shutdown rt w) = Some zero_runtime) /\
  adead_shutdown (fst (adead_shutdown rt w)) (snd (adead_shutdown rt w)) =
    adead_shutdown rt w.
Proof.
  split; [|split].
  - intros r -> H. unfold adead_shutdown. by rewrite H.
  - intros r -> H. unfold adead_shutdown.
    destruct (Z.eqb_spec (rt_initialized r) 0) as [|_]; [done|].
    by destruct (adead_memory_destroy _ _).
  - destruct rt as [r|]; [|done].
    destruct (Z.eq_dec (rt_initialized r) 0) as [E|E].
    + assert (H : adead_shutdown (Some r) w = (Some r, w))
        by (unfold adead_shutdown; by rewrite E).
      rewrite H. cbn [fst snd]. exact H.
    + assert (H : exists w2, adead_shutdown (Some r) w = (Some zero_runtime, w2)).
      { unfold adead_shutdown. destruct (Z.eqb_spec (rt_initialized r) 0) as [|_]; [done|].
        destruct (adead_memory_destroy _ _). eauto. }
      destruct H as [w2 ->]. reflexivity.
Qed.

(** ** The theorems at concrete inputs *)

Lemma pool_256_4_behaviour_witness :
  exists pool w,
    adead_pool_init (Some zero_pool) 256 4 (world_with [4096]) = (ADEAD_OK, Some pool, w) /\
    free_list_walk 5 w (pool_free_list pool) = [4864; 4608; 4352; 4096].
Proof.
  eexists _, _. split.
  - vm_compute. reflexivity.
  - refine (proj1 (proj2 (pool_256_4_behaviour zero_pool _ (world_with [4096]) _ _))).
    vm_compute. reflexivity.
Defined.

Lemma memory_scratch_counters_witness :
  let w0 := world_with [4096; 8192] in
  let pool := mkPool 8192 8448 256 2 0 in
  let mm := mkMemoryManager (mkArena 4096 0 1024 0) pool 0 0 0 0 in
  let mm1 := mkMemoryManager (mkArena 4096 100 1024 100) pool 100 0 1 0 in
  let mm2 := mkMemoryManager (mkArena 4096 312 1024 312) pool 300 0 2 0 in
  adead_memory_init (Some zero_memory_manager) 1024 512 w0 =
    (ADEAD_OK, Some mm, snd (adead_memory_init (Some zero_memory_manager) 1024 512 w0)) /\
  adead_memory_scratch (Some mm) 100 = (4096, Some mm1) /\
  adead_memory_scratch (Some mm1) 200 = (4208, Some mm2) /\
  mm_total_alloc mm2 = 300 /\ mm_alloc_count mm2 = 2.
Proof.
  intros w0 pool mm mm1 mm2.
  assert (H0 : adead_memory_init (Some zero_memory_manager) 1024 512 w0 =
                 (ADEAD_OK, Some mm, snd (adead_memory_init (Some zero_memory_manager) 1024 512 w0)))
    by (vm_compute; reflexivity).
  assert (H1 : adead_memory_scratch (Some mm) 100 = (4096, Some mm1)) by (vm_compute; reflexivity).
  assert (H2 : adead_memory_scratch (Some mm1) 200 = (4208, Some mm2)) by (vm_compute; reflexivity).
  assert (N1 : 4096 ≠ NULL) by (vm_compute; discriminate).
  assert (N2 : 4208 ≠ NULL) by (vm_compute; discriminate).
  split; [exact H0|]. split; [exact H1|]. split; [exact H2|].
  pose proof (memory_scratch_counters zero_memory_manager mm mm1 mm2 1024 512 4096 4208 w0 _
                H0 H1 N1 H2 N2) as H.
  exact (conj (proj1 H) (proj1 (proj2 H))).
Defined.

Lemma init_failure_releases_everything_witness :
  fst (fst (adead_memory_init (Some zero_memory_manager) 1024 1024 (world_with [4096])))
    = ADEAD_ERROR_OUT_OF_MEMORY /\
  live (snd (adead_memory_init (Some zero_memory_manager) 1024 1024 (world_with [4096]))) = [] /\
  fst (fst (adead_init idle_kernels (Some zero_runtime) ADEAD_BACKEND_CPU (world_with [4096])))
    = ADEAD_ERROR_OUT_OF_MEMORY /\
  live (snd (adead_init idle_kernels (Some zero_runtime) ADEAD_BACKEND_CPU (world_with [4096])))
    = [].
Proof.
  split; [vm_compute; reflexivity|]. split.
  - refine (proj1 (proj1 (init_failure_releases_everything idle_kernels
              (Some zero_memory_manager) 1024 1024 None 0 (world_with [4096])) _)).
    vm_compute. discriminate.
  - split; [vm_compute; reflexivity|].
    refine (proj1 (proj2 (init_failure_releases_everything idle_kernels
              None 0 0 (Some zero_runtime) ADEAD_BACKEND_CPU (world_with [4096])) _)).
    vm_compute. discriminate.
Defined.

Lemma gpu_request_runs_on_cpu_witness :
  let init := adead_init idle_kernels (Some zero_runtime) ADEAD_BACKEND_CUDA
                (world_with [4096; 2 ^ 30; 2 ^ 31]) in
  fst (fst init) = ADEAD_OK /\
  adead_get_backend (snd (fst init)) = ADEAD_BACKEND_CPU /\
  adead_get_backend_name (snd (fst init)) = "CPU"%string /\
  init = adead_init idle_kernels (Some zero_runtime) ADEAD_BACKEND_CPU
           (world_with [4096; 2 ^ 30; 2 ^ 31]).
Proof.
  cbv zeta.
  assert (H1 : 0 < 4096 /\ 4096 + 64 * 1024 * 1024 <= 2 ^ 64) by lia.
  assert (H2 : 0 < 2 ^ 30 /\ 2 ^ 30 + 16 * 1024 * 1024 <= 2 ^ 64) by lia.
  assert (H3 : 0 < 2 ^ 31 /\ 2 ^ 31 + 16 <= 2 ^ 64) by lia.
  destruct (gpu_request_runs_on_cpu idle_kernels (Some zero_runtime) ADEAD_BACKEND_CUDA
              (world_with [4096; 2 ^ 30; 2 ^ 31]) (or_introl eq_refl)) as (Heq & Hok & Hsucc).
  pose proof (Hsucc zero_runtime 4096 (2 ^ 30) (2 ^ 31) [] eq_refl eq_refl H1 H2 H3) as Hs.
  destruct (Hok Hs) as (r & Hr & _ & _ & Hb & Hn).
  split; [exact Hs|]. rewrite Hr. split; [exact Hb|]. split; [exact Hn|].
  exact Heq.
Defined.

Lemma tensor_create_row_major_witness :
  exists t w',
    adead_tensor_create (Some cpu_runtime) (Some zero_tensor) (Some [2; 3]) 2 0
      (world_with [8192]) = Ret (ADEAD_OK, Some t, w') /\
    t_strides t = [12; 4; 0; 0; 0; 0; 0; 0] /\
    array_get (t_strides t) 0 = array_get (t_strides t) 1 * array_get (t_shape t) 1.
Proof.
  assert (H : exists t w',
             adead_tensor_create (Some cpu_runtime) (Some zero_tensor) (Some [2; 3]) 2 0
               (world_with [8192]) = Ret (ADEAD_OK, Some t, w'))
    by (eexists _, _; vm_compute; reflexivity).
  destruct H as (t & w' & H). exists t, w'. split; [exact H|].
  assert (Hpos : 0 <= 2) by lia.
  destruct (tensor_create_row_major (Some cpu_runtime) (Some zero_tensor) (Some [2; 3]) 2 0
              (world_with [8192]) w' t Hpos H) as (_ & _ & Hstep & _ & _ & Hex).
  assert (Hs : t_strides t = [12; 4; 0; 0; 0; 0; 0; 0]) by (apply Hex; reflexivity).
  split; [exact Hs|].
  assert (Ht : t_ndim t = 2 /\ array_get (t_shape t) 1 = 3).
  { revert H. vm_compute. intros [= <- _]. split; reflexivity. }
  destruct Ht as (Hnd & Hsh).
  apply (Hstep 0).
  - rewrite Hnd. lia.
  - change (0 + 1) with 1. rewrite Hs, Hsh. vm_compute. split; discriminate || reflexivity.
Defined.

Lemma tensor_create_out_of_memory_witness :
  exists t w',
    adead_tensor_create (Some cpu_runtime) (Some zero_tensor) (Some [2; 3]) 2 0 (world_with [])
      = Ret (ADEAD_ERROR_OUT_OF_MEMORY, Some t, w') /\
    t_data t = NULL /\ t_ndim t = 2.
Proof.
  destruct (tensor_create_out_of_memory cpu_runtime (cpu_vtable idle_kernels) zero_tensor
              [2; 3] 2 0 (world_with [])) as (t & w' & H & Hd & Hn & _).
  - reflexivity.
  - vm_compute. split; discriminate.
  - vm_compute. discriminate.
  - reflexivity.
  - exists t, w'. split; [exact H|]. split; [exact Hd|exact Hn].
Defined.

Lemma operations_validate_pointers_witness :
  adead_matmul None (Some (tensor_2x2 4096)) (Some (tensor_2x2 8192)) (Some (tensor_2x2 12288))
    (world_with []) = Ret (ADEAD_ERROR_INVALID_PARAM, world_with []) /\
  (exists w',
     adead_relu (Some uninitialized_cpu_runtime) (Some (tensor_2x2 4096))
       (Some (tensor_2x2 8192)) (world_with []) = Ret (ADEAD_OK, w') /\
     trace w' = [CallRelu NULL 4096 8192 4]) /\
  (exists w',
     adead_tensor_copy_from (Some uninitialized_cpu_runtime) (Some (tensor_2x2 4096))
       8192 100 host_world = Ret (ADEAD_OK, w') /\
     trace w' = [CallCopyH2D NULL 4096 8192 16] /\
     load_byte (mem w') (4096 + 3) = 4).
Proof.
  split; [|split].
  - exact (proj1 (proj1 (operations_validate_pointers None (Some (tensor_2x2 4096))
             (Some (tensor_2x2 8192)) (Some (tensor_2x2 12288)) None 0 0 0 0 (world_with []))
             (or_introl eq_refl))).
  - destruct (operations_validate_pointers (Some uninitialized_cpu_runtime)
                (Some (tensor_2x2 4096)) (Some (tensor_2x2 8192)) (Some (tensor_2x2 12288))
                None 0 0 0 0 (world_with [])) as (_ & _ & _ & _ & H & _).
    destruct (H uninitialized_cpu_runtime (cpu_vtable idle_kernels)
                (tensor_2x2 4096) (tensor_2x2 8192) (tensor_2x2 12288)
                eq_refl eq_refl eq_refl eq_refl eq_refl) as (_ & (_ & Hrelu) & _).
    eexists. split; [exact Hrelu|reflexivity].
  - destruct (operations_validate_pointers (Some uninitialized_cpu_runtime)
                (Some (tensor_2x2 4096)) (Some (tensor_2x2 8192)) (Some (tensor_2x2 12288))
                None 0 0 8192 100 host_world) as (_ & _ & _ & _ & H & _).
    destruct (H uninitialized_cpu_runtime (cpu_vtable idle_kernels)
                (tensor_2x2 4096) (tensor_2x2 8192) (tensor_2x2 12288)
                eq_refl eq_refl eq_refl eq_refl eq_refl) as (_ & _ & _ & Hcopy).
    assert (Hd : 8192 ≠ NULL) by (vm_compute; discriminate).
    destruct (Hcopy Hd) as (Hfrom & _).
    eexists. split; [exact Hfrom|]. split; [reflexivity|]. vm_compute. reflexivity.
Defined.

Lemma tensor_copy_clamps_witness :
  exists w1,
    adead_tensor_copy_from (Some cpu_runtime) (Some (tensor_2x2 4096)) 8192 100 host_world =
      Ret (ADEAD_OK, w1) /\
    trace w1 = [CallCopyH2D 4096 4096 8192 16] /\
    load_byte (mem w1) (4096 + 3) = load_byte (mem host_world) (8192 + 3) /\
    load_byte (mem host_world) (8192 + 3) = 4 /\
    load_byte (mem host_world) (4096 + 3) = 0.
Proof.
  assert (Hd : 8192 ≠ NULL) by (vm_compute; discriminate).
  assert (Ht : t_data (tensor_2x2 4096) ≠ NULL) by (vm_compute; discriminate).
  destruct (tensor_copy_clamps cpu_runtime (cpu_vtable idle_kernels) (tensor_2x2 4096)
              8192 100 host_world eq_refl Hd Ht) as (_ & _ & _ & _ & Hcpu).
  assert (Hapart : 8192 + 16 <= 4096 \/ 4096 + 16 <= 8192) by lia.
  destruct (Hcpu idle_kernels eq_refl Hapart) as (w1 & w2 & H1 & _ & Ht1 & _ & Hb & _).
  assert (H3 : 0 <= 3 < 16) by (vm_compute; split; discriminate || reflexivity).
  exists w1. split; [exact H1|]. split; [exact Ht1|].
  split; [exact (proj1 (Hb 3 H3))|]. split; reflexivity.
Defined.

Lemma shutdown_idempotent_witness :
  rt_initialized uninitialized_cpu_runtime = 0 /\
  adead_shutdown (Some uninitialized_cpu_runtime) (world_with [4096]) =
    (Some uninitialized_cpu_runtime, world_with [4096]).
Proof.
  split; [reflexivity|].
  exact (proj1 (shutdown_idempotent (Some uninitialized_cpu_runtime) (world_with [4096]))
           uninitialized_cpu_runtime eq_refl eq_refl).
Defined.

(** * Further properties of the allocators and of the runtime *)

(** ** Alignment *)

Lemma usize_small (z : Z) : 0 <= z < 2 ^ 64 -> usize z = z.
Proof. intros H. unfold usize. by apply Z.mod_small. Qed.

Lemma pow2_lt_64 (k : Z) : 0 <= k < 64 -> 0 < 2 ^ k < 2 ^ 64.
Proof.
  intros H. split; [apply Z.pow_pos_nonneg; lia|].
  apply Z.pow_lt_mono_r; lia.
Qed.

(** For a power of two, the mask of [adead_align_up] clears the low bits:
    the result is the input rounded up to a multiple. *)
Lemma align_up_pow2 (size k : Z) :
  0 <= k < 64 -> 0 <= size -> size + 2 ^ k - 1 < 2 ^ 64 ->
  adead_align_up size (2 ^ k) = (size + 2 ^ k - 1) / 2 ^ k * 2 ^ k.
Proof.
  intros Hk Hs Hfit. pose proof (pow2_lt_64 k Hk) as Hp.
  unfold adead_align_up.
  rewrite (usize_small (size + 2 ^ k - 1)) by lia.
  rewrite (usize_small (2 ^ k - 1)) by lia.
  replace (2 ^ k - 1) with (Z.ones k) by (rewrite Z.ones_equiv; lia).
  unfold usize at 1. rewrite <- Z.land_ones by lia.
  rewrite (Z.land_comm (Z.lnot (Z.ones k))), Z.land_assoc.
  rewrite Z.land_ones by lia. rewrite Z.mod_small by lia.
  rewrite <- Z.ldiff_land, Z.ldiff_ones_r by lia.
  rewrite Z.shiftl_mul_pow2, Z.shiftr_div_pow2 by lia.
  reflexivity.
Qed.

(** X1.  With a power-of-two alignment and no overflow of [usize],
    [adead_align_up] returns the least multiple of the alignment that is not
    below its argument. *)
Theorem align_up_least_multiple (size k : Z) :
  0 <= k < 64 -> 0 <= size -> size + 2 ^ k - 1 < 2 ^ 64 ->
  adead_align_up size (2 ^ k) mod 2 ^ k = 0 /\
  size <= adead_align_up size (2 ^ k) < size + 2 ^ k /\
  (forall m, size <= m -> m mod 2 ^ k = 0 -> adead_align_up size (2 ^ k) <= m).
Proof.
  intros Hk Hs Hfit. pose proof (pow2_lt_64 k Hk) as Hp.
  rewrite align_up_pow2 by done.
  set (a := 2 ^ k) in *. set (x := size + a - 1).
  pose proof (Z.div_mod x a ltac:(lia)) as Hdm.
  pose proof (Z.mod_pos_bound x a ltac:(lia)) as Hmod.
  split; [apply Z.mod_mul; lia|]. split; [subst x; lia|].
  intros m Hm Hmm.
  apply Z.mod_divide in Hmm; [|lia]. destruct Hmm as [q ->].
  assert (Hq : x / a < q + 1) by (apply Z.div_lt_upper_bound; subst x; lia).
  apply Z.mul_le_mono_nonneg_r; lia.
Qed.

Lemma align_up_least_multiple_witness :
  adead_align_up 100 (2 ^ 4) mod 2 ^ 4 = 0 /\
  100 <= adead_align_up 100 (2 ^ 4) < 100 + 2 ^ 4.
Proof.
  refine (let H := align_up_least_multiple 100 4 _ _ _ in conj (proj1 H) (proj1 (proj2 H)));
    vm_compute; (split; discriminate || reflexivity) || discriminate || reflexivity.
Defined.

(** X2.  With a power-of-two alignment, [adead_is_aligned] holds exactly
    of the addresses that are multiples of the alignment; in particular it
    holds of every result of [adead_align_up]. *)
Theorem is_aligned_iff_multiple (ptr k : Z) :
  0 <= k < 64 -> 0 <= ptr < 2 ^ 64 ->
  (adead_is_aligned ptr (2 ^ k) = true <-> ptr mod 2 ^ k = 0) /\
  (ptr + 2 ^ k - 1 < 2 ^ 64 ->
   adead_is_aligned (adead_align_up ptr (2 ^ k)) (2 ^ k) = true).
Proof.
  intros Hk Hp. pose proof (pow2_lt_64 k Hk) as Hpow.
  assert (E : forall p, 0 <= p < 2 ^ 64 ->
            (adead_is_aligned p (2 ^ k) = true <-> p mod 2 ^ k = 0)).
  { intros p Hpr. unfold adead_is_aligned.
    rewrite (usize_small p) by lia. rewrite (usize_small (2 ^ k - 1)) by lia.
    replace (2 ^ k - 1) with (Z.ones k) by (rewrite Z.ones_equiv; lia).
    rewrite Z.land_ones by lia. apply Z.eqb_eq. }
  split; [by apply E|].
  intros Hfit.
  destruct (align_up_least_multiple ptr k Hk ltac:(lia) Hfit) as (Hm & Hr & _).
  apply E; [lia|done].
Qed.

Lemma is_aligned_iff_multiple_witness :
  adead_is_aligned 4096 (2 ^ 4) = true <-> 4096 mod 2 ^ 4 = 0.
Proof.
  refine (proj1 (is_aligned_iff_multiple 4096 4 _ _)); vm_compute; split; discriminate || reflexivity.
Defined.

(** ** Arena *)

(** X3.  On a well-formed arena, with a power-of-two alignment and a
    request that does not overflow [usize]: the allocation fails exactly
    when the aligned request ends beyond the capacity, and then nothing
    changes; when it succeeds the block starts at or after the old cursor, at
    an offset that is a multiple of the alignment, ends at the new cursor,
    which is within the capacity, and the arena is still well formed with a
    high-water mark that did not decrease. *)
Theorem arena_alloc_in_bounds (a a' : ADeadArena) (size k ptr : Z) :
  arena_wf a -> 0 <= k < 64 -> 0 < size ->
  arena_offset a + 2 ^ k + size <= 2 ^ 64 ->
  adead_arena_alloc (Some a) size (2 ^ k) = (ptr, Some a') ->
  (ptr = NULL <-> adead_align_up (arena_offset a) (2 ^ k) + size > arena_capacity a) /\
  (ptr = NULL -> a' = a) /\
  (ptr ≠ NULL ->
   arena_base a + arena_offset a <= ptr /\
   (ptr - arena_base a) mod 2 ^ k = 0 /\
   ptr + size = arena_base a + arena_offset a' /\
   arena_offset a' <= arena_capacity a /\
   arena_base a' = arena_base a /\ arena_capacity a' = arena_capacity a /\
   arena_peak a <= arena_peak a' /\
   arena_wf a').
Proof.
  intros (Hb & Ho & Hpk & Hc) Hk Hs Hfit.
  pose proof (pow2_lt_64 k Hk) as Hp.
  destruct (align_up_least_multiple (arena_offset a) k Hk ltac:(lia) ltac:(lia))
    as (Hm & Hr & _).
  unfold adead_arena_alloc.
  destruct (Z.eqb_spec (arena_base a) NULL) as [E|_]; [unfold NULL in E; lia|].
  destruct (Z.eqb_spec size 0) as [|_]; [lia|]. cbn [orb].
  set (al := adead_align_up (arena_offset a) (2 ^ k)) in *.
  rewrite (usize_small (al + size)) by lia.
  destruct (Z.gtb_spec (al + size) (arena_capacity a)) as [Hgt|Hle]; intros [= <- <-].
  - split; [split; [lia|done]|]. split; done.
  - unfold NULL. split; [split; lia|]. split; [lia|]. intros _.
    cbn [arena_base arena_offset arena_capacity arena_peak].
    replace (arena_base a + al - arena_base a) with al by lia.
    unfold arena_wf. cbn [arena_base arena_offset arena_capacity arena_peak].
    destruct (Z.gtb_spec (al + size) (arena_peak a)); repeat split; lia.
Qed.

Lemma arena_alloc_in_bounds_witness :
  arena_wf (mkArena 4096 100 1024 100) /\
  adead_arena_alloc (Some (mkArena 4096 100 1024 100)) 200 (2 ^ 4) =
    (4208, Some (mkArena 4096 312 1024 312)) /\
  (4208 - 4096) mod 2 ^ 4 = 0.
Proof.
  assert (Hwf : arena_wf (mkArena 4096 100 1024 100)) by (vm_compute; intuition discriminate).
  assert (Ha : adead_arena_alloc (Some (mkArena 4096 100 1024 100)) 200 (2 ^ 4) =
               (4208, Some (mkArena 4096 312 1024 312))) by (vm_compute; reflexivity).
  assert (Hk : 0 <= 4 < 64) by (vm_compute; split; discriminate || reflexivity).
  assert (Hs : 0 < 200) by reflexivity.
  assert (Hf : arena_offset (mkArena 4096 100 1024 100) + 2 ^ 4 + 200 <= 2 ^ 64)
    by (vm_compute; discriminate).
  assert (Hn : 4208 ≠ NULL) by (vm_compute; discriminate).
  split; [exact Hwf|]. split; [exact Ha|].
  exact (proj1 (proj2 (proj2 (proj2 (arena_alloc_in_bounds _ _ 200 4 4208 Hwf Hk Hs Hf Ha)) Hn))).
Defined.

(** X4.  Two successful allocations in a row from a well-formed arena,
    each with a power-of-two alignment and a size above 0, neither padded
    request overflowing [usize] ([offset + alignment + size] and
    [capacity + alignment + size] at most [2 ^ 64]), do not overlap: the
    second block starts at or after the end of the first, and both lie
    inside the buffer.  (With an alignment that is not a power of two the
    cursor can move back: alignment 0 sends it to 0.) *)
Theorem arena_allocs_disjoint (a a1 a2 : ADeadArena) (s1 k1 p1 s2 k2 p2 : Z) :
  arena_wf a -> 0 <= k1 < 64 -> 0 <= k2 < 64 -> 0 < s1 -> 0 < s2 ->
  arena_offset a + 2 ^ k1 + s1 <= 2 ^ 64 ->
  arena_capacity a + 2 ^ k2 + s2 <= 2 ^ 64 ->
  adead_arena_alloc (Some a) s1 (2 ^ k1) = (p1, Some a1) -> p1 ≠ NULL ->
  adead_arena_alloc (Some a1) s2 (2 ^ k2) = (p2, Some a2) -> p2 ≠ NULL ->
  p1 + s1 <= p2 /\
  arena_base a <= p1 /\ p2 + s2 <= arena_base a + arena_capacity a.
Proof.
  intros Hwf Hk1 Hk2 Hs1 Hs2 Hf1 Hf2 H1 Hp1 H2 Hp2.
  destruct (arena_alloc_in_bounds _ _ _ _ _ Hwf Hk1 Hs1 Hf1 H1) as (_ & _ & B1).
  destruct (B1 Hp1) as (L1 & _ & E1 & C1 & Hb1 & Hc1 & _ & Hwf1).
  assert (Hf2' : arena_offset a1 + 2 ^ k2 + s2 <= 2 ^ 64) by lia.
  destruct (arena_alloc_in_bounds _ _ _ _ _ Hwf1 Hk2 Hs2 Hf2' H2) as (_ & _ & B2).
  destruct (B2 Hp2) as (L2 & _ & E2 & C2 & _).
  destruct Hwf as (? & ? & ? & ?). lia.
Qed.

Lemma arena_allocs_disjoint_witness :
  exists p1 a1 p2 a2,
    adead_arena_alloc (Some (mkArena 4096 0 1024 0)) 100 (2 ^ 4) = (p1, Some a1) /\
    adead_arena_alloc (Some a1) 200 (2 ^ 4) = (p2, Some a2) /\
    p1 = 4096 /\ p2 = 4208 /\
    p1 + 100 <= p2 /\ 4096 <= p1 /\ p2 + 200 <= 4096 + 1024.
Proof.
  assert (Hwf : arena_wf (mkArena 4096 0 1024 0)) by (vm_compute; intuition discriminate).
  assert (Hk : 0 <= 4 < 64) by lia.
  assert (H1 : adead_arena_alloc (Some (mkArena 4096 0 1024 0)) 100 (2 ^ 4) =
               (4096, Some (mkArena 4096 100 1024 100))) by (vm_compute; reflexivity).
  assert (H2 : adead_arena_alloc (Some (mkArena 4096 100 1024 100)) 200 (2 ^ 4) =
               (4208, Some (mkArena 4096 312 1024 312))) by (vm_compute; reflexivity).
  assert (Hs1 : 0 < 100) by lia.
  assert (Hs2 : 0 < 200) by lia.
  assert (Hf1 : arena_offset (mkArena 4096 0 1024 0) + 2 ^ 4 + 100 <= 2 ^ 64)
    by (vm_compute; discriminate).
  assert (Hf2 : arena_capacity (mkArena 4096 0 1024 0) + 2 ^ 4 + 200 <= 2 ^ 64)
    by (vm_compute; discriminate).
  assert (Hn1 : 4096 ≠ NULL) by (vm_compute; discriminate).
  assert (Hn2 : 4208 ≠ NULL) by (vm_compute; discriminate).
  exists 4096, (mkArena 4096 100 1024 100), 4208, (mkArena 4096 312 1024 312).
  split; [exact H1|]. split; [exact H2|]. split; [reflexivity|]. split; [reflexivity|].
  exact (arena_allocs_disjoint (mkArena 4096 0 1024 0) (mkArena 4096 100 1024 100)
           (mkArena 4096 312 1024 312) 100 4 4096 200 4 4208
           Hwf Hk Hk Hs1 Hs2 Hf1 Hf2 H1 Hn1 H2 Hn2).
Defined.

(** X5.  After [adead_arena_reset] nothing is in use, the whole capacity
    is available, the high-water mark is kept, and the next allocation that
    fits is handed out at the base of the buffer. *)
Theorem arena_reset_reuses_buffer (a : ADeadArena) (size k : Z) :
  arena_wf a -> 0 <= k < 64 -> 0 < size <= arena_capacity a ->
  adead_arena_used (adead_arena_reset (Some a)) = 0 /\
  adead_arena_available (adead_arena_reset (Some a)) = arena_capacity a /\
  adead_arena_alloc (adead_arena_reset (Some a)) size (2 ^ k) =
    (arena_base a,
     Some (mkArena (arena_base a) size (arena_capacity a) (Z.max (arena_peak a) size))).
Proof.
  intros (Hb & Ho & Hpk & Hc) Hk Hs. pose proof (pow2_lt_64 k Hk) as Hp.
  cbn [adead_arena_reset adead_arena_used adead_arena_available arena_offset arena_capacity].
  split; [done|]. split; [rewrite Z.sub_0_r; apply usize_small; lia|].
  unfold adead_arena_alloc. cbn [arena_base arena_offset arena_capacity arena_peak].
  destruct (Z.eqb_spec (arena_base a) NULL) as [E|_]; [unfold NULL in E; lia|].
  destruct (Z.eqb_spec size 0) as [|_]; [lia|]. cbn [orb].
  rewrite align_up_pow2 by lia.
  replace ((0 + 2 ^ k - 1) / 2 ^ k) with 0 by (symmetry; apply Z.div_small; lia).
  rewrite Z.mul_0_l, Z.add_0_l. rewrite (usize_small size) by lia.
  destruct (Z.gtb_spec size (arena_capacity a)); [lia|].
  rewrite Z.add_0_r. f_equal. f_equal. f_equal.
  destruct (Z.gtb_spec size (arena_peak a)); lia.
Qed.

Lemma arena_reset_reuses_buffer_witness :
  adead_arena_alloc (adead_arena_reset (Some (mkArena 4096 312 1024 312))) 64 (2 ^ 4) =
    (4096, Some (mkArena 4096 64 1024 312)).
Proof.
  refine (proj2 (proj2 (arena_reset_reuses_buffer (mkArena 4096 312 1024 312) 64 4 _ _ _)));
    vm_compute; intuition discriminate.
Defined.

(** ** Pool *)

Lemma free_list_is_frame (w : World) (a v p : Z) (l : list Z) :
  Forall (fun x => x + 8 <= a \/ a + 8 <= x) l ->
  free_list_is w p l -> free_list_is (store64 a v w) p l.
Proof.
  revert p. induction l as [|x l IH]; intros p Hd H; [done|].
  destruct H as (-> & Hx & Ht). apply Forall_cons in Hd as [Hdx Hdl].
  cbn [free_list_is]. split; [done|]. split; [done|].
  rewrite load64_store64_other by lia. by apply IH.
Qed.

Lemma free_list_is_walk (w : World) (p : Z) (l : list Z) (fuel : nat) :
  free_list_is w p l -> (length l < fuel)%nat -> free_list_walk fuel w p = l.
Proof.
  revert p fuel. induction l as [|x l IH]; intros p fuel H Hf.
  - cbn in H. subst p. destruct fuel; [simpl in Hf; lia|]. reflexivity.
  - destruct H as (-> & Hx & Ht). destruct fuel as [|fuel]; [simpl in Hf; lia|].
    cbn [free_list_walk]. destruct (Z.eqb_spec x NULL); [done|].
    f_equal. apply IH; [done|]. simpl in Hf. lia.
Qed.

Lemma pool_blocks_desc_bounds (base bs : Z) (n : nat) :
  0 <= bs ->
  Forall (fun x => base <= x /\ x + bs <= base + Z.of_nat n * bs) (pool_blocks_desc base bs n).
Proof.
  intros Hbs. induction n as [|n IH]; [constructor|].
  cbn [pool_blocks_desc]. constructor; [nia|].
  eapply Forall_impl; [exact IH|]. cbn. intros x Hx. nia.
Qed.

(** Threading blocks [s .. s + count - 1] onto a list made of the blocks
    below [s] gives the list of the blocks below [s + count], highest index
    first. *)
Lemma pool_link_loop_spec (base bs : Z) (count s : nat) (head : Z) (w : World) :
  0 < base -> 8 <= bs -> base + Z.of_nat (s + count) * bs <= 2 ^ 64 ->
  free_list_is w head (pool_blocks_desc base bs s) ->
  free_list_is
    (snd (for_loop count (Z.of_nat s) (pool_link_block base bs) (head, w)))
    (fst (for_loop count (Z.of_nat s) (pool_link_block base bs) (head, w)))
    (pool_blocks_desc base bs (s + count)).
Proof.
  intros Hb Hbs. revert s head w. induction count as [|count IH]; intros s head w Hfit H.
  - rewrite Nat.add_0_r. exact H.
  - cbn [for_loop]. unfold pool_link_block at 2 4. cbn [fst snd].
    assert (Hs : 0 <= Z.of_nat s * bs) by nia.
    rewrite (usize_small (Z.of_nat s * bs)) by nia.
    replace (Z.of_nat s + 1) with (Z.of_nat (S s)) by lia.
    replace (s + S count)%nat with (S s + count)%nat in * by lia.
    apply IH; [done|]. cbn [pool_blocks_desc free_list_is].
    assert (Hhead : 0 <= head < 2 ^ 64).
    { pose proof (pool_blocks_desc_bounds base bs s ltac:(lia)) as Hbd.
      destruct s as [|s]; cbn [pool_blocks_desc free_list_is] in H, Hbd.
      - subst head. unfold NULL. lia.
      - destruct H as (-> & _). apply Forall_cons in Hbd as [Hx _]. nia. }
    split; [done|]. split; [unfold NULL; lia|].
    rewrite load64_store64_same by done.
    apply free_list_is_frame; [|done].
    eapply Forall_impl; [apply (pool_blocks_desc_bounds base bs s); lia|].
    cbn. intros x Hx. lia.
Qed.

Lemma pool_link_loop_null (base bs : Z) (n : nat) (w : World) :
  0 < base -> 8 <= bs -> base + Z.of_nat n * bs <= 2 ^ 64 ->
  free_list_is
    (snd (for_loop n 0 (pool_link_block base bs) (NULL, w)))
    (fst (for_loop n 0 (pool_link_block base bs) (NULL, w)))
    (pool_blocks_desc base bs n).
Proof.
  intros Hb Hbs Hfit.
  apply (pool_link_loop_spec base bs n 0 NULL w); done.
Qed.

Lemma pool_blocks_desc_lt (base bs : Z) (n : nat) :
  0 < bs -> Forall (fun x => x < base + Z.of_nat n * bs) (pool_blocks_desc base bs n).
Proof.
  intros Hbs. eapply Forall_impl; [apply pool_blocks_desc_bounds; lia|].
  cbn. intros x Hx. lia.
Qed.

Lemma pool_blocks_desc_NoDup (base bs : Z) (n : nat) :
  0 < bs -> NoDup (pool_blocks_desc base bs n).
Proof.
  intros Hbs. induction n as [|n IH]; [constructor|].
  cbn [pool_blocks_desc]. constructor; [|done].
  intros Hin. pose proof (pool_blocks_desc_lt base bs n Hbs) as Hlt.
  rewrite Forall_forall in Hlt. specialize (Hlt _ Hin). lia.
Qed.

Lemma pool_blocks_desc_length (base bs : Z) (n : nat) :
  length (pool_blocks_desc base bs n) = n.
Proof. induction n as [|n IH]; simpl; [done|]. by rewrite IH. Qed.

(** X6.  A successful [adead_pool_init], for a request whose total size
    does not overflow [usize]: the block size is the requested one raised to
    at least 8 and rounded up to a multiple of 16; the pool owns a fresh
    buffer of [num_blocks] such blocks; no block is in use; and the free
    list, read from the heap, consists of every block exactly once, from the
    highest index down to the block at the base. *)
Theorem pool_init_free_list (p0 pool : ADeadPool) (bs n : Z) (w0 w : World) :
  0 < bs -> 0 < n -> (Z.max bs 8 + 15) * n < 2 ^ 64 ->
  adead_pool_init (Some p0) bs n w0 = (ADEAD_OK, Some pool, w) ->
  pool_wf pool /\
  pool_block_size pool mod 16 = 0 /\
  Z.max bs 8 <= pool_block_size pool < Z.max bs 8 + 16 /\
  pool_capacity pool = n /\ pool_used pool = 0 /\
  live w = pool_base pool :: live w0 /\
  let blocks := pool_blocks_desc (pool_base pool) (pool_block_size pool) (Z.to_nat n) in
  free_list_is w (pool_free_list pool) blocks /\
  free_list_walk (S (Z.to_nat n)) w (pool_free_list pool) = blocks /\
  NoDup blocks /\
  Forall (fun x => pool_base pool <= x /\
                   x + pool_block_size pool <=
                     pool_base pool + pool_block_size pool * pool_capacity pool) blocks.
Proof.
  intros Hbs Hn Hfit. unfold adead_pool_init.
  destruct (Z.eqb_spec bs 0) as [|_]; [lia|]. destruct (Z.eqb_spec n 0) as [|_]; [lia|].
  cbn [orb].
  replace (if bs <? sizeof_ADeadPoolBlock then sizeof_ADeadPoolBlock else bs)
    with (Z.max bs 8)
    by (unfold sizeof_ADeadPoolBlock; destruct (Z.ltb_spec bs 8); lia).
  change ADEAD_ALIGNMENT with (2 ^ 4).
  assert (Hm8 : 8 <= Z.max bs 8) by lia.
  assert (Hsmall : Z.max bs 8 + 2 ^ 4 - 1 < 2 ^ 64).
  { change (2 ^ 4) with 16. nia. }
  destruct (align_up_least_multiple (Z.max bs 8) 4 ltac:(lia) ltac:(lia) Hsmall)
    as (Hmod & Hrange & _).
  set (bs' := adead_align_up (Z.max bs 8) (2 ^ 4)) in *.
  change (2 ^ 4) with 16 in Hmod, Hrange.
  assert (Hprod : 0 <= bs' * n < 2 ^ 64) by nia.
  rewrite (usize_small (bs' * n)) by done.
  destruct (malloc (bs' * n) w0) as [base w1] eqn:Hm.
  destruct (Z.eqb_spec base NULL) as [|Hb]; [discriminate|].
  destruct (malloc_result _ _ _ _ Hm Hb) as (Hpos & Hin & _ & Hl & _).
  pose proof (pool_link_loop_null base bs' (Z.to_nat n) w1 Hpos ltac:(lia)) as Hlist.
  destruct (pool_link_loop_frame (Z.to_nat n) 0 base bs' NULL w1) as (Fl & _).
  destruct (for_loop _ _ _ _) as [head w2]. cbn [fst snd] in Hlist, Fl.
  intros [= <- <-]. cbn [pool_base pool_block_size pool_capacity pool_used pool_free_list].
  assert (Hlist' := Hlist ltac:(nia)).
  split; [unfold pool_wf; cbn; repeat split; lia|].
  split; [done|]. split; [done|]. split; [done|]. split; [done|].
  split; [congruence|]. cbv zeta.
  split; [done|]. split.
  { apply free_list_is_walk; [done|]. rewrite pool_blocks_desc_length. lia. }
  split; [apply pool_blocks_desc_NoDup; lia|].
  eapply Forall_impl; [apply (pool_blocks_desc_bounds base bs' (Z.to_nat n)); lia|].
  cbn. intros x Hx. nia.
Qed.

Lemma pool_init_free_list_witness :
  exists pool w,
    adead_pool_init (Some zero_pool) 40 3 (world_with [4096]) = (ADEAD_OK, Some pool, w) /\
    pool_block_size pool = 48 /\
    free_list_walk 4 w (pool_free_list pool) = [4192; 4144; 4096].
Proof.
  assert (H : adead_pool_init (Some zero_pool) 40 3 (world_with [4096]) =
               (ADEAD_OK, Some (mkPool 4096 4192 48 3 0),
                snd (adead_pool_init (Some zero_pool) 40 3 (world_with [4096]))))
    by (vm_compute; reflexivity).
  destruct (pool_init_free_list zero_pool _ 40 3 (world_with [4096]) _
              eq_refl eq_refl eq_refl H) as (_ & _ & _ & _ & _ & _ & _ & Hw & _).
  eexists _, _. split; [exact H|]. split; [reflexivity|exact Hw].
Defined.

Lemma pool_alloc_n_spec (l : list Z) (q : ADeadPool) (w : World) :
  free_list_is w (pool_free_list q) l ->
  0 <= pool_used q -> pool_used q + Z.of_nat (length l) < 2 ^ 64 ->
  pool_alloc_n (length l) (Some q) w =
    (l, Some (mkPool (pool_base q) NULL (pool_block_size q) (pool_capacity q)
                (pool_used q + Z.of_nat (length l)))).
Proof.
  revert q. induction l as [|x l IH]; intros q H Hu Hfit.
  - cbn in H. cbn. rewrite Z.add_0_r. rewrite <- H. by destruct q.
  - destruct H as (Hx & Hn & Ht). cbn [length pool_alloc_n].
    unfold adead_pool_alloc at 1. rewrite Hx.
    destruct (Z.eqb_spec x NULL) as [|_]; [done|].
    cbn [length] in Hfit.
    rewrite (usize_small (pool_used q + 1)) by lia.
    rewrite IH; cbn [pool_free_list pool_used pool_base pool_block_size pool_capacity];
      [|done|lia|lia].
    do 2 f_equal. f_equal. lia.
Qed.

(** X7.  Allocation follows the free list: when the free list of a pool
    is [l], the next [length l] calls of [adead_pool_alloc] return the blocks
    of [l] in order, each call adding 1 to [used]; the call after those
    returns no block and leaves the pool as it is. *)
Theorem pool_alloc_follows_free_list (l : list Z) (q : ADeadPool) (w : World) :
  free_list_is w (pool_free_list q) l ->
  0 <= pool_used q -> pool_used q + Z.of_nat (length l) < 2 ^ 64 ->
  exists q',
    pool_alloc_n (length l) (Some q) w = (l, Some q') /\
    pool_used q' = pool_used q + Z.of_nat (length l) /\
    pool_free_list q' = NULL /\
    adead_pool_alloc (Some q') w = (NULL, Some q').
Proof.
  intros H Hu Hfit. eexists. split; [by apply pool_alloc_n_spec|].
  split; [done|]. split; [done|]. reflexivity.
Qed.

Lemma pool_alloc_follows_free_list_witness :
  exists w q',
    free_list_is w 4192 [4192; 4144; 4096] /\
    pool_alloc_n 3 (Some (mkPool 4096 4192 48 3 0)) w = ([4192; 4144; 4096], Some q') /\
    adead_pool_alloc (Some q') w = (NULL, Some q').
Proof.
  exists (snd (adead_pool_init (Some zero_pool) 40 3 (world_with [4096]))).
  assert (H : free_list_is (snd (adead_pool_init (Some zero_pool) 40 3 (world_with [4096])))
                (pool_free_list (mkPool 4096 4192 48 3 0)) [4192; 4144; 4096]).
  { vm_compute. repeat split; discriminate. }
  destruct (pool_alloc_follows_free_list [4192; 4144; 4096] (mkPool 4096 4192 48 3 0) _ H)
    as (q' & Hq & _ & _ & Hf).
  - vm_compute. discriminate.
  - vm_compute. reflexivity.
  - exists q'. split; [exact H|]. split; [exact Hq|exact Hf].
Defined.

(** X8.  [adead_pool_free] ignores a null pointer and a pointer outside
    the buffer: the pool and the heap are unchanged.  A pointer inside the
    buffer whose link word overlaps no block of the free list is put at the
    head of the list, and [used] goes down by 1. *)
Theorem pool_free_prepends (q : ADeadPool) (w : World) (ptr : Z) (l : list Z) :
  pool_wf q ->
  (ptr = NULL \/ ptr < pool_base q \/
   pool_base q + pool_block_size q * pool_capacity q <= ptr ->
   adead_pool_free (Some q) ptr w = (Some q, w)) /\
  (pool_base q <= ptr < pool_base q + pool_block_size q * pool_capacity q ->
   free_list_is w (pool_free_list q) l ->
   Forall (fun x => 0 <= x < 2 ^ 64 /\ (x + 8 <= ptr \/ ptr + 8 <= x)) l ->
   exists q' w',
     adead_pool_free (Some q) ptr w = (Some q', w') /\
     free_list_is w' (pool_free_list q') (ptr :: l) /\
     pool_used q' = usize (pool_used q - 1) /\
     pool_base q' = pool_base q /\ pool_block_size q' = pool_block_size q /\
     pool_capacity q' = pool_capacity q).
Proof.
  intros (Hb & Hbs & Hc & Hfit).
  assert (Hprod : 0 <= pool_block_size q * pool_capacity q < 2 ^ 64) by nia.
  split.
  - intros H. unfold adead_pool_free. rewrite (usize_small _ Hprod).
    destruct (Z.eqb_spec ptr NULL) as [|Hn]; [done|].
    destruct (Z.ltb_spec ptr (pool_base q)); [done|].
    destruct (Z.geb_spec ptr (pool_base q + pool_block_size q * pool_capacity q)); [done|].
    lia.
  - intros Hr Hl Hd. unfold adead_pool_free. rewrite (usize_small _ Hprod).
    destruct (Z.eqb_spec ptr NULL) as [E|Hn]; [unfold NULL in E; lia|].
    destruct (Z.ltb_spec ptr (pool_base q)); [lia|].
    destruct (Z.geb_spec ptr (pool_base q + pool_block_size q * pool_capacity q)); [lia|].
    cbn [orb]. eexists _, _. split; [reflexivity|].
    cbn [pool_free_list pool_used pool_base pool_block_size pool_capacity free_list_is].
    repeat split; try done.
    assert (Hhead : 0 <= pool_free_list q < 2 ^ 64).
    { destruct l as [|x l]; cbn [free_list_is] in Hl.
      - rewrite Hl. unfold NULL. lia.
      - destruct Hl as (-> & _). apply Forall_cons in Hd as [[Hx _] _]. done. }
    rewrite load64_store64_same by done.
    apply free_list_is_frame; [|done].
    eapply Forall_impl; [exact Hd|]. cbn. intros x [_ Hx]. lia.
Qed.

Lemma pool_free_prepends_witness :
  adead_pool_free (Some (mkPool 4096 4192 48 3 0)) 8192 (world_with []) =
    (Some (mkPool 4096 4192 48 3 0), world_with []).
Proof.
  refine (proj1 (pool_free_prepends (mkPool 4096 4192 48 3 0) (world_with []) 8192 [] _) _).
  - vm_compute. intuition discriminate.
  - right. right. vm_compute. discriminate.
Defined.

(** X9.  Giving back the block that was just allocated undoes the
    allocation: the pool structure is the one before the allocation and the
    free list is again the list before it. *)
Theorem pool_alloc_free_round_trip (q : ADeadPool) (w : World) (x : Z) (l : list Z) :
  pool_wf q -> 0 <= pool_used q < 2 ^ 64 - 1 ->
  free_list_is w (pool_free_list q) (x :: l) ->
  pool_base q <= x < pool_base q + pool_block_size q * pool_capacity q ->
  Forall (fun y => 0 <= y < 2 ^ 64 /\ (y + 8 <= x \/ x + 8 <= y)) l ->
  exists q1 w',
    adead_pool_alloc (Some q) w = (x, Some q1) /\
    adead_pool_free (Some q1) x w = (Some q, w') /\
    free_list_is w' (pool_free_list q) (x :: l).
Proof.
  intros Hwf Hu (Hx & Hn & Ht) Hr Hd.
  unfold adead_pool_alloc. rewrite Hx.
  destruct (Z.eqb_spec x NULL) as [|_]; [done|].
  set (q1 := mkPool (pool_base q) (load64 x w) (pool_block_size q) (pool_capacity q)
               (usize (pool_used q + 1))).
  destruct (proj2 (pool_free_prepends q1 w x l Hwf) Hr Ht Hd)
    as (q' & w' & Hf & Hl' & _).
  assert (Hf2 : adead_pool_free (Some q1) x w = (Some q, store64 x (load64 x w) w)).
  { destruct Hwf as (Hb & Hbs & Hc & Hfit).
    unfold adead_pool_free. subst q1.
    cbn [pool_base pool_block_size pool_capacity pool_used pool_free_list].
    rewrite (usize_small (pool_block_size q * pool_capacity q)) by nia.
    destruct (Z.eqb_spec x NULL) as [|_]; [done|].
    destruct (Z.ltb_spec x (pool_base q)); [lia|].
    destruct (Z.geb_spec x (pool_base q + pool_block_size q * pool_capacity q)); [lia|].
    cbn [orb]. rewrite (usize_small (pool_used q + 1)) by lia.
    replace (pool_used q + 1 - 1) with (pool_used q) by lia.
    rewrite (usize_small (pool_used q)) by lia.
    rewrite <- Hx. by destruct q. }
  rewrite Hf2 in Hf. injection Hf as <- <-.
  exists q1, (store64 x (load64 x w) w). split; [reflexivity|]. split; [exact Hf2|].
  rewrite Hx in Hl'. exact Hl'.
Qed.

Lemma pool_alloc_free_round_trip_witness :
  exists w q1 w',
    adead_pool_alloc (Some (mkPool 4096 4192 48 3 0)) w = (4192, Some q1) /\
    adead_pool_free (Some q1) 4192 w = (Some (mkPool 4096 4192 48 3 0), w').
Proof.
  exists (snd (adead_pool_init (Some zero_pool) 40 3 (world_with [4096]))).
  destruct (pool_alloc_free_round_trip (mkPool 4096 4192 48 3 0)
              (snd (adead_pool_init (Some zero_pool) 40 3 (world_with [4096])))
              4192 [4144; 4096]) as (q1 & w' & Ha & Hf & _).
  - vm_compute. intuition discriminate.
  - vm_compute. intuition discriminate.
  - vm_compute. repeat split; discriminate.
  - vm_compute. intuition discriminate.
  - repeat constructor; vm_compute; intuition discriminate.
  - exists q1, w'. split; [exact Ha|exact Hf].
Defined.



(** X11.  [adead_pool_reset] forgets every allocation: whatever the free
    list, the counter and the contents of the buffer were, afterwards no
    block is in use and the free list is the one [adead_pool_init] builds,
    every block once from the highest index down to the base. *)
Theorem pool_reset_rebuilds (q : ADeadPool) (w : World) :
  pool_wf q ->
  exists q' w',
    adead_pool_reset (Some q) w = (Some q', w') /\
    pool_used q' = 0 /\
    pool_base q' = pool_base q /\ pool_block_size q' = pool_block_size q /\
    pool_capacity q' = pool_capacity q /\
    free_list_is w' (pool_free_list q')
      (pool_blocks_desc (pool_base q) (pool_block_size q) (Z.to_nat (pool_capacity q))) /\
    live w' = live w.
Proof.
  intros (Hb & Hbs & Hc & Hfit). unfold adead_pool_reset.
  destruct (Z.eqb_spec (pool_base q) NULL) as [E|_]; [unfold NULL in E; lia|].
  pose proof (pool_link_loop_null (pool_base q) (pool_block_size q)
                (Z.to_nat (pool_capacity q)) w Hb Hbs) as Hlist.
  destruct (pool_link_loop_frame (Z.to_nat (pool_capacity q)) 0 (pool_base q)
              (pool_block_size q) NULL w) as (Fl & _).
  destruct (for_loop _ _ _ _) as [head w1]. cbn [fst snd] in *.
  eexists _, _. split; [reflexivity|]. cbn. repeat split; try done.
  apply Hlist. nia.
Qed.

Lemma pool_reset_rebuilds_witness :
  exists q' w',
    adead_pool_reset (Some (mkPool 4096 0 48 3 3)) (world_with []) = (Some q', w') /\
    pool_used q' = 0 /\
    free_list_is w' (pool_free_list q') [4192; 4144; 4096].
Proof.
  destruct (pool_reset_rebuilds (mkPool 4096 0 48 3 3) (world_with []))
    as (q' & w' & H & Hu & _ & _ & _ & Hl & _).
  - vm_compute. intuition discriminate.
  - exists q', w'. split; [exact H|]. split; [exact Hu|exact Hl].
Defined.

(** ** Memory manager *)

(** X12.  A scratch allocation of [size] bytes from a manager whose
    arena is well formed, for a request that does not overflow [usize]
    ([offset + 16 + size] at most [2 ^ 64]): when it returns no pointer the
    manager is unchanged, counters included; when it returns a pointer, the
    block lies inside the scratch buffer at an offset that is a multiple of
    16, [total_alloc] grows by the requested size, [alloc_count] by 1, and
    the pool and the free counters are untouched. *)
Theorem memory_scratch_block (m m' : ADeadMemoryManager) (size ptr : Z) :
  arena_wf (mm_scratch m) -> 0 <= size ->
  arena_offset (mm_scratch m) + 16 + size <= 2 ^ 64 ->
  adead_memory_scratch (Some m) size = (ptr, Some m') ->
  (ptr = NULL -> m' = m) /\
  (ptr ≠ NULL ->
   arena_base (mm_scratch m) <= ptr /\
   ptr + size <= arena_base (mm_scratch m) + arena_capacity (mm_scratch m) /\
   (ptr - arena_base (mm_scratch m)) mod 16 = 0 /\
   arena_wf (mm_scratch m') /\
   mm_total_alloc m' = usize (mm_total_alloc m + size) /\
   mm_alloc_count m' = u32 (mm_alloc_count m + 1) /\
   mm_total_freed m' = mm_total_freed m /\ mm_free_count m' = mm_free_count m /\
   mm_tensor_pool m' = mm_tensor_pool m).
Proof.
  intros Hwf Hs0 Hfit.
  destruct (Z.eq_dec size 0) as [->|Hnz].
  { unfold adead_memory_scratch. rewrite arena_alloc_zero_size.
    cbn [member default from_option id mm_scratch]. change (NULL =? NULL) with true.
    cbv iota. intros [= <- <-]. split; [intros _; by destruct m|done]. }
  assert (Hs : 0 < size) by lia. unfold adead_memory_scratch.
  destruct (adead_arena_alloc (Some (mm_scratch m)) size ADEAD_ALIGNMENT) as [p a'] eqn:Ha.
  assert (Hsome : exists a1, a' = Some a1).
  { revert Ha. unfold adead_arena_alloc.
    destruct (_ || _)%bool; [intros [= _ <-]; eauto|].
    destruct (_ >? _); intros [= _ <-]; eauto. }
  destruct Hsome as [a1 ->].
  change ADEAD_ALIGNMENT with (2 ^ 4) in Ha.
  destruct (arena_alloc_in_bounds _ _ size 4 p Hwf ltac:(lia) Hs Hfit Ha)
    as (_ & Hnull & Hok).
  cbn [member default from_option id mm_scratch mm_tensor_pool mm_total_alloc mm_total_freed
       mm_alloc_count mm_free_count].
  destruct (Z.eqb_spec p NULL) as [Hp|Hp]; intros [= <- <-].
  - split; [|done]. intros _. rewrite (Hnull Hp). by destruct m.
  - split; [done|]. intros _.
    destruct (Hok Hp) as (Hlo & Hmod & Hend & Hcap & _ & _ & _ & Hwf').
    destruct Hwf as (? & ? & ? & ?).
    cbn [mm_scratch mm_tensor_pool mm_total_alloc mm_total_freed mm_alloc_count mm_free_count].
    change (2 ^ 4) with 16 in Hmod.
    split; [lia|]. split; [lia|]. split; [done|]. split; [done|]. repeat split.
Qed.

Lemma memory_scratch_block_witness :
  exists m',
    adead_memory_scratch
      (Some (mkMemoryManager (mkArena 4096 100 1024 100) zero_pool 100 0 1 0)) 200
      = (4208, Some m') /\
    (4208 - 4096) mod 16 = 0 /\ mm_total_alloc m' = 300.
Proof.
  eexists. split; [vm_compute; reflexivity|].
  refine (let H := proj2 (memory_scratch_block
                     (mkMemoryManager (mkArena 4096 100 1024 100) zero_pool 100 0 1 0)
                     _ 200 4208 _ _ _ _) _ in
          conj (proj1 (proj2 (proj2 H))) (proj1 (proj2 (proj2 (proj2 (proj2 H))))));
    vm_compute; intuition discriminate.
Defined.

(** X13.  [adead_memory_destroy] after a successful [adead_memory_init]
    gives both buffers back: the blocks held are those held before the
    initialization, and the manager is all zero; destroying the zeroed
    manager again does nothing. *)
Theorem memory_init_destroy_round_trip (mm0 m : ADeadMemoryManager)
  (scratch_size pool_size : Z) (w0 w : World) :
  adead_memory_init (Some mm0) scratch_size pool_size w0 = (ADEAD_OK, Some m, w) ->
  live w = pool_base (mm_tensor_pool m) :: arena_base (mm_scratch m) :: live w0 /\
  fst (adead_memory_destroy (Some m) w) = Some zero_memory_manager /\
  live (snd (adead_memory_destroy (Some m) w)) = live w0 /\
  adead_memory_destroy (Some zero_memory_manager) (snd (adead_memory_destroy (Some m) w)) =
    (Some zero_memory_manager, snd (adead_memory_destroy (Some m) w)).
Proof.
  intros H.
  destruct (memory_init_spec _ _ _ _ _ _ _ H)
    as (_ & [(_ & b & pb & fl & bs & [= ->] & Hb & Hpb & Hl & _)|(He & _)]); [|done].
  cbn [mm_scratch mm_tensor_pool arena_base pool_base].
  split; [done|].
  destruct (memory_destroy_spec
              (mkMemoryManager (mkArena b 0 scratch_size 0)
                 (mkPool pb fl bs (pool_size / 256) 0) 0 0 0 0) w (live w0) Hb Hpb Hl)
    as (H1 & H2 & _).
  split; [done|]. split; [done|]. reflexivity.
Qed.

Lemma memory_init_destroy_round_trip_witness :
  live (snd (adead_memory_destroy
               (Some (mkMemoryManager (mkArena 4096 0 1024 0) (mkPool 8192 8448 256 2 0) 0 0 0 0))
               (snd (adead_memory_init (Some zero_memory_manager) 1024 512
                       (world_with [4096; 8192]))))) = [].
Proof.
  refine (proj1 (proj2 (proj2 (memory_init_destroy_round_trip zero_memory_manager
            (mkMemoryManager (mkArena 4096 0 1024 0) (mkPool 8192 8448 256 2 0) 0 0 0 0)
            1024 512 (world_with [4096; 8192]) _ _)))).
  vm_compute. reflexivity.
Defined.

(** ** Runtime life cycle *)

Lemma cpu_init_ok (w : World) (ctx : option Z) (w' : World) :
  cpu_init w = (ADEAD_OK, ctx, w') ->
  exists c, ctx = Some c /\ c ≠ NULL /\ live w' = c :: live w /\ trace w' = trace w /\
            load64 c w' = 0.
Proof.
  unfold cpu_init. destruct (malloc sizeof_CPUBackendCtx w) as [c w1] eqn:Hm.
  destruct (Z.eqb_spec c NULL) as [Hc|Hc]; [discriminate|]. intros [= <- <-].
  destruct (malloc_result _ _ _ _ Hm Hc) as (_ & _ & _ & Hl & _ & Ht).
  exists c. repeat split; try done.
  rewrite load64_store64_other by lia. by apply load64_store64_same.
Qed.

Lemma adead_init_ok_inv (K : CPUKernels) (rt rt' : option ADeadRuntime) (backend : Z)
  (w w' : World) :
  adead_init K rt backend w = (ADEAD_OK, rt', w') ->
  exists b pb fl bs ctx,
    rt' = Some (mkRuntime
                  (mkMemoryManager (mkArena b 0 (64 * 1024 * 1024) 0)
                     (mkPool pb fl bs (16 * 1024 * 1024 / 256) 0) 0 0 0 0)
                  ADEAD_BACKEND_CPU (Some (cpu_vtable K)) ctx 0 1) /\
    b ≠ NULL /\ pb ≠ NULL /\ ctx ≠ NULL /\
    live w' = ctx :: pb :: b :: live w /\
    trace w' = CallInit :: trace w /\
    load64 ctx w' = 0.
Proof.
  destruct rt as [r0|]; [|discriminate]. unfold adead_init. cbn [rt_memory zero_runtime].
  destruct (adead_memory_init (Some zero_memory_manager) _ _ w) as [[e1 m1] w1] eqn:Hi.
  destruct (memory_init_spec _ _ _ _ _ _ _ Hi)
    as (Ht1 & [(-> & b & pb & fl & bs & -> & Hb & Hpb & Hl1 & _)|(He1 & _)]).
  2:{ destruct e1; try done; cbn [is_ok negb]; discriminate. }
  cbn [is_ok negb member default from_option id set_rt_memory rt_memory rt_active_backend
       rt_backend_vtable rt_backend_ctx rt_flags rt_initialized].
  destruct (select_backend K backend) as [[vt active]|] eqn:Hsel.
  2:{ destruct (adead_memory_destroy _ _). discriminate. }
  destruct (select_backend_cpu _ _ _ _ Hsel) as [-> ->]. cbn [vt_init cpu_vtable].
  destruct (cpu_init (log_call CallInit w1)) as [[e2 ctx] w2] eqn:Hc.
  destruct e2; cbn [is_ok negb]; try (destruct (adead_memory_destroy _ _); discriminate).
  destruct (cpu_init_ok _ _ _ Hc) as (c & -> & Hcn & Hl2 & Ht2 & Hld).
  intros [= <- <-]. exists b, pb, fl, bs, c. cbn [default from_option id].
  split; [reflexivity|]. repeat split; try done.
  - rewrite Hl2. cbn [log_call live]. by rewrite Hl1.
  - rewrite Ht2. cbn [log_call trace]. by rewrite Ht1.
Qed.

Lemma adead_init_succeeds (K : CPUKernels) (r0 : ADeadRuntime) (backend : Z) (w : World)
  (p1 p2 p3 : Z) (rest : list Z) :
  select_backend K backend = Some (cpu_vtable K, ADEAD_BACKEND_CPU) ->
  oracle w = p1 :: p2 :: p3 :: rest ->
  0 < p1 /\ p1 + 64 * 1024 * 1024 <= 2 ^ 64 ->
  0 < p2 /\ p2 + 16 * 1024 * 1024 <= 2 ^ 64 ->
  0 < p3 /\ p3 + 16 <= 2 ^ 64 ->
  exists r w', adead_init K (Some r0) backend w = (ADEAD_OK, Some r, w').
Proof.
  intros Hsel Ho [H1 H1'] [H2 H2'] [H3 H3'].
  unfold adead_init. rewrite Hsel.
  unfold adead_memory_init, adead_arena_init, adead_pool_init.
  cbn [rt_memory zero_runtime mm_scratch mm_tensor_pool zero_memory_manager].
  change (64 * 1024 * 1024 =? 0) with false. cbv iota.
  rewrite (malloc_ok _ _ _ _ Ho H1 H1').
  destruct (Z.eqb_spec p1 NULL) as [E|_]; [unfold NULL in E; lia|].
  cbn [is_ok negb member default from_option id mm_scratch mm_tensor_pool
       mm_total_alloc mm_total_freed mm_alloc_count mm_free_count].
  change ((256 =? 0) || (16 * 1024 * 1024 / 256 =? 0))%bool with false. cbv iota.
  change (256 <? sizeof_ADeadPoolBlock) with false. cbv iota.
  change (adead_align_up 256 ADEAD_ALIGNMENT) with 256.
  change (usize (256 * (16 * 1024 * 1024 / 256))) with (16 * 1024 * 1024).
  rewrite (malloc_ok _ _ p2 (p3 :: rest)) by (cbn [oracle]; reflexivity || lia).
  destruct (Z.eqb_spec p2 NULL) as [E|_]; [unfold NULL in E; lia|].
  match goal with |- context [for_loop ?n 0 ?f (?h, ?w1)] =>
    destruct (pool_link_loop_frame n 0 p2 256 h w1) as (_ & Fo & _);
    destruct (for_loop n 0 f (h, w1)) as [head w2] end.
  cbn [snd oracle] in Fo.
  cbn [is_ok negb member default from_option id set_rt_memory rt_memory
       vt_init cpu_vtable]. unfold cpu_init.
  assert (Ho3 : oracle (log_call CallInit w2) = p3 :: rest) by exact Fo.
  assert (Hf3 : p3 + sizeof_CPUBackendCtx <= 2 ^ 64) by (unfold sizeof_CPUBackendCtx; lia).
  rewrite (malloc_ok sizeof_CPUBackendCtx _ p3 rest Ho3 H3 Hf3).
  destruct (Z.eqb_spec p3 NULL) as [E|_]; [unfold NULL in E; lia|].
  cbn [is_ok negb]. eauto.
Qed.

(** X14.  A context that [adead_init] set up holds exactly three blocks
    of the heap (backend context, tensor pool, scratch arena) and has made
    one call to the backend; [adead_shutdown] calls the backend's [shutdown]
    once, gives the three blocks back and leaves the all-zero structure. *)
Theorem init_shutdown_round_trip (K : CPUKernels) (rt : option ADeadRuntime) (r : ADeadRuntime)
  (backend : Z) (w w' : World) :
  adead_init K rt backend w = (ADEAD_OK, Some r, w') ->
  live w' = rt_backend_ctx r :: pool_base (mm_tensor_pool (rt_memory r))
              :: arena_base (mm_scratch (rt_memory r)) :: live w /\
  trace w' = CallInit :: trace w /\
  fst (adead_shutdown (Some r) w') = Some zero_runtime /\
  live (snd (adead_shutdown (Some r) w')) = live w /\
  trace (snd (adead_shutdown (Some r) w')) =
    CallShutdown (rt_backend_ctx r) :: CallInit :: trace w.
Proof.
  intros H.
  destruct (adead_init_ok_inv _ _ _ _ _ _ H)
    as (b & pb & fl & bs & ctx & [= ->] & Hb & Hpb & Hctx & Hl & Ht & _).
  cbn [rt_backend_ctx rt_memory mm_tensor_pool mm_scratch pool_base arena_base].
  split; [done|]. split; [done|].
  unfold adead_shutdown.
  cbn [rt_initialized rt_backend_vtable rt_backend_ctx rt_memory vt_shutdown cpu_vtable].
  change (1 =? 0) with false. cbv iota.
  destruct (Z.eqb_spec ctx NULL) as [|_]; [done|].
  set (m := mkMemoryManager _ _ _ _ _ _).
  set (w1 := cpu_shutdown ctx (log_call (CallShutdown ctx) w')).
  assert (Hl1 : live w1 = pb :: b :: live w).
  { subst w1. unfold cpu_shutdown, free. destruct (Z.eqb_spec ctx NULL) as [|_]; [done|].
    cbn [live log_call]. rewrite Hl. apply remove_first_head. }
  assert (Ht1 : trace w1 = CallShutdown ctx :: CallInit :: trace w).
  { subst w1. unfold cpu_shutdown, free. destruct (ctx =? NULL); cbn [trace log_call];
      by rewrite Ht. }
  destruct (memory_destroy_spec m w1 (live w) Hb Hpb Hl1) as (_ & Hd2 & Hd3).
  destruct (adead_memory_destroy (Some m) w1) as [m' w2]. cbn [fst snd] in *.
  split; [done|]. split; [done|]. congruence.
Qed.

Lemma init_shutdown_round_trip_witness :
  live (snd (adead_shutdown
               (snd (fst (adead_init idle_kernels (Some zero_runtime) ADEAD_BACKEND_AUTO
                            (world_with [4096; 2 ^ 30; 2 ^ 31]))))
               (snd (adead_init idle_kernels (Some zero_runtime) ADEAD_BACKEND_AUTO
                       (world_with [4096; 2 ^ 30; 2 ^ 31]))))) = [].
Proof.
  destruct (adead_init_succeeds idle_kernels zero_runtime ADEAD_BACKEND_AUTO
              (world_with [4096; 2 ^ 30; 2 ^ 31]) 4096 (2 ^ 30) (2 ^ 31) [])
    as (r & w' & H).
  - reflexivity.
  - reflexivity.
  - vm_compute. split; discriminate || reflexivity.
  - vm_compute. split; discriminate || reflexivity.
  - vm_compute. split; discriminate || reflexivity.
  - rewrite H. cbn [fst snd].
    exact (proj1 (proj2 (proj2 (proj2 (init_shutdown_round_trip idle_kernels
             (Some zero_runtime) r ADEAD_BACKEND_AUTO (world_with [4096; 2 ^ 30; 2 ^ 31]) w' H))))).
Defined.

(** ** Tensors on the CPU backend *)

Lemma usize_range (z : Z) : 0 <= usize z < 2 ^ 64.
Proof. unfold usize. apply Z.mod_pos_bound. lia. Qed.

Lemma cpu_alloc_spec (ctx size : Z) (w : World) (p : Z) (w' : World) :
  cpu_alloc ctx size w = (p, w') ->
  trace w' = trace w /\
  (p = NULL -> live w' = live w /\ mem w' = mem w) /\
  (p ≠ NULL ->
   0 < p /\ p + size <= 2 ^ 64 /\ live w' = p :: live w /\
   load64 ctx w' = usize (load64 ctx w + size)).
Proof.
  unfold cpu_alloc. destruct (malloc size w) as [q w1] eqn:Hm.
  destruct (Z.eqb_spec q NULL) as [Hq|Hq]; intros [= <- <-].
  - destruct (malloc_null _ _ _ _ Hm Hq) as (Hl & Hmem & Ht). done.
  - destruct (malloc_result _ _ _ _ Hm Hq) as (Hpos & Hfit & _ & Hl & Hmem & Ht).
    assert (E : load64 ctx w1 = load64 ctx w) by (unfold load64; by rewrite Hmem).
    rewrite E. set (allocated := usize (load64 ctx w + size)).
    pose proof (usize_range (load64 ctx w + size)) as Hr.
    split; [by destruct (_ >? _)|]. split; [done|]. intros _.
    split; [done|]. split; [done|]. split; [by destruct (_ >? _)|].
    destruct (_ >? _).
    + rewrite load64_store64_other by lia. by apply load64_store64_same.
    + by apply load64_store64_same.
Qed.

Lemma tensor_create_cpu_inv (K : CPUKernels) (r : ADeadRuntime) (tensor : option ADeadTensor)
  (shape : option (list Z)) (ndim dtype : Z) (w w1 : World) (t : ADeadTensor) :
  rt_backend_vtable r = Some (cpu_vtable K) -> 0 <= ndim ->
  adead_tensor_create (Some r) tensor shape ndim dtype w = Ret (ADEAD_OK, Some t, w1) ->
  t_data t ≠ NULL /\
  cpu_alloc (rt_backend_ctx r) (t_size_bytes t)
    (log_call (CallAlloc (rt_backend_ctx r) (t_size_bytes t)) w) = (t_data t, w1).
Proof.
  intros Hvt Hpos H.
  destruct (tensor_create_ok_inv _ _ _ _ _ _ _ _ Hpos H)
    as (sh & data & -> & Hn & Hlen & Hd & Ht).
  destruct tensor as [t0|]; [|discriminate].
  rewrite (tensor_create_eq r _ t0 sh ndim dtype w Hvt) in H by (unfold ADEAD_MAX_DIMS; lia).
  cbv zeta in H. cbn [vt_alloc cpu_vtable] in H.
  destruct (cpu_alloc _ _ _) as [p w2] eqn:Ha. cbn [fst snd] in H.
  destruct (p =? NULL); [discriminate|]. injection H as Ht' <-.
  rewrite <- Ht'. cbn [t_data t_size_bytes]. split; [|exact Ha].
  rewrite Ht in Ht'. by injection Ht' as ->.
Qed.

(** X15.  With the CPU backend, creating a tensor takes one block of the
    heap, the tensor's data, and destroying it gives the block back and
    zeroes the descriptor: the blocks held are again those held before the
    creation, after exactly one [alloc] and one [free] call to the backend. *)
Theorem tensor_create_destroy_round_trip (K : CPUKernels) (r : ADeadRuntime)
  (tensor : option ADeadTensor) (shape : option (list Z)) (ndim dtype : Z)
  (w w1 : World) (t : ADeadTensor) :
  rt_backend_vtable r = Some (cpu_vtable K) -> 0 <= ndim ->
  adead_tensor_create (Some r) tensor shape ndim dtype w = Ret (ADEAD_OK, Some t, w1) ->
  live w1 = t_data t :: live w /\
  0 < t_data t /\ t_data t + t_size_bytes t <= 2 ^ 64 /\
  exists w2,
    adead_tensor_destroy (Some r) (Some t) w1 = Ret (Some zero_tensor, w2) /\
    live w2 = live w /\
    trace w2 = CallFree (rt_backend_ctx r) (t_data t)
                 :: CallAlloc (rt_backend_ctx r) (t_size_bytes t) :: trace w.
Proof.
  intros Hvt Hpos H.
  destruct (tensor_create_cpu_inv _ _ _ _ _ _ _ _ _ Hvt Hpos H) as (Hd & Ha).
  destruct (cpu_alloc_spec _ _ _ _ _ Ha) as (Ht & _ & Hok).
  destruct (Hok Hd) as (Hp & Hfit & Hl & _).
  split; [done|]. split; [done|]. split; [done|].
  unfold adead_tensor_destroy. rewrite Hvt.
  destruct (Z.eqb_spec (t_data t) NULL) as [|_]; [done|].
  eexists. split; [reflexivity|]. cbn [vt_free cpu_vtable]. unfold cpu_free, free.
  destruct (Z.eqb_spec (t_data t) NULL) as [|_]; [done|].
  cbn [live trace log_call]. rewrite Hl, Ht. split; [apply remove_first_head|done].
Qed.

Lemma tensor_create_destroy_round_trip_witness :
  exists t w1 w2,
    adead_tensor_create (Some cpu_runtime) (Some zero_tensor) (Some [2; 3]) 2 0
      (world_with [8192]) = Ret (ADEAD_OK, Some t, w1) /\
    adead_tensor_destroy (Some cpu_runtime) (Some t) w1 = Ret (Some zero_tensor, w2) /\
    live w2 = [].
Proof.
  assert (H : exists t w1,
             adead_tensor_create (Some cpu_runtime) (Some zero_tensor) (Some [2; 3]) 2 0
               (world_with [8192]) = Ret (ADEAD_OK, Some t, w1))
    by (eexists _, _; vm_compute; reflexivity).
  destruct H as (t & w1 & H).
  destruct (tensor_create_destroy_round_trip idle_kernels cpu_runtime (Some zero_tensor)
              (Some [2; 3]) 2 0 (world_with [8192]) w1 t eq_refl ltac:(lia) H)
    as (_ & _ & _ & w2 & Hd & Hl & _).
  exists t, w1, w2. split; [exact H|]. split; [exact Hd|exact Hl].
Defined.

(** X16.  The CPU backend's usage counter only grows.  A successful
    creation adds the tensor's [size_bytes] to what [adead_memory_used]
    reports, and destroying the tensor does not take them off again. *)
Theorem cpu_memory_used_is_cumulative (K : CPUKernels) (r : ADeadRuntime)
  (tensor : option ADeadTensor) (shape : option (list Z)) (ndim dtype : Z)
  (w w1 w2 : World) (t t' : ADeadTensor) :
  rt_backend_vtable r = Some (cpu_vtable K) -> rt_backend_ctx r ≠ NULL -> 0 <= ndim ->
  adead_tensor_create (Some r) tensor shape ndim dtype w = Ret (ADEAD_OK, Some t, w1) ->
  adead_tensor_destroy (Some r) (Some t) w1 = Ret (Some t', w2) ->
  adead_memory_used (Some r) w1 = usize (adead_memory_used (Some r) w + t_size_bytes t) /\
  adead_memory_used (Some r) w2 = adead_memory_used (Some r) w1.
Proof.
  intros Hvt Hctx Hpos H Hdes.
  destruct (tensor_create_cpu_inv _ _ _ _ _ _ _ _ _ Hvt Hpos H) as (Hd & Ha).
  destruct (cpu_alloc_spec _ _ _ _ _ Ha) as (_ & _ & Hok).
  destruct (Hok Hd) as (_ & _ & _ & Hload).
  unfold adead_memory_used. rewrite Hvt. cbn [vt_memory_used cpu_vtable].
  unfold cpu_memory_used. destruct (Z.eqb_spec (rt_backend_ctx r) NULL) as [|_]; [done|].
  split; [exact Hload|].
  revert Hdes. unfold adead_tensor_destroy. rewrite Hvt.
  destruct (Z.eqb_spec (t_data t) NULL) as [|_]; [done|].
  cbn [vt_free cpu_vtable]. intros [= _ <-]. unfold cpu_free, free.
  by destruct (t_data t =? NULL).
Qed.

Lemma cpu_memory_used_is_cumulative_witness :
  exists t w1 w2,
    adead_tensor_create (Some cpu_runtime) (Some zero_tensor) (Some [2; 3]) 2 0
      (world_with [8192]) = Ret (ADEAD_OK, Some t, w1) /\
    adead_tensor_destroy (Some cpu_runtime) (Some t) w1 = Ret (Some zero_tensor, w2) /\
    adead_memory_used (Some cpu_runtime) w2 = adead_memory_used (Some cpu_runtime) w1.
Proof.
  assert (H : exists t w1,
             adead_tensor_create (Some cpu_runtime) (Some zero_tensor) (Some [2; 3]) 2 0
               (world_with [8192]) = Ret (ADEAD_OK, Some t, w1))
    by (eexists _, _; vm_compute; reflexivity).
  destruct H as (t & w1 & H).
  assert (Hd : exists w2, adead_tensor_destroy (Some cpu_runtime) (Some t) w1 =
                            Ret (Some zero_tensor, w2)).
  { destruct (tensor_create_cpu_inv idle_kernels cpu_runtime (Some zero_tensor)
                (Some [2; 3]) 2 0 (world_with [8192]) w1 t eq_refl ltac:(lia) H) as (Hn & _).
    unfold adead_tensor_destroy. cbn [rt_backend_vtable cpu_runtime].
    destruct (Z.eqb_spec (t_data t) NULL) as [|_]; [done|]. eauto. }
  destruct Hd as (w2 & Hd).
  assert (Hc : rt_backend_ctx cpu_runtime ≠ NULL) by (vm_compute; discriminate).
  exists t, w1, w2. split; [exact H|]. split; [exact Hd|].
  exact (proj2 (cpu_memory_used_is_cumulative idle_kernels cpu_runtime (Some zero_tensor)
                  (Some [2; 3]) 2 0 (world_with [8192]) w1 w2 t zero_tensor eq_refl Hc
                  ltac:(lia) H Hd)).
Defined.

(** ** Tensor descriptors *)

Lemma numel_loop_ext (l1 l2 : list Z) (n : nat) (start acc : Z) :
  (forall i, start <= i < start + Z.of_nat n -> array_get l1 i = array_get l2 i) ->
  for_loop n start (numel_step l1) acc = for_loop n start (numel_step l2) acc.
Proof.
  revert start acc. induction n as [|n IH]; intros start acc H; [done|].
  cbn [for_loop]. unfold numel_step at 2 4. rewrite (H start) by lia.
  apply IH. intros i Hi. apply H. lia.
Qed.

Lemma copy_shape_loop_snd (shape : list Z) (n : nat) (start : Z) (l : list Z) (acc : Z) :
  snd (for_loop n start (copy_shape shape) (l, acc)) =
  for_loop n start (numel_step shape) acc.
Proof.
  revert start l acc. induction n as [|n IH]; intros start l acc; [done|].
  cbn [for_loop]. unfold copy_shape at 2. cbn [fst snd]. apply IH.
Qed.

Lemma u64_mul_idemp (a x p : Z) : u64 (u64 (a * x) * p) = u64 (a * (x * p)).
Proof. unfold u64. rewrite Z.mul_mod_idemp_l by lia. f_equal. lia. Qed.

Lemma numel_loop_product (shape : list Z) (n s : nat) (acc : Z) :
  (s + n <= length shape)%nat ->
  u64 (for_loop n (Z.of_nat s) (numel_step shape) acc) =
  u64 (acc * foldr Z.mul 1 (take n (drop s shape))).
Proof.
  revert s acc. induction n as [|n IH]; intros s acc Hlen.
  - cbn. by rewrite Z.mul_1_r.
  - cbn [for_loop]. replace (Z.of_nat s + 1) with (Z.of_nat (S s)) by lia.
    rewrite IH by lia. unfold numel_step.
    destruct (lookup_lt_is_Some_2 shape s ltac:(lia)) as [x Hx].
    rewrite (drop_S _ _ _ Hx). cbn [take foldr].
    unfold array_get. rewrite Nat2Z.id, Hx. cbn [default from_option id].
    apply u64_mul_idemp.
Qed.

Lemma numel_loop_u64 (shape : list Z) (n : nat) (start acc : Z) :
  u64 acc = acc -> u64 (for_loop n start (numel_step shape) acc) =
                   for_loop n start (numel_step shape) acc.
Proof.
  revert start acc. induction n as [|n IH]; intros start acc H; [done|].
  cbn [for_loop]. apply IH. unfold numel_step, u64. apply Z.mod_mod. lia.
Qed.

(** X17.  For every successfully created tensor, [adead_tensor_numel]
    is the product of the first [ndim] extents of the requested shape,
    reduced to [u64], and [size_bytes] is that count times the element size,
    reduced to [u64]; it is the exact byte size whenever that fits in 64
    bits. *)
Theorem tensor_size_invariant (rt : option ADeadRuntime) (tensor : option ADeadTensor)
  (shape : list Z) (ndim dtype : Z) (w w' : World) (t : ADeadTensor) :
  0 <= ndim ->
  adead_tensor_create rt tensor (Some shape) ndim dtype w = Ret (ADEAD_OK, Some t, w') ->
  adead_tensor_numel t = u64 (extent_product shape ndim) /\
  t_size_bytes t = u64 (adead_tensor_numel t * adead_dtype_size (t_dtype t)) /\
  (0 <= extent_product shape ndim * adead_dtype_size dtype < 2 ^ 64 ->
   t_size_bytes t = extent_product shape ndim * adead_dtype_size dtype).
Proof.
  intros Hpos H.
  destruct (tensor_create_ok_inv _ _ _ _ _ _ _ _ Hpos H)
    as (sh & data & [= <-] & Hn & Hlen & Hd & ->).
  assert (Hloop : for_loop (Z.to_nat ndim) 0 (numel_step shape) 1 =
                  u64 (extent_product shape ndim)).
  { rewrite <- numel_loop_u64 by reflexivity.
    change 0 with (Z.of_nat 0). rewrite numel_loop_product by (simpl; lia).
    rewrite drop_0. unfold extent_product. f_equal. lia. }
  assert (Hnumel : adead_tensor_numel
                     (mkTensor data (computed_shape shape ndim)
                        (computed_strides shape ndim dtype) ndim dtype
                        (adead_get_backend rt) (computed_size_bytes shape ndim dtype))
                   = u64 (extent_product shape ndim)).
  { unfold adead_tensor_numel. cbn [t_ndim t_shape].
    change (fun i n => u64 (n * array_get (computed_shape shape ndim) i))
      with (numel_step (computed_shape shape ndim)).
    rewrite (numel_loop_ext _ shape); [exact Hloop|].
    intros i Hi. apply computed_shape_prefix; lia. }
  assert (Hsize : computed_size_bytes shape ndim dtype =
                  u64 (u64 (extent_product shape ndim) * adead_dtype_size dtype)).
  { unfold computed_size_bytes, computed_numel. by rewrite copy_shape_loop_snd, Hloop. }
  split; [exact Hnumel|]. cbn [t_size_bytes t_dtype]. rewrite Hnumel. split; [exact Hsize|].
  intros Hfit. rewrite Hsize. unfold u64 at 1 2.
  rewrite Z.mul_mod_idemp_l by lia. by apply Z.mod_small.
Qed.

Lemma tensor_size_invariant_witness :
  exists t w',
    adead_tensor_create (Some cpu_runtime) (Some zero_tensor) (Some [2; 3; 4]) 3 1
      (world_with [8192]) = Ret (ADEAD_OK, Some t, w') /\
    t_size_bytes t = extent_product [2; 3; 4] 3 * adead_dtype_size 1.
Proof.
  assert (H : exists t w',
             adead_tensor_create (Some cpu_runtime) (Some zero_tensor) (Some [2; 3; 4]) 3 1
               (world_with [8192]) = Ret (ADEAD_OK, Some t, w'))
    by (eexists _, _; vm_compute; reflexivity).
  destruct H as (t & w' & H). exists t, w'. split; [exact H|].
  refine (proj2 (proj2 (tensor_size_invariant (Some cpu_runtime) (Some zero_tensor)
            [2; 3; 4] 3 1 (world_with [8192]) w' t ltac:(lia) H)) _).
  vm_compute. split; discriminate || reflexivity.
Defined.

(** X18.  [adead_tensor_destroy] is idempotent on a descriptor: it does
    nothing to a descriptor whose data handle is null, which is what a failed
    creation and a first destroy both leave, so destroying the same
    descriptor again changes neither the descriptor nor the heap. *)
Theorem tensor_destroy_idempotent (rt : option ADeadRuntime) (tensor t' : option ADeadTensor)
  (w w' : World) :
  (forall t, tensor = Some t -> t_data t = NULL ->
     adead_tensor_destroy rt tensor w = Ret (tensor, w)) /\
  (adead_tensor_destroy rt tensor w = Ret (t', w') ->
   adead_tensor_destroy rt t' w' = Ret (t', w')).
Proof.
  split.
  - intros t -> Hd. unfold adead_tensor_destroy. destruct rt; [|done].
    by rewrite Hd.
  - unfold adead_tensor_destroy. destruct rt as [r|]; [|by intros [= <- <-]].
    destruct tensor as [t|]; [|by intros [= <- <-]].
    destruct (Z.eqb_spec (t_data t) NULL) as [E|_].
    + intros [= <- <-]. destruct (Z.eqb_spec (t_data t) NULL); done.
    + destruct (rt_backend_vtable r); [|discriminate]. intros [= <- <-]. reflexivity.
Qed.

Lemma tensor_destroy_idempotent_witness :
  adead_tensor_destroy (Some cpu_runtime) (Some zero_tensor) (world_with []) =
    Ret (Some zero_tensor, world_with []).
Proof.
  exact (proj1 (tensor_destroy_idempotent (Some cpu_runtime) (Some zero_tensor) None
                  (world_with []) (world_with [])) zero_tensor eq_refl eq_refl).
Defined.

(** X19.  After [adead_shutdown] the context has no backend table.  The
    queries that test the table still answer ([adead_sync] does nothing,
    the memory queries return 0, the backend name is ["Unknown"], the backend
    tag is the CPU's), but every operation that does not test it
    dereferences the null table: the four numeric operations, both copies,
    the creation of a tensor and the destruction of a tensor that still holds
    data. *)
Theorem use_after_shutdown (r : ADeadRuntime) (w : World)
  (a b c : ADeadTensor) (shape : list Z) (ndim dtype data size : Z) :
  rt_initialized r ≠ 0 ->
  let rt' := fst (adead_shutdown (Some r) w) in
  let w' := snd (adead_shutdown (Some r) w) in
  adead_sync rt' w' = w' /\
  adead_memory_available rt' w' = 0 /\ adead_memory_used rt' w' = 0 /\
  adead_get_backend_name rt' = "Unknown"%string /\
  adead_get_backend rt' = ADEAD_BACKEND_CPU /\
  adead_matmul rt' (Some a) (Some b) (Some c) w' = Fault /\
  adead_add rt' (Some a) (Some b) (Some c) w' = Fault /\
  adead_relu rt' (Some a) (Some b) w' = Fault /\
  adead_softmax rt' (Some a) (Some b) w' = Fault /\
  (data ≠ NULL ->
   adead_tensor_copy_from rt' (Some a) data size w' = Fault /\
   adead_tensor_copy_to rt' (Some a) data size w' = Fault) /\
  (t_data a ≠ NULL -> adead_tensor_destroy rt' (Some a) w' = Fault) /\
  (1 <= ndim <= 8 -> adead_tensor_create rt' (Some a) (Some shape) ndim dtype w' = Fault).
Proof.
  intros Hinit. cbv zeta.
  assert (E : fst (adead_shutdown (Some r) w) = Some zero_runtime).
  { unfold adead_shutdown. destruct (Z.eqb_spec (rt_initialized r) 0) as [|_]; [done|].
    by destruct (adead_memory_destroy _ _). }
  rewrite E. set (w' := snd (adead_shutdown (Some r) w)).
  repeat (split; [reflexivity|]). split; [|split].
  - intros Hd. unfold adead_tensor_copy_from, adead_tensor_copy_to.
    destruct (Z.eqb_spec data NULL); done.
  - intros Hd. unfold adead_tensor_destroy. destruct (Z.eqb_spec (t_data a) NULL); done.
  - intros Hn. unfold adead_tensor_create, ADEAD_MAX_DIMS.
    destruct (Z.eqb_spec ndim 0); [lia|]. destruct (Z.gtb_spec ndim 8); [lia|]. cbn [orb].
    destruct (_ <? _); [done|]. cbn [rt_backend_vtable zero_runtime].
    by destruct (for_loop _ _ _ _).
Qed.

Lemma use_after_shutdown_witness :
  adead_matmul (fst (adead_shutdown (Some cpu_runtime) (world_with [])))
    (Some (tensor_2x2 4096)) (Some (tensor_2x2 8192)) (Some (tensor_2x2 12288))
    (snd (adead_shutdown (Some cpu_runtime) (world_with []))) = Fault.
Proof.
  refine (proj1 (proj2 (proj2 (proj2 (proj2 (proj2
            (use_after_shutdown cpu_runtime (world_with []) (tensor_2x2 4096) (tensor_2x2 8192)
               (tensor_2x2 12288) [] 0 0 0 0 _))))))).
  vm_compute. discriminate.
Defined.

(** X20.  [adead_init] looks at the backend identity only after the
    memory manager is set up.  With an identity other than CPU, CUDA, VULKAN
    and AUTO it never succeeds: it returns the memory manager's error if that
    failed and [ADEAD_ERROR_INVALID_PARAM] otherwise, and the context it
    leaves has no backend table and is not marked initialized. *)
Theorem init_unknown_backend (K : CPUKernels) (r0 : ADeadRuntime) (backend : Z) (w : World) :
  backend ≠ ADEAD_BACKEND_CPU -> backend ≠ ADEAD_BACKEND_CUDA ->
  backend ≠ ADEAD_BACKEND_VULKAN -> backend ≠ ADEAD_BACKEND_AUTO ->
  let err := fst (fst (adead_init K (Some r0) backend w)) in
  let merr := fst (fst (adead_memory_init (Some zero_memory_manager)
                          (64 * 1024 * 1024) (16 * 1024 * 1024) w)) in
  err ≠ ADEAD_OK /\
  err = (if is_ok merr then ADEAD_ERROR_INVALID_PARAM else merr) /\
  exists r, snd (fst (adead_init K (Some r0) backend w)) = Some r /\
            rt_backend_vtable r = None /\ rt_initialized r = 0.
Proof.
  intros H0 H1 H2 H255. cbv zeta.
  assert (Hsel : select_backend K backend = None).
  { unfold select_backend.
    destruct (Z.eqb_spec backend ADEAD_BACKEND_CPU); [done|].
    destruct (Z.eqb_spec backend ADEAD_BACKEND_AUTO); [done|].
    destruct (Z.eqb_spec backend ADEAD_BACKEND_CUDA); [done|].
    destruct (Z.eqb_spec backend ADEAD_BACKEND_VULKAN); done. }
  unfold adead_init. rewrite Hsel. cbn [rt_memory zero_runtime].
  destruct (adead_memory_init _ _ _ w) as [[e1 m1] w1]. cbn [fst snd].
  destruct e1; cbn [is_ok negb fst snd];
    try (split; [done|]; split; [done|]; eexists; split; [reflexivity|]; done).
  destruct (adead_memory_destroy _ _). cbn [fst snd].
  split; [done|]. split; [done|]. eexists. split; [reflexivity|]. done.
Qed.

Lemma init_unknown_backend_witness :
  fst (fst (adead_init idle_kernels (Some zero_runtime) 7 (world_with []))) =
    ADEAD_ERROR_OUT_OF_MEMORY.
Proof.
  assert (E : fst (fst (adead_memory_init (Some zero_memory_manager)
                          (64 * 1024 * 1024) (16 * 1024 * 1024) (world_with []))) =
              ADEAD_ERROR_OUT_OF_MEMORY) by (vm_compute; reflexivity).
  refine (eq_trans (proj1 (proj2 (init_unknown_backend idle_kernels zero_runtime 7
                                    (world_with []) _ _ _ _))) _).
  - vm_compute. discriminate.
  - vm_compute. discriminate.
  - vm_compute. discriminate.
  - vm_compute. discriminate.
  - rewrite E. reflexivity.
Defined.

(** ** Invariants over runs, and edge cases *)

Lemma arena_step_wf (a : ADeadArena) (op : ArenaOp) :
  arena_wf a ->
  exists a', arena_step (Some a) op = Some a' /\ arena_wf a' /\
             arena_base a' = arena_base a /\ arena_capacity a' = arena_capacity a /\
             arena_peak a <= arena_peak a'.
Proof.
  intros (Hb & Ho & Hp & Hc). destruct op as [size alignment|]; cbn [arena_step].
  - unfold adead_arena_alloc.
    destruct (_ || _)%bool; [exists a; cbn; unfold arena_wf; repeat split; lia|].
    set (stop := usize (adead_align_up (arena_offset a) alignment + size)).
    pose proof (usize_range (adead_align_up (arena_offset a) alignment + size)) as Hr.
    fold stop in Hr.
    destruct (Z.gtb_spec stop (arena_capacity a));
      [exists a; cbn; unfold arena_wf; repeat split; lia|].
    eexists. cbn [snd]. split; [reflexivity|]. unfold arena_wf.
    cbn [arena_base arena_offset arena_capacity arena_peak].
    destruct (Z.gtb_spec stop (arena_peak a)); repeat split; lia.
  - eexists. cbn [adead_arena_reset]. split; [reflexivity|]. unfold arena_wf.
    cbn [arena_base arena_offset arena_capacity arena_peak]. repeat split; lia.
Qed.

Lemma arena_run_wf (ops : list ArenaOp) (a : ADeadArena) :
  arena_wf a ->
  exists a', arena_run (Some a) ops = Some a' /\ arena_wf a' /\
             arena_base a' = arena_base a /\ arena_capacity a' = arena_capacity a /\
             arena_peak a <= arena_peak a'.
Proof.
  revert a. induction ops as [|op ops IH]; intros a Hwf.
  - exists a. split; [reflexivity|]. split; [done|]. split; [done|]. split; [done|]. lia.
  - destruct (arena_step_wf a op Hwf) as (a1 & Hs & Hwf1 & Hb1 & Hc1 & Hp1).
    destruct (IH a1 Hwf1) as (a' & Hr & Hwf' & Hb' & Hc' & Hp').
    exists a'. unfold arena_run in *. cbn [fold_left]. rewrite Hs.
    split; [done|]. split; [done|]. split; [congruence|]. split; [congruence|]. lia.
Qed.

(** X21.  The arena invariant.  An arena that [adead_arena_init] set up
    with a capacity of at least 0 (a [usize]) is well formed, and stays so
    under every run of allocations, of any size and alignment, and resets:
    the cursor is between 0 and the high-water mark, the mark is within the
    capacity, and the buffer and the capacity never change.  The mark never
    decreases: after a run [ops] it is [peak a1], and after any further
    operations [more] it is at least that. *)
Theorem arena_invariant (a0 a : ADeadArena) (capacity : Z) (w w' : World)
  (ops more : list ArenaOp) :
  0 <= capacity ->
  adead_arena_init (Some a0) capacity w = (ADEAD_OK, Some a, w') ->
  arena_wf a /\ arena_capacity a = capacity /\
  exists a1 a2,
    arena_run (Some a) ops = Some a1 /\
    arena_run (Some a1) more = Some a2 /\
    arena_run (Some a) (ops ++ more) = Some a2 /\
    arena_wf a1 /\ arena_wf a2 /\
    arena_base a1 = arena_base a /\ arena_capacity a1 = capacity /\
    arena_base a2 = arena_base a /\ arena_capacity a2 = capacity /\
    arena_peak a <= arena_peak a1 /\ arena_peak a1 <= arena_peak a2.
Proof.
  intros Hcap Hinit.
  assert (Hwf : arena_wf a /\ arena_capacity a = capacity).
  { revert Hinit. unfold adead_arena_init. destruct (capacity =? 0); [discriminate|].
    destruct (malloc capacity w) as [p w1] eqn:Hm.
    destruct (Z.eqb_spec p NULL) as [|Hp]; [discriminate|]. intros [= <- _].
    destruct (malloc_result _ _ _ _ Hm Hp) as (Hpos & Hfit & _).
    unfold arena_wf. cbn. repeat split; lia. }
  destruct Hwf as [Hwf Hc]. split; [done|]. split; [done|].
  destruct (arena_run_wf ops a Hwf) as (a1 & Hr1 & Hwf1 & Hb1 & Hc1 & Hp1).
  destruct (arena_run_wf more a1 Hwf1) as (a2 & Hr2 & Hwf2 & Hb2 & Hc2 & Hp2).
  exists a1, a2. split; [done|]. split; [done|]. split.
  { unfold arena_run in *. by rewrite fold_left_app, Hr1. }
  split; [done|]. split; [done|]. split; [done|]. split; [congruence|].
  split; [congruence|]. split; [congruence|]. split; done.
Qed.

Lemma arena_invariant_witness :
  exists a1 a2,
    arena_run (Some (mkArena 4096 0 1024 0)) [ArenaAlloc 500 16; ArenaAlloc 2000 16] = Some a1 /\
    arena_run (Some a1) [ArenaReset; ArenaAlloc 64 3] = Some a2 /\
    arena_peak a1 = 500 /\ adead_arena_used (Some a2) = 64 /\
    arena_wf a2 /\ arena_peak a1 <= arena_peak a2.
Proof.
  assert (H : adead_arena_init (Some zero_arena) 1024 (world_with [4096]) =
              (ADEAD_OK, Some (mkArena 4096 0 1024 0),
               snd (adead_arena_init (Some zero_arena) 1024 (world_with [4096]))))
    by (vm_compute; reflexivity).
  assert (Hcap : 0 <= 1024) by lia.
  destruct (arena_invariant zero_arena (mkArena 4096 0 1024 0) 1024 (world_with [4096]) _
              [ArenaAlloc 500 16; ArenaAlloc 2000 16] [ArenaReset; ArenaAlloc 64 3]
              Hcap H)
    as (_ & _ & a1 & a2 & Hr1 & Hr2 & _ & _ & Hwf2 & _ & _ & _ & _ & _ & Hpk).
  assert (E1 : arena_run (Some (mkArena 4096 0 1024 0))
                 [ArenaAlloc 500 16; ArenaAlloc 2000 16] = Some (mkArena 4096 500 1024 500))
    by (vm_compute; reflexivity).
  assert (Ea1 : a1 = mkArena 4096 500 1024 500) by congruence.
  assert (E2 : arena_run (Some (mkArena 4096 500 1024 500)) [ArenaReset; ArenaAlloc 64 3]
               = Some (mkArena 4096 64 1024 500))
    by (vm_compute; reflexivity).
  assert (Ea2 : a2 = mkArena 4096 64 1024 500) by congruence.
  exists a1, a2. split; [exact Hr1|]. split; [exact Hr2|].
  split; [rewrite Ea1; reflexivity|]. split; [rewrite Ea2; reflexivity|].
  split; [exact Hwf2|exact Hpk].
Defined.

(** X22.  The capacity test of [adead_arena_alloc] is made on a sum that
    can wrap.  When the aligned cursor plus the size reaches [2 ^ 64] and the
    wrapped sum is within the capacity, the call succeeds, although the
    request ends beyond the end of the buffer, and the cursor moves
    backwards, below the offset it has just handed out. *)
Theorem arena_alloc_wraps (a : ADeadArena) (size k : Z) :
  arena_wf a -> 0 <= k < 64 -> 0 < size < 2 ^ 64 ->
  arena_offset a + 2 ^ k - 1 < 2 ^ 64 ->
  let aligned := adead_align_up (arena_offset a) (2 ^ k) in
  2 ^ 64 <= aligned + size ->
  aligned + size - 2 ^ 64 <= arena_capacity a ->
  exists a',
    adead_arena_alloc (Some a) size (2 ^ k) = (arena_base a + aligned, Some a') /\
    arena_base a + aligned ≠ NULL /\
    arena_capacity a < aligned + size /\
    arena_offset a' = aligned + size - 2 ^ 64 /\
    arena_offset a' < aligned.
Proof.
  intros (Hb & Ho & Hp & Hc) Hk Hs Hfit. cbv zeta. intros Hwrap Hcap.
  destruct (align_up_least_multiple (arena_offset a) k Hk ltac:(lia) Hfit) as (_ & Hr & _).
  pose proof (pow2_lt_64 k Hk) as Hpow.
  set (aligned := adead_align_up (arena_offset a) (2 ^ k)) in *.
  assert (Hal : aligned < 2 ^ 64) by lia.
  assert (Hsum : usize (aligned + size) = aligned + size - 2 ^ 64).
  { unfold usize. symmetry. apply (Z.mod_unique _ _ 1); lia. }
  unfold adead_arena_alloc.
  destruct (Z.eqb_spec (arena_base a) NULL) as [E|_]; [unfold NULL in E; lia|].
  destruct (Z.eqb_spec size 0) as [|_]; [lia|]. cbn [orb]. fold aligned.
  rewrite Hsum.
  destruct (Z.gtb_spec (aligned + size - 2 ^ 64) (arena_capacity a)); [lia|].
  eexists. split; [reflexivity|]. cbn [arena_offset]. unfold NULL. repeat split; lia.
Qed.

Lemma arena_alloc_wraps_witness :
  exists a',
    adead_arena_alloc (Some (mkArena 4096 16 1024 16)) (2 ^ 64 - 8) (2 ^ 4) =
      (4096 + 16, Some a') /\
    arena_offset a' = 8.
Proof.
  destruct (arena_alloc_wraps (mkArena 4096 16 1024 16) (2 ^ 64 - 8) 4)
    as (a' & Ha & _ & _ & Ho & _).
  - vm_compute. intuition discriminate.
  - vm_compute. intuition discriminate.
  - vm_compute. intuition discriminate.
  - vm_compute. reflexivity.
  - vm_compute. discriminate.
  - vm_compute. discriminate.
  - exists a'. split; [exact Ha|exact Ho].
Defined.

Lemma array_get_zeros (n : nat) (i : Z) : array_get (replicate n 0) i = 0.
Proof.
  unfold array_get. destruct (replicate n 0 !! Z.to_nat i) as [x|] eqn:E; [|done].
  apply lookup_replicate in E as [-> _]. done.
Qed.

(** X23.  The descriptor of a successfully created tensor is determined
    by the request: both arrays have their 8 slots, the first [ndim] extents
    are the caller's, the slots from [ndim] on are zero in the shape and in
    the strides, and [ndim], the dtype and the device are the requested count,
    the requested dtype and the backend tag of the context. *)
Theorem tensor_descriptor_slots (rt : option ADeadRuntime) (tensor : option ADeadTensor)
  (shape : list Z) (ndim dtype : Z) (w w' : World) (t : ADeadTensor) :
  0 <= ndim ->
  adead_tensor_create rt tensor (Some shape) ndim dtype w = Ret (ADEAD_OK, Some t, w') ->
  length (t_shape t) = 8%nat /\ length (t_strides t) = 8%nat /\
  t_ndim t = ndim /\ t_dtype t = dtype /\ t_device t = adead_get_backend rt /\
  t_data t ≠ NULL /\
  (forall i, 0 <= i < ndim -> array_get (t_shape t) i = array_get shape i) /\
  (forall i, ndim <= i ->
     array_get (t_shape t) i = 0 /\ array_get (t_strides t) i = 0).
Proof.
  intros Hpos H.
  destruct (tensor_create_ok_inv _ _ _ _ _ _ _ _ Hpos H)
    as (sh & data & [= <-] & Hn & Hlen & Hd & ->).
  cbn [t_shape t_strides t_ndim t_dtype t_device t_data].
  destruct (shape_loop_spec shape (Z.to_nat ndim) 0 (replicate 8 0) 1)
    as (Hsl & Hsin & Hsout); [lia|rewrite length_replicate; lia|].
  set (s0 := array_set (replicate 8 0) (ndim - 1) (adead_dtype_size dtype)).
  assert (Hs0 : length s0 = 8%nat) by (subst s0; rewrite array_set_length; apply length_replicate).
  pose proof (stride_loop_spec shape (Z.to_nat (ndim - 2 + 1)) s0) as Hst.
  replace (Z.of_nat (Z.to_nat (ndim - 2 + 1)) - 1) with (ndim - 2) in Hst by lia.
  destruct Hst as (Htl & _ & Htout); [lia|].
  assert (Est : computed_strides shape ndim dtype =
                for_down (Z.to_nat (ndim - 2 + 1)) (ndim - 2) (stride_step shape) s0).
  { unfold computed_strides. by rewrite i32_u32_small by lia. }
  split; [unfold computed_shape; by rewrite Hsl, length_replicate|].
  split; [rewrite Est; congruence|].
  split; [done|]. split; [done|]. split; [done|]. split; [done|].
  split; [intros i Hi; apply computed_shape_prefix; lia|].
  intros i Hi. split.
  - unfold computed_shape. rewrite Hsout by lia. apply array_get_zeros.
  - rewrite Est, Htout by lia. subst s0.
    rewrite array_get_set_ne by lia. apply array_get_zeros.
Qed.

Lemma tensor_descriptor_slots_witness :
  exists t w',
    adead_tensor_create (Some cpu_runtime) (Some zero_tensor) (Some [2; 3; 4]) 2 1
      (world_with [8192]) = Ret (ADEAD_OK, Some t, w') /\
    array_get (t_shape t) 2 = 0.
Proof.
  assert (H : exists t w',
             adead_tensor_create (Some cpu_runtime) (Some zero_tensor) (Some [2; 3; 4]) 2 1
               (world_with [8192]) = Ret (ADEAD_OK, Some t, w'))
    by (eexists _, _; vm_compute; reflexivity).
  destruct H as (t & w' & H). exists t, w'. split; [exact H|].
  destruct (tensor_descriptor_slots (Some cpu_runtime) (Some zero_tensor) [2; 3; 4] 2 1
              (world_with [8192]) w' t ltac:(lia) H) as (_ & _ & _ & _ & _ & _ & _ & Hz).
  exact (proj1 (Hz 2 ltac:(lia))).
Defined.

(** X24.  With the CPU backend, what [adead_tensor_copy_from] puts into
    a tensor is what [adead_tensor_copy_to] reads back: when a copy of [size]
    bytes from a non-null host buffer into the tensor and then a copy of
    [size] bytes out into a second non-null host buffer both return
    [ADEAD_OK], the buffers apart from the data of the tensor, the first
    [min(size, size_bytes)] bytes of the second buffer are those the first
    buffer held. *)
Theorem tensor_copy_round_trip (K : CPUKernels) (r : ADeadRuntime) (t : ADeadTensor)
  (src dst size : Z) (w w1 w2 : World) :
  rt_backend_vtable r = Some (cpu_vtable K) -> src ≠ NULL -> dst ≠ NULL ->
  let n := Z.min size (t_size_bytes t) in
  (* memcpy wants its two ranges apart *)
  (src + n <= t_data t \/ t_data t + n <= src) ->
  (dst + n <= t_data t \/ t_data t + n <= dst) ->
  adead_tensor_copy_from (Some r) (Some t) src size w = Ret (ADEAD_OK, w1) ->
  adead_tensor_copy_to (Some r) (Some t) dst size w1 = Ret (ADEAD_OK, w2) ->
  forall i, 0 <= i < n ->
    load_byte (mem w2) (dst + i) = load_byte (mem w) (src + i).
Proof.
  intros Hvt Hs Hd n0 _ _. subst n0.
  unfold adead_tensor_copy_from, adead_tensor_copy_to. rewrite Hvt.
  destruct (Z.eqb_spec src NULL) as [|_]; [done|].
  destruct (Z.eqb_spec dst NULL) as [|_]; [done|].
  set (n := if size >? t_size_bytes t then t_size_bytes t else size).
  assert (Hn : n = Z.min size (t_size_bytes t)).
  { subst n. destruct (Z.gtb_spec size (t_size_bytes t)); lia. }
  cbn [vt_copy_h2d vt_copy_d2h cpu_vtable]. unfold cpu_copy_h2d, cpu_copy_d2h.
  destruct (memcpy (t_data t) src n _) as [wa|] eqn:Ea; [|done].
  apply memcpy_ret in Ea. cbn [ok_after]. intros [= <-].
  destruct (memcpy dst (t_data t) n _) as [wb|] eqn:Eb; [|done].
  apply memcpy_ret in Eb. cbn [ok_after]. intros [= <-] i Hi. rewrite <- Hn in Hi.
  subst wb.
  destruct (copy_bytes_spec dst (t_data t) n
              (log_call (CallCopyD2H (rt_backend_ctx r) dst (t_data t) n) wa))
    as (Hin2 & _).
  rewrite Hin2 by done. cbn [log_call mem]. subst wa.
  destruct (copy_bytes_spec (t_data t) src n
              (log_call (CallCopyH2D (rt_backend_ctx r) (t_data t) src n) w)) as (Hin1 & _).
  rewrite Hin1 by done. reflexivity.
Qed.

Lemma tensor_copy_round_trip_witness :
  exists w1 w2,
    adead_tensor_copy_from (Some cpu_runtime) (Some (tensor_2x2 4096)) 8192 100 host_world
      = Ret (ADEAD_OK, w1) /\
    adead_tensor_copy_to (Some cpu_runtime) (Some (tensor_2x2 4096)) 12288 100 w1
      = Ret (ADEAD_OK, w2) /\
    load_byte (mem host_world) (8192 + 3) = 4 /\
    load_byte (mem w2) (12288 + 3) = 4.
Proof.
  assert (H : exists w1 w2,
             adead_tensor_copy_from (Some cpu_runtime) (Some (tensor_2x2 4096)) 8192 100
               host_world = Ret (ADEAD_OK, w1) /\
             adead_tensor_copy_to (Some cpu_runtime) (Some (tensor_2x2 4096)) 12288 100 w1
               = Ret (ADEAD_OK, w2))
    by (eexists _, _; split; vm_compute; reflexivity).
  destruct H as (w1 & w2 & H1 & H2).
  exists w1, w2. split; [exact H1|]. split; [exact H2|].
  assert (Hsrc : load_byte (mem host_world) (8192 + 3) = 4) by (vm_compute; reflexivity).
  split; [exact Hsrc|].
  rewrite <- Hsrc.
  apply (tensor_copy_round_trip idle_kernels cpu_runtime (tensor_2x2 4096) 8192 12288 100
           host_world w1 w2 eq_refl); [discriminate | discriminate | | | exact H1 | exact H2 | ].
  - vm_compute. right. discriminate.
  - vm_compute. right. discriminate.
  - vm_compute. split; discriminate || reflexivity.
Defined.

(** X25.  A tensor pool of less than one 256-byte block is refused.
    With [pool_size < 256], [adead_memory_init] never succeeds and holds no
    block when it returns; when the scratch arena could be allocated, the
    error is [ADEAD_ERROR_INVALID_PARAM] (from the pool, which is asked for
    zero blocks) and the arena's buffer has been given back. *)
Theorem memory_init_rejects_small_pool (mm0 : ADeadMemoryManager)
  (scratch_size pool_size : Z) (w : World) :
  0 <= pool_size < 256 ->
  fst (fst (adead_memory_init (Some mm0) scratch_size pool_size w)) ≠ ADEAD_OK /\
  live (snd (adead_memory_init (Some mm0) scratch_size pool_size w)) = live w /\
  (forall p rest,
     scratch_size ≠ 0 -> oracle w = p :: rest -> 0 < p -> p + scratch_size <= 2 ^ 64 ->
     fst (fst (adead_memory_init (Some mm0) scratch_size pool_size w)) =
       ADEAD_ERROR_INVALID_PARAM /\
     oracle (snd (adead_memory_init (Some mm0) scratch_size pool_size w)) = rest).
Proof.
  intros Hp. assert (Hdiv : pool_size / 256 = 0) by (apply Z.div_small; lia).
  unfold adead_memory_init, adead_arena_init, adead_pool_init. rewrite Hdiv.
  cbn [mm_scratch mm_tensor_pool zero_memory_manager].
  destruct (Z.eqb_spec scratch_size 0) as [Hz|Hz].
  { cbn [is_ok negb fst snd]. split; [done|]. split; [done|]. intros p rest Hs. done. }
  destruct (malloc scratch_size w) as [b w1] eqn:Hm.
  destruct (Z.eqb_spec b NULL) as [Hb|Hb].
  - cbn [is_ok negb fst snd].
    destruct (malloc_null _ _ _ _ Hm Hb) as (Hl & _).
    split; [done|]. split; [done|]. intros p rest _ Ho Hpos Hfit.
    rewrite (malloc_ok _ _ _ _ Ho Hpos Hfit) in Hm. injection Hm as -> _.
    unfold NULL in Hb. lia.
  - destruct (malloc_result _ _ _ _ Hm Hb) as (_ & _ & Ho1 & Hl1 & _).
    cbn [is_ok negb member default from_option id mm_scratch mm_tensor_pool
         mm_total_alloc mm_total_freed mm_alloc_count mm_free_count orb].
    change ((256 =? 0) || (0 =? 0))%bool with true. cbv iota.
    cbn [is_ok negb member default from_option id mm_scratch mm_tensor_pool
         mm_total_alloc mm_total_freed mm_alloc_count mm_free_count].
    unfold adead_arena_destroy. cbn [arena_base].
    destruct (Z.eqb_spec b NULL) as [|_]; [done|]. cbn [fst snd].
    unfold free. destruct (Z.eqb_spec b NULL) as [|_]; [done|]. cbn [live oracle].
    split; [done|]. split; [rewrite Hl1; apply remove_first_head|].
    intros p rest _ Ho _ _. split; [done|]. congruence.
Qed.

Lemma memory_init_rejects_small_pool_witness :
  fst (fst (adead_memory_init (Some zero_memory_manager) 1024 255 (world_with [4096; 8192])))
    = ADEAD_ERROR_INVALID_PARAM /\
  oracle (snd (adead_memory_init (Some zero_memory_manager) 1024 255
                 (world_with [4096; 8192]))) = [8192].
Proof.
  refine (proj2 (proj2 (memory_init_rejects_small_pool zero_memory_manager 1024 255
                          (world_with [4096; 8192]) _)) 4096 [8192] _ _ _ _).
  - vm_compute. split; discriminate || reflexivity.
  - vm_compute. discriminate.
  - reflexivity.
  - reflexivity.
  - vm_compute. discriminate.
Defined.
